(** * Outlier task-count overlay: a shallow embedding of the userscript

  The script under verification is a single event-driven closure.  It
  keeps two scalars ([remainingTaskCount], [emptyQueueReason]) and the
  last location it has seen ([lastUrl]), wraps [window.fetch] and
  [XMLHttpRequest.prototype.send] to observe three endpoints, and runs a
  500 ms reconciliation timer that creates, refreshes or removes one
  textarea.

  The embedding follows the script function by function.  Values are the
  values [JSON.parse] can produce (plus [undefined] and an opaque built-in
  reached through a prototype); exceptions are explicit; the closure's
  variables, the location, the cookie string, the children of
  [document.body] and the error console form one state record that every
  handler threads through a small state-and-exception monad. *)

From Stdlib Require Import String Ascii List ZArith Lia Bool Arith.
From Stdlib Require Import DecimalString.
Import ListNotations.
Set Warnings "-register-all".
Local Open Scope string_scope.
Local Open Scope list_scope.

(* ===================================================================== *)
(** ** Strings                                                            *)
(* ===================================================================== *)

Module Str.

(** [s.includes(t)] and friends are built on prefix tests. *)
Fixpoint starts_with (p s : string) : bool :=
  match p, s with
  | EmptyString, _ => true
  | String a p', String b s' => Ascii.eqb a b && starts_with p' s'
  | String _ _, EmptyString => false
  end.

Fixpoint drop (n : nat) (s : string) : string :=
  match n, s with
  | O, _ => s
  | S n', String _ s' => drop n' s'
  | S _, EmptyString => EmptyString
  end.

Fixpoint take (n : nat) (s : string) : string :=
  match n, s with
  | O, _ => EmptyString
  | S n', String c s' => String c (take n' s')
  | S _, EmptyString => EmptyString
  end.

(** [s.includes(t)]. *)
Fixpoint includes (t s : string) : bool :=
  starts_with t s ||
  match s with
  | EmptyString => false
  | String _ s' => includes t s'
  end.

(** The longest prefix whose characters all satisfy [ok], and the rest. *)
Fixpoint take_while (ok : ascii -> bool) (s : string) : string :=
  match s with
  | EmptyString => EmptyString
  | String c s' => if ok c then String c (take_while ok s') else EmptyString
  end.

Fixpoint drop_while (ok : ascii -> bool) (s : string) : string :=
  match s with
  | EmptyString => EmptyString
  | String c s' => if ok c then drop_while ok s' else s
  end.

Fixpoint all (ok : ascii -> bool) (s : string) : bool :=
  match s with
  | EmptyString => true
  | String c s' => ok c && all ok s'
  end.

(** [s.split(sep)] for a one-character separator: never the empty list. *)
Fixpoint split (sep : ascii) (s : string) : list string :=
  match s with
  | EmptyString => [EmptyString]
  | String c s' =>
      if Ascii.eqb c sep then EmptyString :: split sep s'
      else match split sep s' with
           | h :: t => String c h :: t
           | [] => [String c EmptyString]
           end
  end.

(** [parts.join(sep)]. *)
Fixpoint join (sep : string) (parts : list string) : string :=
  match parts with
  | [] => EmptyString
  | [p] => p
  | p :: rest => p ++ sep ++ join sep rest
  end.

Definition nonempty (s : string) : bool :=
  match s with EmptyString => false | String _ _ => true end.

End Str.

(* ===================================================================== *)
(** ** The fragment of JavaScript the script runs on                      *)
(* ===================================================================== *)

Module Js.

(** A Number.  The script never computes with numbers: it tests them,
    passes them on and prints them.  A finite number other than zero is
    given by the integers the language definition prints it from: its
    sign, the digits [s] of its shortest decimal representation and the
    position [n] of the decimal point, so that the number is
    [s * 10^(n - k)] where [k] is the number of digits of [s].  The two
    zeros print and test alike and are one value here. *)
Inductive number : Type :=
| Zero
| Finite (negative : bool) (s : positive) (n : Z)
| Infinity (negative : bool).

(** What [JSON.parse] returns, together with [undefined] (the result of
    reading a missing property) and [VBuiltin], an opaque truthy object
    or function of the host without a method called [includes]: what a
    property read finds on a built-in prototype ([({}).constructor],
    [[].map], ...) and, as the argument the page gives to [open], an
    object such as a [URL].  [VBuiltin] is never a part of a parsed
    value. *)
Inductive value : Type :=
| VUndefined
| VNull
| VBool (b : bool)
| VNum (n : number)
| VStr (s : string)
| VArr (items : list value)
| VObj (props : list (string * value))
| VBuiltin.

Inductive error : Type :=
| TypeError      (* property read on null or undefined, call of what is no
                    function, conversion of an object without a primitive
                    value, body already read *)
| SyntaxError    (* the text is not JSON *)
| URIError       (* malformed percent-encoding *)
| NetworkError.  (* the request itself failed *)

(** A computation either completes with a value or throws. *)
Inductive result (A : Type) : Type :=
| Ok (a : A)
| Throw (e : error).
Arguments Ok {A} a.
Arguments Throw {A} e.

(** ToBoolean. *)
Definition truthy (v : value) : bool :=
  match v with
  | VUndefined | VNull => false
  | VBool b => b
  | VNum Zero => false
  | VNum _ => true
  | VStr s => Str.nonempty s
  | VArr _ | VObj _ | VBuiltin => true
  end.

(** [a === b] where [b] is a string. *)
Definition strict_eq_string (v : value) (s : string) : bool :=
  match v with
  | VStr t => String.eqb t s
  | _ => false
  end.

Definition is_null (v : value) : bool :=
  match v with VNull => true | _ => false end.

Definition is_undefined (v : value) : bool :=
  match v with VUndefined => true | _ => false end.

(** [Array.isArray(v)]. *)
Definition isArray (v : value) : bool :=
  match v with VArr _ => true | _ => false end.

(** Own properties of a parsed object: when the text repeats a key the
    last occurrence is the one that stays. *)
Fixpoint own (k : string) (props : list (string * value)) : option value :=
  match props with
  | [] => None
  | (k', v) :: rest =>
      match own k rest with
      | Some w => Some w
      | None => if String.eqb k' k then Some v else None
      end
  end.

(** Canonical array indices: ["0"], or digits without a leading zero. *)
Definition digit (c : ascii) : option nat :=
  let n := nat_of_ascii c in
  if (Nat.leb 48 n && Nat.leb n 57)%bool then Some (n - 48)%nat else None.

Fixpoint digits (acc : nat) (s : string) : option nat :=
  match s with
  | EmptyString => Some acc
  | String c s' =>
      match digit c with
      | Some d => digits (10 * acc + d)%nat s'
      | None => None
      end
  end.

Definition array_index (k : string) : option nat :=
  match k with
  | EmptyString => None
  | String c EmptyString => digit c
  | String c rest =>
      match digit c with
      | Some 0 => None
      | Some d => digits d rest
      | None => None
      end
  end.

(** *** Strings as sequences of code units

    A string of the language is a sequence of UTF-16 code units; here it
    is the UTF-8 text of the same characters.  [units s] lists the code
    units of [s], each as a text of its own: a character of the basic
    plane is one unit; any other character is a pair of surrogates (each
    written in the three-octet form); an octet that is part of no
    character counts for one unit. *)
Definition continuation (c : ascii) : bool :=
  let n := N_of_ascii c in (N.leb 128 n && N.leb n 191)%bool.

Definition three_octets (u : N) : string :=
  String (ascii_of_N (224 + u / 4096))
    (String (ascii_of_N (128 + (u / 64) mod 64))
       (String (ascii_of_N (128 + u mod 64)) EmptyString)).

Definition surrogates (b0 b1 b2 b3 : ascii) : list string :=
  let point := ((N_of_ascii b0 mod 8) * 262144 + (N_of_ascii b1 mod 64) * 4096
                + (N_of_ascii b2 mod 64) * 64 + N_of_ascii b3 mod 64)%N in
  let c := (point - 65536)%N in
  [three_octets (55296 + c / 1024); three_octets (56320 + c mod 1024)].

Fixpoint units (s : string) : list string :=
  match s with
  | EmptyString => []
  | String b0 r0 =>
      let alone := String b0 EmptyString :: units r0 in
      let n := N_of_ascii b0 in
      if (n <? 194)%N then alone
      else
        match r0 with
        | String b1 r1 =>
            if negb (continuation b1) then alone
            else if (n <? 224)%N then String b0 (String b1 EmptyString) :: units r1
            else
              match r1 with
              | String b2 r2 =>
                  if negb (continuation b2) then alone
                  else if (n <? 240)%N
                  then String b0 (String b1 (String b2 EmptyString)) :: units r2
                  else
                    match r2 with
                    | String b3 r3 =>
                        if (continuation b3 && (n <? 245)%N)%bool
                        then surrogates b0 b1 b2 b3 ++ units r3
                        else alone
                    | EmptyString => alone
                    end
              | EmptyString => alone
              end
        | EmptyString => alone
        end
  end.

(** [s[i]]: the code unit at index [i]. *)
Definition char_at (i : nat) (s : string) : option string :=
  nth_error (units s) i.

(** [s.length]. *)
Definition length (s : string) : nat := List.length (units s).

(** *** Numbers as texts *)

(** The decimal text of an integer. *)
Definition show_Z (n : Z) : string := NilZero.string_of_int (Z.to_int n).

Definition show_pos (p : positive) : string :=
  NilZero.string_of_uint (Pos.to_uint p).

Fixpoint zeros (n : nat) : string :=
  match n with
  | O => EmptyString
  | S n' => String "0" (zeros n')
  end.

(** Number::toString for a finite number other than zero, from the digits
    [s] and the position [n] of the point: plain digits while
    [k <= n <= 21], a point inside the digits while [0 < n <= 21], a
    leading [0.] while [-6 < n <= 0], and the exponent form otherwise. *)
Definition finite_text (s : positive) (n : Z) : string :=
  let d := show_pos s in
  let k := Z.of_nat (String.length d) in
  if ((k <=? n) && (n <=? 21))%Z then
    d ++ zeros (Z.to_nat (n - k))
  else if ((0 <? n) && (n <=? 21))%Z then
    Str.take (Z.to_nat n) d ++ "." ++ Str.drop (Z.to_nat n) d
  else if ((-6 <? n) && (n <=? 0))%Z then
    "0." ++ zeros (Z.to_nat (- n)) ++ d
  else
    let exponent : string :=
      ("e" ++ (if (n - 1 <? 0)%Z then "-" else "+") ++ show_Z (Z.abs (n - 1)))%string in
    if (k =? 1)%Z then d ++ exponent
    else Str.take 1 d ++ "." ++ Str.drop 1 d ++ exponent.

Definition number_text (x : number) : string :=
  match x with
  | Zero => "0"
  | Finite negative s n => (if negative then "-" else EmptyString) ++ finite_text s n
  | Infinity negative => (if negative then "-" else EmptyString) ++ "Infinity"
  end.

(** The Number that an integer below 2^53 in absolute value is: its
    digits without the trailing zeros are its shortest representation,
    and the point stands after as many places as the integer has
    digits. *)
Fixpoint without_trailing_zeros (fuel : nat) (p : positive) : positive :=
  match fuel with
  | O => p
  | S fuel' =>
      if (Z.pos p mod 10 =? 0)%Z
      then without_trailing_zeros fuel' (Z.to_pos (Z.pos p / 10))
      else p
  end.

Definition places (p : positive) : Z := Z.of_nat (String.length (show_pos p)).

Definition int (z : Z) : number :=
  match z with
  | Z0 => Zero
  | Zpos p => Finite false (without_trailing_zeros (Pos.size_nat p) p) (places p)
  | Zneg p => Finite true (without_trailing_zeros (Pos.size_nat p) p) (places p)
  end.

(** The built-in prototype a value's property reads fall back to. *)
Inductive proto : Type :=
| ObjectProto | ArrayProto | StringProto | NumberProto | BooleanProto
| FunctionProto.

Section Runtime.

(** Which property names the host's built-in prototypes define is a
    fact about the browser, not about the script: it is a parameter. *)
Variable inherits : proto -> string -> bool.

Definition inherited (p : proto) (k : string) : value :=
  if inherits p k then VBuiltin else VUndefined.

(** [v[k]]: own properties first, then the prototype; reading from
    [null] or [undefined] throws. *)
Definition get (v : value) (k : string) : result value :=
  match v with
  | VUndefined | VNull => Throw TypeError
  | VBool _ => Ok (inherited BooleanProto k)
  | VNum _ => Ok (inherited NumberProto k)
  | VStr s =>
      match array_index k with
      | Some i =>
          match char_at i s with
          | Some c => Ok (VStr c)
          | None => Ok (inherited StringProto k)
          end
      | None =>
          if String.eqb k "length" then Ok (VNum (int (Z.of_nat (length s))))
          else Ok (inherited StringProto k)
      end
  | VArr items =>
      match array_index k with
      | Some i =>
          match nth_error items i with
          | Some x => Ok x
          | None => Ok (inherited ArrayProto k)
          end
      | None =>
          if String.eqb k "length" then Ok (VNum (int (Z.of_nat (List.length items))))
          else Ok (inherited ArrayProto k)
      end
  | VObj props =>
      match own k props with
      | Some x => Ok x
      | None => Ok (inherited ObjectProto k)
      end
  | VBuiltin => Ok (inherited FunctionProto k)
  end.

End Runtime.

(** ToString, as a template literal and [RegExp.prototype.test] apply
    it, with the conversions the language defines.  An array joins the
    texts of its elements, where [null] and [undefined] count for the
    empty text.  A parsed object is converted through its [toString]
    and [valueOf]: with no key of its own called [toString] that is the
    method of [Object.prototype]; with such a key, the value under it is
    no function and [valueOf] yields no primitive either, so the
    conversion throws.  The text of a built-in is the host's; one text
    stands for all of them. *)
Fixpoint to_string (v : value) : result string :=
  match v with
  | VUndefined => Ok "undefined"
  | VNull => Ok "null"
  | VBool true => Ok "true"
  | VBool false => Ok "false"
  | VNum n => Ok (number_text n)
  | VStr s => Ok s
  | VArr items =>
      (fix join (xs : list value) : result string :=
         match xs with
         | [] => Ok EmptyString
         | x :: rest =>
             match (match x with
                    | VUndefined | VNull => Ok EmptyString
                    | _ => to_string x
                    end) with
             | Throw e => Throw e
             | Ok t =>
                 match rest with
                 | [] => Ok t
                 | _ :: _ =>
                     match join rest with
                     | Throw e => Throw e
                     | Ok u => Ok (t ++ "," ++ u)%string
                     end
                 end
             end
         end) items
  | VObj props =>
      match own "toString" props with
      | Some _ => Throw TypeError
      | None => Ok "[object Object]"
      end
  | VBuiltin => Ok "function () { [native code] }"
  end.

(** [v.includes(t)] for a text [t]: strings and arrays have the method;
    on every other value of the model the property is undefined, or is
    a parsed value and no function, and the call throws. *)
Definition includes (v : value) (t : string) : result bool :=
  match v with
  | VStr s => Ok (Str.includes t s)
  | VArr items => Ok (existsb (fun x => strict_eq_string x t) items)
  | _ => Throw TypeError
  end.

End Js.

Import Js.

(* ===================================================================== *)
(** ** The location                                                       *)
(* ===================================================================== *)

Module Url.

(** Everything after the first ["://"] of an address. *)
Fixpoint after_scheme (s : string) : string :=
  if Str.starts_with "://" s then Str.drop 3 s
  else match s with
       | EmptyString => EmptyString
       | String _ s' => after_scheme s'
       end.

Definition in_authority (c : ascii) : bool :=
  negb (Ascii.eqb c "/" || Ascii.eqb c "?" || Ascii.eqb c "#").

Definition in_path (c : ascii) : bool :=
  negb (Ascii.eqb c "?" || Ascii.eqb c "#").

(** [window.location.pathname] as a function of [window.location.href]:
    what follows the authority, up to the query or the fragment; ["/"]
    when that is empty. *)
Definition pathname (href : string) : string :=
  let p := Str.take_while in_path (Str.drop_while in_authority (after_scheme href)) in
  if Str.nonempty p then p else "/".

End Url.

(* ===================================================================== *)
(** ** Page classifier                                                    *)
(* ===================================================================== *)

(** [parts[i]] on the array [split] returns. *)
Definition part (parts : list string) (i : nat) : value :=
  match nth_error parts i with
  | Some s => VStr s
  | None => VUndefined
  end.

(** [isProjectPage]: the value of
    [parts[1] === 'projects' && parts[2] && parts[2] !== 'history']. *)
Definition isProjectPage (href : string) : value :=
  let parts := Str.split "/" (Url.pathname href) in
  if strict_eq_string (part parts 1) "projects" then
    if truthy (part parts 2) then
      VBool (negb (strict_eq_string (part parts 2) "history"))
    else part parts 2
  else VBool false.

(** [getProjectIdFromURL]: [None] stands for [null]. *)
Definition getProjectIdFromURL (href : string) : option string :=
  if negb (truthy (isProjectPage href)) then None
  else
    let parts := Str.split "/" (Url.pathname href) in
    match nth_error parts 2 with
    | Some s => if Str.nonempty s then Some s else None
    | None => None
    end.

(* ===================================================================== *)
(** ** Credential extractor                                               *)
(* ===================================================================== *)

Module Cookie.

Definition not_semicolon (c : ascii) : bool := negb (Ascii.eqb c ";").

(** [_csrf=([^;]+)] matched at the head of [s]: the second group. *)
Definition csrf_here (s : string) : option string :=
  if Str.starts_with "_csrf=" s then
    let v := Str.take_while not_semicolon (Str.drop 6 s) in
    if Str.nonempty v then Some v else None
  else None.

(** Leftmost match of [(^| )_csrf=([^;]+)]: at each position the
    alternative [^] (only at the very start), then the alternative [' ']. *)
Fixpoint csrf_match (at_start : bool) (s : string) : option string :=
  match (if at_start then csrf_here s else None) with
  | Some v => Some v
  | None =>
      match s with
      | EmptyString => None
      | String c s' =>
          match (if Ascii.eqb c " " then csrf_here s' else None) with
          | Some v => Some v
          | None => csrf_match false s'
          end
      end
  end.

(** *** [decodeURIComponent] *)

Inductive item : Type :=
| Lit (c : ascii)   (* a character standing for itself *)
| Oct (b : nat).    (* the octet of an escape [%XX] *)

Definition hex (c : ascii) : option nat :=
  let n := nat_of_ascii c in
  if (Nat.leb 48 n && Nat.leb n 57)%bool then Some (n - 48)%nat
  else if (Nat.leb 65 n && Nat.leb n 70)%bool then Some (n - 55)%nat
  else if (Nat.leb 97 n && Nat.leb n 102)%bool then Some (n - 87)%nat
  else None.

(** Every [%] must be followed by two hexadecimal digits. *)
Fixpoint unescape (s : string) : option (list item) :=
  match s with
  | EmptyString => Some []
  | String c rest =>
      if Ascii.eqb c "%" then
        match rest with
        | String h (String l rest') =>
            match hex h, hex l with
            | Some a, Some b =>
                option_map (cons (Oct (16 * a + b)%nat)) (unescape rest')
            | _, _ => None
            end
        | _ => None
        end
      else option_map (cons (Lit c)) (unescape rest)
  end.

(** A leading octet of a multi-octet sequence: how many continuation
    octets follow and the range allowed for the first of them (this is
    what excludes overlong forms, surrogates and code points above
    U+10FFFF). *)
Definition lead (b : nat) : option (nat * nat * nat) :=
  if (Nat.leb 194 b && Nat.leb b 223)%bool then Some (1, 128, 191)%nat
  else if Nat.eqb b 224 then Some (2, 160, 191)%nat
  else if Nat.eqb b 237 then Some (2, 128, 159)%nat
  else if (Nat.leb 225 b && Nat.leb b 239)%bool then Some (2, 128, 191)%nat
  else if Nat.eqb b 240 then Some (3, 144, 191)%nat
  else if (Nat.leb 241 b && Nat.leb b 243)%bool then Some (3, 128, 191)%nat
  else if Nat.eqb b 244 then Some (3, 128, 143)%nat
  else None.

(** The escaped octets must form well-formed UTF-8, and every octet of a
    sequence must itself be escaped. *)
Fixpoint utf8 (pending lo hi : nat) (items : list item) : option string :=
  match items with
  | [] => if Nat.eqb pending 0 then Some EmptyString else None
  | Lit c :: rest =>
      if Nat.eqb pending 0 then option_map (String c) (utf8 0 128 191 rest)
      else None
  | Oct b :: rest =>
      match pending with
      | S p =>
          if (Nat.leb lo b && Nat.leb b hi)%bool
          then option_map (String (ascii_of_nat b)) (utf8 p 128 191 rest)
          else None
      | O =>
          if Nat.ltb b 128
          then option_map (String (ascii_of_nat b)) (utf8 0 128 191 rest)
          else match lead b with
               | Some (n, lo', hi') =>
                   option_map (String (ascii_of_nat b)) (utf8 n lo' hi' rest)
               | None => None
               end
      end
  end.

Definition decodeURIComponent (s : string) : result string :=
  match unescape s with
  | None => Throw URIError
  | Some items =>
      match utf8 0 128 191 items with
      | Some t => Ok t
      | None => Throw URIError
      end
  end.

End Cookie.

(** [getCsrfToken], reading [document.cookie]. *)
Definition getCsrfToken (cookie : string) : result string :=
  match Cookie.csrf_match true cookie with
  | Some v => Cookie.decodeURIComponent v
  | None => Ok EmptyString
  end.

(* ===================================================================== *)
(** ** The page, the closure's variables and the monad of handlers        *)
(* ===================================================================== *)

(** An element of the page, as far as the script looks at it. *)
Record element : Type := mkElement {
  el_id : string;
  el_value : string
}.

(** The fallback request [pollForMissingValues] sends. *)
Record request : Type := mkRequest {
  rq_url : string;
  rq_method : string;
  rq_csrf : string;               (* header x-csrf-token *)
  rq_projectIds : list string     (* body {projectIds: [...]} *)
}.

(** A fallback request in flight, with the identifier its continuation
    captured when it was sent. *)
Record poll : Type := mkPoll {
  poll_projectId : string;
  poll_request : request
}.

Record state : Type := mkState {
  href : string;                      (* window.location.href *)
  cookie : string;                    (* document.cookie *)
  body : option (list element);       (* children of document.body; None while it is null *)
  remainingTaskCount : value;
  emptyQueueReason : value;
  lastUrl : string;
  console : list (string * error);    (* what console.error received *)
  inflight : list poll
}.

Definition set_href (u : string) (s : state) : state :=
  mkState u (cookie s) (body s) (remainingTaskCount s) (emptyQueueReason s)
          (lastUrl s) (console s) (inflight s).
Definition set_cookie (c : string) (s : state) : state :=
  mkState (href s) c (body s) (remainingTaskCount s) (emptyQueueReason s)
          (lastUrl s) (console s) (inflight s).
Definition set_body (b : option (list element)) (s : state) : state :=
  mkState (href s) (cookie s) b (remainingTaskCount s) (emptyQueueReason s)
          (lastUrl s) (console s) (inflight s).
Definition set_remainingTaskCount (v : value) (s : state) : state :=
  mkState (href s) (cookie s) (body s) v (emptyQueueReason s)
          (lastUrl s) (console s) (inflight s).
Definition set_emptyQueueReason (v : value) (s : state) : state :=
  mkState (href s) (cookie s) (body s) (remainingTaskCount s) v
          (lastUrl s) (console s) (inflight s).
Definition set_lastUrl (u : string) (s : state) : state :=
  mkState (href s) (cookie s) (body s) (remainingTaskCount s) (emptyQueueReason s)
          u (console s) (inflight s).
Definition set_console (l : list (string * error)) (s : state) : state :=
  mkState (href s) (cookie s) (body s) (remainingTaskCount s) (emptyQueueReason s)
          (lastUrl s) l (inflight s).
Definition set_inflight (l : list poll) (s : state) : state :=
  mkState (href s) (cookie s) (body s) (remainingTaskCount s) (emptyQueueReason s)
          (lastUrl s) (console s) l.

(** Handlers run to completion on one thread: a handler maps the state to
    a new state and either a value or the exception it threw.  What was
    assigned before a [throw] stays assigned. *)
Definition M (A : Type) : Type := state -> result A * state.

Definition ret {A} (a : A) : M A := fun s => (Ok a, s).

Definition bind {A B} (c : M A) (k : A -> M B) : M B :=
  fun s =>
    match c s with
    | (Ok a, s') => k a s'
    | (Throw e, s') => (Throw e, s')
    end.

Definition lift {A} (r : result A) : M A := fun s => (r, s).

Definition reads {A} (f : state -> A) : M A := fun s => (Ok (f s), s).

Definition modify (f : state -> state) : M unit := fun s => (Ok tt, f s).

(** [try { c } catch (e) { h e }], and [promise.then(c).catch(h)]. *)
Definition try_catch {A} (c : M A) (h : error -> M A) : M A :=
  fun s =>
    match c s with
    | (Ok a, s') => (Ok a, s')
    | (Throw e, s') => h e s'
    end.

Declare Scope js_scope.
Delimit Scope js_scope with js.
Notation "x <- c ;; k" := (bind c (fun x => k))
  (at level 61, c at next level, right associativity) : js_scope.
Notation "c ;; k" := (bind c (fun _ => k))
  (at level 61, right associativity) : js_scope.
Local Open Scope js_scope.

Definition console_error (label : string) (e : error) : M unit :=
  modify (fun s => set_console (console s ++ [(label, e)]) s).

(* ===================================================================== *)
(** ** Overlay renderer                                                   *)
(* ===================================================================== *)

Definition overlay_id : string := "tm-outlier-task-count".

Definition has_id (id : string) (e : element) : bool := String.eqb (el_id e) id.

(** [document.getElementById(id)]: the first element in document order. *)
Definition getElementById (id : string) (b : option (list element)) : option element :=
  match b with
  | Some els => find (has_id id) els
  | None => None
  end.

(** [e.remove()] for the element [getElementById] found. *)
Fixpoint remove_first (id : string) (els : list element) : list element :=
  match els with
  | [] => []
  | e :: rest => if has_id id e then rest else e :: remove_first id rest
  end.

(** [e.value = text] for the element [getElementById] found. *)
Fixpoint set_first_value (id text : string) (els : list element) : list element :=
  match els with
  | [] => []
  | e :: rest =>
      if has_id id e then mkElement (el_id e) text :: rest
      else e :: set_first_value id text rest
  end.

Definition newline : string := String (ascii_of_nat 10) EmptyString.

(** One interpolation of the template literal:
    [${x !== null ? x : 'N/A'}]. *)
Definition shown (x : value) : result string :=
  if negb (is_null x) then to_string x else Ok "N/A".

(** The template literal of [updateTextbox]: the count is converted
    first, then the reason; either conversion may throw. *)
Definition textbox_text (s : state) : result string :=
  match shown (remainingTaskCount s) with
  | Throw e => Throw e
  | Ok count =>
      match shown (emptyQueueReason s) with
      | Throw e => Throw e
      | Ok reason =>
          Ok ("Remaining Tasks: " ++ count ++ newline ++ "EQ Reason: " ++ reason)%string
      end
  end.

(** The last statement of [updateTextbox], [textbox.value = `...`]:
    when the template literal throws, nothing is assigned. *)
Definition write_text : M unit :=
  fun s =>
    match textbox_text s with
    | Ok text =>
        (Ok tt, set_body (option_map (set_first_value overlay_id text) (body s)) s)
    | Throw e => (Throw e, s)
    end.

(** [updateTextbox].  A new textarea starts with an empty value and is
    appended to [document.body] before its text is computed; appending
    throws while the body is still null (the script is injected at
    document-start).  Style, size and the drag listeners of the new
    element do not enter any property below and are left out. *)
Definition updateTextbox : M unit :=
  fun s =>
    if negb (truthy (isProjectPage (href s))) then
      match getElementById overlay_id (body s) with
      | Some _ => (Ok tt, set_body (option_map (remove_first overlay_id) (body s)) s)
      | None => (Ok tt, s)
      end
    else
      match getElementById overlay_id (body s) with
      | Some _ => write_text s
      | None =>
          match body s with
          | None => (Throw TypeError, s)
          | Some els =>
              write_text (set_body (Some (els ++ [mkElement overlay_id EmptyString])) s)
          end
      end.

(* ===================================================================== *)
(** ** Network observation layer                                          *)
(* ===================================================================== *)

(** A [Response].  Its body is represented by what decoding the text as
    JSON yields; [bodyUsed] records whether the stream was consumed. *)
Record response : Type := mkResponse {
  resp_url : string;
  resp_json : result value;
  resp_bodyUsed : bool
}.

(** Responses are objects: a variable holds a reference, and reading a
    body marks the object it is read from, whoever else holds it.  The
    objects a callback can reach are a list, a reference is a position. *)
Definition objects : Type := list response.

Definition reference : Type := nat.

Fixpoint replace_nth {A} (i : nat) (a : A) (l : list A) : list A :=
  match l, i with
  | [], _ => []
  | _ :: rest, O => a :: rest
  | x :: rest, S i' => x :: replace_nth i' a rest
  end.

(** [r.clone()]: a new object with the same body, unread; refused once
    the body of [r] has been read. *)
Definition clone (r : reference) (h : objects) : result reference * objects :=
  match nth_error h r with
  | Some o =>
      if resp_bodyUsed o then (Throw TypeError, h)
      else (Ok (List.length h), h ++ [mkResponse (resp_url o) (resp_json o) false])
  | None => (Throw TypeError, h)
  end.

(** [r.json()]: what the promise settles with; the body of [r] is used
    from then on. *)
Definition json (r : reference) (h : objects) : result value * objects :=
  match nth_error h r with
  | Some o =>
      if resp_bodyUsed o then (Throw TypeError, h)
      else (resp_json o, replace_nth r (mkResponse (resp_url o) (resp_json o) true) h)
  | None => (Throw TypeError, h)
  end.

(** How the promise returned by a [fetch] settles: with a response, given
    by the state of that object at that moment, or with an error. *)
Inductive settled : Type :=
| Fulfilled (r : response)
| Rejected (e : error).

(** An [XMLHttpRequest] at its [load] event: whatever the wrapped [open]
    recorded ([undefined] when it recorded nothing) and the outcome of
    [JSON.parse(this.responseText)]. *)
Record xhr : Type := mkXhr {
  _url : value;
  xhr_json : result value
}.

Module Pattern.

Definition bulk_path : string := "/internal/user-projects/bulk-remaining-tasks".

(** The texts of the two separators that, with the line feed and the
    carriage return, the dot of a regular expression does not match:
    U+2028 and U+2029. *)
Definition line_separator : string :=
  String (ascii_of_nat 226) (String (ascii_of_nat 128)
    (String (ascii_of_nat 168) EmptyString)).

Definition paragraph_separator : string :=
  String (ascii_of_nat 226) (String (ascii_of_nat 128)
    (String (ascii_of_nat 169) EmptyString)).

(** A run the dot can match: no line terminator in it. *)
Fixpoint no_line_terminator (s : string) : bool :=
  match s with
  | EmptyString => true
  | String c rest =>
      negb (Ascii.eqb c (ascii_of_nat 10) || Ascii.eqb c (ascii_of_nat 13)
            || Str.starts_with line_separator s
            || Str.starts_with paragraph_separator s)
      && no_line_terminator rest
  end.

(** The tail shared by the two regular expressions (an optional group of
    a question mark and any run without line terminators, then the end of
    the input). *)
Definition query_to_end (s : string) : bool :=
  match s with
  | EmptyString => true
  | String c rest => Ascii.eqb c "?" && no_line_terminator rest
  end.

Definition user_path : string := "/internal/logged_in_user".

(** The regular expression for the current-user endpoint, tested on [s]:
    the literal path anywhere in [s], then the tail above. *)
Fixpoint logged_in_user (s : string) : bool :=
  (Str.starts_with user_path s
   && query_to_end (Str.drop (String.length user_path) s))
  || match s with
     | EmptyString => false
     | String _ s' => logged_in_user s'
     end.

Definition detail_prefix : string := "https://app.outlier.ai/projects/".

Definition in_segment (c : ascii) : bool :=
  negb (Ascii.eqb c "/" || Ascii.eqb c "?").

(** The regular expression for the project-detail endpoint, tested on
    [s]: the literal prefix at the start, not followed by the letters of
    history, a non-empty run of characters other than slash and question
    mark, then the tail above. *)
Definition project_detail (s : string) : bool :=
  Str.starts_with detail_prefix s
  && (let rest := Str.drop (String.length detail_prefix) s in
      negb (Str.starts_with "history" rest)
      && Str.nonempty (Str.take_while in_segment rest)
      && query_to_end (Str.drop_while in_segment rest)).

End Pattern.

Section Script.

(** The host's prototype table (see [Js.get]). *)
Variable inherits : proto -> string -> bool.

(** [data.find(item => item.projectId === currentProjectId)] *)
Fixpoint find_project (pid : string) (items : list value) : result value :=
  match items with
  | [] => Ok VUndefined
  | item :: rest =>
      match get inherits item "projectId" with
      | Throw e => Throw e
      | Ok v => if strict_eq_string v pid then Ok item else find_project pid rest
      end
  end.

(** The record-matching rule shared by the three places that read a
    bulk-remaining-tasks body. *)
Definition match_record (pid : string) (items : list value) : M unit :=
  projectData <- lift (find_project pid items) ;;
  if truthy projectData then
    count <- lift (get inherits projectData "count") ;;
    if negb (is_undefined count) then
      modify (set_remainingTaskCount count) ;;
      updateTextbox
    else ret tt
  else ret tt.

(** The identifier when [if (currentProjectId)] lets it through. *)
Definition current_project : M (option string) :=
  reads (fun s => match getProjectIdFromURL (href s) with
                  | Some p => if Str.nonempty p then Some p else None
                  | None => None
                  end).

(** Bulk remaining-tasks body, as both interceptors treat it. *)
Definition on_bulk (data : value) : M unit :=
  match data with
  | VArr items =>
      currentProjectId <- current_project ;;
      match currentProjectId with
      | Some pid => match_record pid items
      | None => ret tt
      end
  | _ => ret tt
  end.

(** The assignment
    [emptyQueueReason = reasons[id]["-1"] || reasons[id]["4"] || 'N/A']
    with its guard [if (reasons[id])], followed by the refresh. *)
Definition resolve_reason (reasons : value) (pid : string) : M unit :=
  entry <- lift (get inherits reasons pid) ;;
  (if truthy entry then
     first <- lift (get inherits entry "-1") ;;
     if truthy first then modify (set_emptyQueueReason first)
     else
       second <- lift (get inherits entry "4") ;;
       if truthy second then modify (set_emptyQueueReason second)
       else modify (set_emptyQueueReason (VStr "N/A"))
   else modify (set_emptyQueueReason (VStr "N/A"))) ;;
  updateTextbox.

(** Body of [/internal/logged_in_user]. *)
Definition on_user (data : value) : M unit :=
  if truthy data then
    event <- lift (get inherits data "lastEmptyQueueEvent") ;;
    if truthy event then
      reasons <- lift (get inherits event "emptyQueueReasons") ;;
      if truthy reasons then
        currentProjectId <- current_project ;;
        match currentProjectId with
        | Some pid => resolve_reason reasons pid
        | None => ret tt
        end
      else ret tt
    else ret tt
  else ret tt.

(** Body of [/projects/<id>]: the identifier is read first, then the
    second element of the array is inspected. *)
Definition on_detail (data : value) : M unit :=
  currentProjectId <- current_project ;;
  match currentProjectId, data with
  | Some pid, VArr (_ :: second :: _) =>
      event <- lift (get inherits second "lastEmptyQueueEvent") ;;
      if truthy event then
        reasons <- lift (get inherits event "emptyQueueReasons") ;;
        if truthy reasons then resolve_reason reasons pid else ret tt
      else ret tt
  | _, _ => ret tt
  end.

(** *** The wrapped [fetch] *)

(** [response.clone().json().then(handler).catch(e => console.error(label, e))]
    for the response at [r]; [clone] itself runs outside the promise
    chain.  The result is the objects as the call leaves them. *)
Definition inspect_copy (label : string) (handler : value -> M unit)
    (r : reference) (h : objects) : M objects :=
  match clone r h with
  | (Throw e, _) => lift (Throw e)
  | (Ok copy, h1) =>
      let (data, h2) := json copy h1 in
      try_catch (d <- lift data ;; handler d) (console_error label) ;;
      ret h2
  end.

(** The callback the wrapper chains on the original promise, applied to
    the response [r]: the objects it leaves, of which the first is the one
    it was given and returns. *)
Definition observe_response (r : response) : M objects :=
  let response := 0 in
  let h := [r] in
  let url := resp_url r in
  if Str.includes Pattern.bulk_path url then
    inspect_copy "Error parsing JSON from bulk-remaining-tasks fetch interception:"
                 on_bulk response h
  else if Pattern.logged_in_user url then
    inspect_copy "Error parsing JSON from logged_in_user fetch interception:"
                 on_user response h
  else if Pattern.project_detail url then
    inspect_copy "Error parsing JSON from /projects/<id> fetch interception:"
                 on_detail response h
  else ret h.

(** [window.fetch] after the script has replaced it: [original] is how
    the promise of [originalFetch.apply(this, arguments)] settles; the
    result is how the promise handed to the caller settles.  A rejection
    passes through [then] untouched; an exception inside the callback
    rejects; otherwise the caller receives the object the callback was
    given, in the state the callback left it. *)
Definition window_fetch (original : settled) : state -> settled * state :=
  fun s =>
    match original with
    | Rejected e => (Rejected e, s)
    | Fulfilled r =>
        match observe_response r s with
        | (Ok h, s') => (Fulfilled (nth 0 h r), s')
        | (Throw e, s') => (Rejected e, s')
        end
    end.

(** *** The wrapped [XMLHttpRequest] *)

(** [try { const data = JSON.parse(this.responseText); handler } catch (e) {...}] *)
Definition inspect_text (label : string) (handler : value -> M unit)
    (x : xhr) : M unit :=
  try_catch (data <- lift (xhr_json x) ;; handler data)
            (console_error label).

(** The [load] listener that the wrapped [send] registers.  The call of
    [includes] and the two tests of the regular expressions, which convert
    their argument to a string, stand outside the [try] blocks. *)
Definition on_load (x : xhr) : M unit :=
  if truthy (_url x) then
    bulk <- lift (Js.includes (_url x) Pattern.bulk_path) ;;
    if bulk then
      inspect_text "Error parsing JSON from bulk-remaining-tasks XHR interception:"
                   on_bulk x
    else
      text <- lift (to_string (_url x)) ;;
      if Pattern.logged_in_user text then
        inspect_text "Error parsing JSON from logged_in_user XHR interception:"
                     on_user x
      else if Pattern.project_detail text then
        inspect_text "Error parsing JSON from /projects/<id> XHR interception:"
                     on_detail x
      else ret tt
  else ret tt.

(* ===================================================================== *)
(** ** Poller and reconciler                                              *)
(* ===================================================================== *)

Definition bulk_url : string :=
  "https://app.outlier.ai/internal/user-projects/bulk-remaining-tasks".

(** [pollForMissingValues], up to the moment the request leaves.  The
    header is built before [fetch] is called, so an exception of
    [getCsrfToken] escapes and nothing is sent. *)
Definition pollForMissingValues : M unit :=
  page <- reads (fun s => isProjectPage (href s)) ;;
  if negb (truthy page) then ret tt
  else
    currentProjectId <- current_project ;;
    match currentProjectId with
    | None => ret tt
    | Some pid =>
        count <- reads remainingTaskCount ;;
        if is_null count then
          document_cookie <- reads cookie ;;
          token <- lift (getCsrfToken document_cookie) ;;
          modify (fun s =>
            set_inflight
              (inflight s ++ [mkPoll pid (mkRequest bulk_url "POST" token [pid])]) s)
        else ret tt
    end.

(** The continuation of that request:
    [.then(r => r.json()).then(data => ...).catch(e => console.error(...))],
    applied to how the promise of the (wrapped) [fetch] settled.  The
    identifier is the one captured when the request was sent. *)
Definition poll_settled (pid : string) (outcome : settled) : M unit :=
  try_catch
    (match outcome with
     | Rejected e => lift (Throw e)
     | Fulfilled r =>
         data <- lift (fst (json 0 [r])) ;;
         match data with
         | VArr items => match_record pid items
         | _ => ret tt
         end
     end)
    (console_error "Polling bulk-remaining-tasks error:").

(** The callback of [setInterval]. *)
Definition tick : M unit :=
  here <- reads href ;;
  last <- reads lastUrl ;;
  (if negb (String.eqb here last) then
     modify (set_lastUrl here) ;;
     if truthy (isProjectPage here) then
       modify (set_remainingTaskCount VNull) ;;
       modify (set_emptyQueueReason VNull) ;;
       updateTextbox
     else
       textbox <- reads (fun s => getElementById overlay_id (body s)) ;;
       match textbox with
       | Some _ =>
           modify (fun s => set_body (option_map (remove_first overlay_id) (body s)) s)
       | None => ret tt
       end
   else
     textbox <- reads (fun s => getElementById overlay_id (body s)) ;;
     if truthy (isProjectPage here)
        && (match textbox with None => true | Some _ => false end)
     then updateTextbox
     else ret tt) ;;
  count <- reads remainingTaskCount ;;
  if truthy (isProjectPage here) && is_null count
  then pollForMissingValues
  else ret tt.

(* ===================================================================== *)
(** ** The script as an event system                                      *)
(* ===================================================================== *)

(** What can happen to the page while the script is installed.  Dragging
    the textarea only moves it and is not an event here. *)
Inductive event : Type :=
| Navigate (u : string)                  (* the application changes the location *)
| SetCookie (c : string)                 (* document.cookie changes *)
| HostRender (els : list element) (keep : bool)
                                         (* the page (re)builds the body, keeping the
                                            textarea or dropping it *)
| Tick                                   (* the timer fires *)
| FetchSettled (o : settled)             (* a fetch of the page settles and the copy of
                                            its body has been read *)
| XhrLoad (x : xhr)                      (* a request of the page fires load *)
| PollSettled (i : nat) (o : settled).   (* the i-th fallback request in flight settles *)

Definition foreign (e : element) : bool := negb (has_id overlay_id e).

Definition overlays (b : option (list element)) : list element :=
  match b with
  | Some els => filter (has_id overlay_id) els
  | None => []
  end.

Fixpoint remove_nth {A} (i : nat) (l : list A) : list A :=
  match l, i with
  | [], _ => []
  | _ :: rest, O => rest
  | x :: rest, S i' => x :: remove_nth i' rest
  end.

(** One event.  An exception that leaves a handler is reported by the
    browser and the page goes on; the state is the one the handler left.
    The page itself never creates an element carrying the overlay's id. *)
Definition step (s : state) (ev : event) : state :=
  match ev with
  | Navigate u => set_href u s
  | SetCookie c => set_cookie c s
  | HostRender els keep =>
      set_body (Some (filter foreign els ++ (if keep then overlays (body s) else []))) s
  | Tick => snd (tick s)
  | FetchSettled o => snd (window_fetch o s)
  | XhrLoad x => snd (on_load x s)
  | PollSettled i o =>
      match nth_error (inflight s) i with
      | None => s
      | Some p =>
          let (o', s') := window_fetch o (set_inflight (remove_nth i (inflight s)) s) in
          snd (poll_settled (poll_projectId p) o' s')
      end
  end.

(** The state when the script has just been injected at [u]. *)
Definition initial (u c : string) : state :=
  mkState u c None VNull VNull u [] [].

Definition run (s : state) (evs : list event) : state := fold_left step evs s.

End Script.

(* ===================================================================== *)
(** ** The requests of the page, as objects                               *)
(* ===================================================================== *)

(** What the script adds to an [XMLHttpRequest]: the value recorded by
    the wrapped [open] ([undefined] before the first call) and the [load]
    listeners registered by the wrapped [send].  Each call of [send]
    creates a new function, so none of them replaces another. *)
Record request_object : Type := mkRequestObject {
  recorded_url : value;
  load_listeners : nat
}.

(** [XMLHttpRequest.prototype.open] after replacement, before it hands
    over to the original: the second argument is recorded as it is. *)
Definition XMLHttpRequest_open (method : string) (url : value) (x : request_object)
  : request_object :=
  mkRequestObject url (load_listeners x).

(** [XMLHttpRequest.prototype.send] after replacement, before it hands
    over to the original. *)
Definition XMLHttpRequest_send (x : request_object) : request_object :=
  mkRequestObject (recorded_url x) (S (load_listeners x)).

(** Listeners run one after the other; an exception in one of them does
    not keep the next from running. *)
Fixpoint each_listener (n : nat) (listener : M unit) : M unit :=
  match n with
  | O => ret tt
  | S n' => fun s => each_listener n' listener (snd (listener s))
  end.

Section Requests.

Variable inherits : proto -> string -> bool.

(** The [load] event of a request whose text decodes to [decoded]. *)
Definition fire_load (x : request_object) (decoded : result value) : M unit :=
  each_listener (load_listeners x)
    (on_load inherits (mkXhr (recorded_url x) decoded)).

End Requests.

(* ===================================================================== *)
(** ** Dragging the overlay                                               *)
(* ===================================================================== *)

(** The closure of [makeElementDraggable] and what it writes: the four
    coordinates, whether [elementDrag] and [closeDragElement] are
    registered on the document, and [element.style.left] and
    [element.style.top] in pixels. *)
Record drag : Type := mkDrag {
  pos1 : Z;
  pos2 : Z;
  pos3 : Z;
  pos4 : Z;
  tracking : bool;
  style_left : Z;
  style_top : Z
}.

(** A new overlay: [updateTextbox] places it at 10px, 10px and
    [makeElementDraggable] starts from zeros. *)
Definition new_drag : drag := mkDrag 0 0 0 0 false 10 10.

(** [dragMouseDown(e)]: registering a listener that is already registered
    changes nothing. *)
Definition dragMouseDown (clientX clientY : Z) (d : drag) : drag :=
  mkDrag (pos1 d) (pos2 d) clientX clientY true (style_left d) (style_top d).

(** [elementDrag(e)], with the element's [offsetLeft] and [offsetTop] as
    the browser reports them at that moment. *)
Definition elementDrag (clientX clientY offsetLeft offsetTop : Z) (d : drag)
  : drag :=
  let p1 := (pos3 d - clientX)%Z in
  let p2 := (pos4 d - clientY)%Z in
  mkDrag p1 p2 clientX clientY (tracking d)
         (offsetLeft - p1)%Z (offsetTop - p2)%Z.

(** [closeDragElement()]. *)
Definition closeDragElement (d : drag) : drag :=
  mkDrag (pos1 d) (pos2 d) (pos3 d) (pos4 d) false (style_left d) (style_top d).

(** What the pointer does: pressed on the overlay, moved or released
    anywhere in the document. *)
Inductive pointer : Type :=
| MouseDown (clientX clientY : Z)
| MouseMove (clientX clientY : Z)
| MouseUp.

Section Layout.

(** Layout is the browser's: for the fixed overlay, [offsetLeft] and
    [offsetTop] are the style's pixels plus the element's margins. *)
Variables margin_left margin_top : Z.

(** The document delivers [mousemove] and [mouseup] to the closure only
    while its listeners are registered. *)
Definition pointer_step (d : drag) (p : pointer) : drag :=
  match p with
  | MouseDown x y => dragMouseDown x y d
  | MouseMove x y =>
      if tracking d
      then elementDrag x y (style_left d + margin_left)%Z
                           (style_top d + margin_top)%Z d
      else d
  | MouseUp => if tracking d then closeDragElement d else d
  end.

Definition pointer_run (d : drag) (ps : list pointer) : drag :=
  fold_left pointer_step ps d.

End Layout.

(* ===================================================================== *)
(** ** Definitions on the side of the specification                       *)
(* ===================================================================== *)

(** A host for concrete runs: every prototype chain ends on
    [Object.prototype], whose property names are these. *)
Definition object_prototype_names : list string :=
  [ "constructor"; "hasOwnProperty"; "isPrototypeOf"; "propertyIsEnumerable";
    "toLocaleString"; "toString"; "valueOf"; "__proto__";
    "__defineGetter__"; "__defineSetter__"; "__lookupGetter__"; "__lookupSetter__" ].

Definition standard_host (p : proto) (k : string) : bool :=
  existsb (String.eqb k) object_prototype_names.

(** No built-in prototype defines a property called [-1] or [4]. *)
Definition no_numbered_builtin (inherits : proto -> string -> bool) : Prop :=
  forall p, inherits p "-1" = false /\ inherits p "4" = false.

Definition not_slash (c : ascii) : bool := negb (Ascii.eqb c "/").

(** A path segment: a string without a slash. *)
Definition segment (g : string) : Prop := Str.all not_slash g = true.

(** The two scalars of the State Store. *)
Definition store (s : state) : value * value :=
  (remainingTaskCount s, emptyQueueReason s).

(** How many elements of the page carry the overlay's id. *)
Definition overlay_count (s : state) : nat := List.length (overlays (body s)).

(** A response as the browser's own [fetch] delivers it: body unread. *)
Definition fresh (url : string) (decoded : result value) : response :=
  mkResponse url decoded false.

(** A URL one of the three branches of the interceptors recognises. *)
Definition recognised (url : string) : bool :=
  Str.includes Pattern.bulk_path url
  || Pattern.logged_in_user url
  || Pattern.project_detail url.

(** *** Resolution of the empty-queue reason, in the specification's words

    [emptyQueueReasons] maps project identifiers to maps from numeric-like
    keys to reason strings.  The reason for [pid] is the value at sub-key
    [-1] when that value is a non-empty string, otherwise the value at
    sub-key [4] when that is non-empty, otherwise the placeholder. *)
Definition reasons_map : Type := list (string * list (string * string)).

Fixpoint lookup {A} (k : string) (m : list (string * A)) : option A :=
  match m with
  | [] => None
  | (k', a) :: rest =>
      match lookup k rest with
      | Some b => Some b
      | None => if String.eqb k' k then Some a else None
      end
  end.

Definition usable (o : option string) : option string :=
  match o with
  | Some r => if Str.nonempty r then Some r else None
  | None => None
  end.

Definition reason_for (m : reasons_map) (pid : string) : string :=
  match lookup pid m with
  | None => "N/A"
  | Some sub =>
      match usable (lookup "-1" sub) with
      | Some r => r
      | None =>
          match usable (lookup "4" sub) with
          | Some r => r
          | None => "N/A"
          end
      end
  end.

(** The parsed form of such a map. *)
Definition json_of_sub (sub : list (string * string)) : value :=
  VObj (map (fun kv => (fst kv, VStr (snd kv))) sub).

Definition json_of_reasons (m : reasons_map) : value :=
  VObj (map (fun kv => (fst kv, json_of_sub (snd kv))) m).

(** A body that carries [lastEmptyQueueEvent.emptyQueueReasons = reasons]
    among whatever other fields it has. *)
Definition carries (data reasons : value) : Prop :=
  exists fields event_fields,
    data = VObj fields
    /\ own "lastEmptyQueueEvent" fields = Some (VObj event_fields)
    /\ own "emptyQueueReasons" event_fields = Some reasons.

(** *** The record-matching rule, in the specification's words

    The first record whose [projectId] is the identifier; its [count]
    when it has one. *)
Definition record : Type := list (string * value).

Definition is_for (pid : string) (r : record) : bool :=
  match own "projectId" r with
  | Some v => strict_eq_string v pid
  | None => false
  end.

Definition count_for (pid : string) (records : list record) : option value :=
  match find (is_for pid) records with
  | Some r =>
      match own "count" r with
      | Some c => if is_undefined c then None else Some c
      | None => None
      end
  | None => None
  end.

(** *** Cookie strings, in the specification's words

    [document.cookie] lists the cookies as entries [name=value] separated
    by a semicolon and a space. *)
Definition cookie_char (c : ascii) : bool :=
  negb (Ascii.eqb c ";" || Ascii.eqb c " ").

Definition cookie_entry (e : string) : Prop := Str.all cookie_char e = true.

(** The value of an entry named [_csrf], when it has a non-empty one. *)
Definition csrf_value (e : string) : option string :=
  if Str.starts_with "_csrf=" e then
    (if Str.nonempty (Str.drop 6 e) then Some (Str.drop 6 e) else None)
  else None.

Fixpoint first_csrf (entries : list string) : option string :=
  match entries with
  | [] => None
  | e :: rest =>
      match csrf_value e with
      | Some v => Some v
      | None => first_csrf rest
      end
  end.

(** *** Vocabulary of the proofs *)

(** [always R c]: whatever the outcome, the states before and after [c]
    are related by [R]. *)
Definition always {A} (R : state -> state -> Prop) (c : M A) : Prop :=
  forall s, R s (snd (c s)).

(** The elements of the document that are the page's own: all but the
    overlay. *)
Definition page (s : state) : option (list element) :=
  option_map (filter foreign) (body s).

(** The observation handlers and the renderer write the store, the
    overlay and the console only, and never add a second overlay. *)
Definition quiet (s s' : state) : Prop :=
  href s' = href s /\ cookie s' = cookie s /\ lastUrl s' = lastUrl s
  /\ inflight s' = inflight s
  /\ (overlay_count s <= 1 -> overlay_count s' <= 1)
  /\ page s' = page s.

(** The fallback only adds a request to those in flight. *)
Definition sends_only (s s' : state) : Prop :=
  href s' = href s /\ cookie s' = cookie s /\ lastUrl s' = lastUrl s
  /\ body s' = body s /\ store s' = store s /\ console s' = console s.

(** The page and the store as the first half of the tick leaves them:
    the location is recorded, then the overlay is reset, removed, created
    or left alone. *)
Definition reconciled (s : state) : state :=
  if negb (String.eqb (href s) (lastUrl s)) then
    if truthy (isProjectPage (href s)) then
      snd (updateTextbox
             (set_emptyQueueReason VNull
                (set_remainingTaskCount VNull (set_lastUrl (href s) s))))
    else
      match getElementById overlay_id (body s) with
      | Some _ =>
          set_body (option_map (remove_first overlay_id) (body s))
                   (set_lastUrl (href s) s)
      | None => set_lastUrl (href s) s
      end
  else
    match getElementById overlay_id (body s) with
    | None => if truthy (isProjectPage (href s)) then snd (updateTextbox s) else s
    | Some _ => s
    end.

(** The handler a URL is dispatched to, with the label of its error
    message: the branches of the two interceptors, in their order. *)
Definition branch (inherits : proto -> string -> bool) (kind url : string)
  : option (string * (value -> M unit)) :=
  if Str.includes Pattern.bulk_path url then
    Some (("Error parsing JSON from bulk-remaining-tasks " ++ kind ++ " interception:")%string,
          on_bulk inherits)
  else if Pattern.logged_in_user url then
    Some (("Error parsing JSON from logged_in_user " ++ kind ++ " interception:")%string,
          on_user inherits)
  else if Pattern.project_detail url then
    Some (("Error parsing JSON from /projects/<id> " ++ kind ++ " interception:")%string,
          on_detail inherits)
  else None.

(** What follows the first entry of a joined cookie string. *)
Fixpoint tail_of (entries : list string) : string :=
  match entries with
  | [] => EmptyString
  | e :: rest => String ";" (String " " (e ++ tail_of rest))
  end.

Definition ends_entry (tail : string) : Prop :=
  tail = EmptyString \/ exists t, tail = String ";" t.

Definition not_percent (c : ascii) : bool := negb (Ascii.eqb c "%").

(** Events that are neither a navigation nor a tick: responses that
    arrive, the page rebuilding its body, a cookie changing. *)
Definition arrival (ev : event) : bool :=
  match ev with
  | Navigate _ | Tick => false
  | _ => true
  end.

(** The session of the concrete runs at the end: the script is injected on project P1, the
    page builds its body, and the timer fires once. *)
Definition on_P1 : state :=
  run standard_host (initial "https://app.outlier.ai/projects/P1" "_csrf=t0k")
      [HostRender [mkElement "root" ""] true; Tick].

Definition user_response (reasons : value) : event :=
  FetchSettled
    (Fulfilled (fresh "https://app.outlier.ai/internal/logged_in_user"
                      (Ok (VObj [("lastEmptyQueueEvent",
                                  VObj [("emptyQueueReasons", reasons)])])))).

(** *** Vocabulary of the further properties *)

(** What a handler ends up doing, once it has looked at a body. *)
Inductive action : Type :=
| Skip
| Raise (e : error)
| SetCount (v : value)
| SetReason (v : value).

Definition perform (a : action) : M unit :=
  match a with
  | Skip => ret tt
  | Raise e => lift (Throw e)
  | SetCount v => bind (modify (set_remainingTaskCount v)) (fun _ => updateTextbox)
  | SetReason v => bind (modify (set_emptyQueueReason v)) (fun _ => updateTextbox)
  end.

(** The values the guards of the handlers let through. *)
Definition admissible (a : action) : Prop :=
  match a with
  | SetCount v => v <> VUndefined
  | SetReason v => truthy v = true
  | _ => True
  end.

Definition leaves_reason (a : action) : Prop :=
  match a with SetReason _ => False | _ => True end.

Definition leaves_count (a : action) : Prop :=
  match a with SetCount _ => False | _ => True end.

(** A value the template literal can convert. *)
Definition printable (v : value) : bool :=
  match shown v with
  | Ok _ => true
  | Throw _ => false
  end.

(** Every overlay on the page shows the current store, when the store
    can be shown at all. *)
Definition shows_store (s : state) : Prop :=
  forall text, textbox_text s = Ok text ->
               Forall (fun e => el_value e = text) (overlays (body s)).

(** The store holds what the guards let through. *)
Definition store_admissible (s : state) : Prop :=
  remainingTaskCount s <> VUndefined
  /\ (emptyQueueReason s = VNull \/ truthy (emptyQueueReason s) = true).

(** The page and the store, without the console and the requests. *)
Definition visible (s : state) : option (list element) * (value * value) :=
  (body s, store s).

(** The states an interceptor can leave from [s] once the body has
    parsed: nothing was logged, or one error was, under the label of the
    branch; in that case the page and the store are those of [s], unless
    it was the renderer that threw (there was no body to append to, or the
    store cannot be converted to a text). *)
Definition guarded (label : string) (s s' : state) : Prop :=
  console s' = console s
  \/ (exists e, console s' = console s ++ [(label, e)]
                /\ (visible s' = visible s
                    \/ body s = None
                    \/ textbox_text s' = Throw e)).

(** The parts of an address after ["https://"]. *)
Definition url_host (h : string) : Prop := Str.all Url.in_authority h = true.

Definition url_path (p : string) : Prop :=
  Str.all Url.in_path p = true /\ (p = EmptyString \/ exists r, p = String "/" r).

(** A query or a fragment, or nothing. *)
Definition url_suffix (t : string) : Prop :=
  t = EmptyString \/ exists c r, t = String c r /\ Url.in_path c = false.

(** The fallback request for project [p] with token [t]. *)
Definition fallback (p t : string) : poll :=
  mkPoll p (mkRequest bulk_url "POST" t [p]).

(** The identifier [current_project] reads off an address. *)
Definition project_at (h : string) : option string :=
  match getProjectIdFromURL h with
  | Some p => if Str.nonempty p then Some p else None
  | None => None
  end.

(** A handler whose effect at the address [h] is that of [a]. *)
Definition acts_as (h : string) (c : M unit) (a : action) : Prop :=
  forall s, href s = h -> c s = perform a s.

(** What every reachable state satisfies. *)
Definition sound (s : state) : Prop :=
  overlay_count s <= 1 /\ shows_store s /\ store_admissible s.

Definition not_hash (c : ascii) : bool := negb (Ascii.eqb c "#").

(** Pointer events other than a press on the overlay. *)
Definition elsewhere (p : pointer) : bool :=
  match p with
  | MouseDown _ _ => false
  | _ => true
  end.

Definition move_to (xy : Z * Z) : pointer := MouseMove (fst xy) (snd xy).

(** Where the pointer is after a path that started at [start]. *)
Definition last_point (start : Z * Z) (path : list (Z * Z)) : Z * Z :=
  last path start.

(* ===================================================================== *)
(** ** Paths and the page classifier                                      *)
(* ===================================================================== *)

Lemma split_segment (g : string) :
  segment g -> Str.split "/" g = [g].
Proof.
  unfold segment, not_slash.
  induction g as [|c g IH]; simpl; intros H; [reflexivity|].
  apply andb_true_iff in H as [Hc Hg].
  apply negb_true_iff in Hc. rewrite Hc, (IH Hg). reflexivity.
Qed.

Lemma split_segment_slash (g rest : string) :
  segment g ->
  Str.split "/" (g ++ String "/" rest)%string = g :: Str.split "/" rest.
Proof.
  unfold segment, not_slash.
  induction g as [|c g IH]; simpl; intros H; [reflexivity|].
  apply andb_true_iff in H as [Hc Hg].
  apply negb_true_iff in Hc. rewrite Hc, (IH Hg). reflexivity.
Qed.

(** Splitting undoes joining when no segment holds a slash. *)
Lemma split_join (g : string) (gs : list string) :
  Forall segment (g :: gs) ->
  Str.split "/" (Str.join "/" (g :: gs)) = g :: gs.
Proof.
  revert g. induction gs as [|h gs IH]; intros g H.
  - simpl. apply split_segment. now inversion H.
  - inversion H as [|? ? Hg Hrest]; subst.
    change (Str.join "/" (g :: h :: gs))
      with (g ++ String "/" (Str.join "/" (h :: gs)))%string.
    rewrite (split_segment_slash _ _ Hg), (IH h Hrest). reflexivity.
Qed.

(** The array [isProjectPage] looks at, for a path given by its segments. *)
Lemma parts_of_path (segs : list string) :
  Forall segment segs ->
  Str.split "/" (String "/" (Str.join "/" segs))
  = EmptyString :: match segs with [] => [EmptyString] | _ => segs end.
Proof.
  intros H. destruct segs as [|g gs].
  - reflexivity.
  - change (Str.split "/" (String "/" (Str.join "/" (g :: gs))))
      with (EmptyString :: Str.split "/" (Str.join "/" (g :: gs))).
    now rewrite split_join.
Qed.

Lemma nonempty_true (s : string) : Str.nonempty s = true <-> s <> EmptyString.
Proof. destruct s; simpl; split; intros; congruence. Qed.

Lemma nonempty_false (s : string) : Str.nonempty s = false <-> s = EmptyString.
Proof. destruct s; simpl; split; intros; congruence. Qed.

(** What the classifier computes, read off the array of parts. *)
Lemma isProjectPage_true (href : string) :
  isProjectPage href = VBool true <->
  exists id,
    nth_error (Str.split "/" (Url.pathname href)) 1 = Some "projects"
    /\ nth_error (Str.split "/" (Url.pathname href)) 2 = Some id
    /\ id <> EmptyString /\ id <> "history".
Proof.
  unfold isProjectPage, part.
  generalize (Str.split "/" (Url.pathname href)); intros parts.
  destruct (nth_error parts 1) as [p1|];
    destruct (nth_error parts 2) as [p2|];
    cbn [strict_eq_string truthy];
    try (split; [intros; discriminate | intros (id & H1 & H2 & _); discriminate]).
  - destruct (String.eqb_spec p1 "projects") as [->|Hp1].
    + destruct p2 as [|c p2]; cbn [Str.nonempty strict_eq_string].
      * split; [intros; discriminate | intros (id & _ & H & Hne & _); congruence].
      * destruct (String.eqb_spec (String c p2) "history") as [Hh|Hh]; cbn [negb].
        -- split; [intros; discriminate | intros (id & _ & H & _ & Hn); congruence].
        -- split; [|reflexivity]. intros _. exists (String c p2).
           repeat split; congruence.
    + split; [intros; discriminate | intros (id & H & _); congruence].
  - destruct (String.eqb p1 "projects");
      split; try (intros; discriminate); intros (id & _ & H & _); discriminate.
Qed.

(** The classifier answers a truthy value only as the boolean [true]. *)
Lemma isProjectPage_truthy (href : string) :
  truthy (isProjectPage href) = true <-> isProjectPage href = VBool true.
Proof.
  unfold isProjectPage.
  destruct (strict_eq_string _ "projects"); cbn [truthy];
    [|split; intros; discriminate].
  destruct (truthy (part _ 2)) eqn:E.
  - destruct (strict_eq_string _ "history"); cbn [truthy negb]; split; congruence.
  - rewrite E. split; [intros; discriminate|]. intros H; rewrite H in E. discriminate.
Qed.

(** [getProjectIdFromURL] answers exactly on project pages, with the part
    at index 2. *)
Lemma getProjectIdFromURL_some (href id : string) :
  getProjectIdFromURL href = Some id <->
  isProjectPage href = VBool true
  /\ nth_error (Str.split "/" (Url.pathname href)) 2 = Some id.
Proof.
  unfold getProjectIdFromURL.
  destruct (truthy (isProjectPage href)) eqn:T; cbn [negb].
  - apply isProjectPage_truthy in T. pose proof T as T'.
    apply isProjectPage_true in T' as (id' & _ & E2 & Hne & _).
    rewrite E2. apply nonempty_true in Hne. rewrite Hne.
    split; [intros [= ->]; auto | intros [_ [= ->]]; reflexivity].
  - split; [intros; discriminate|]. intros [H _].
    apply isProjectPage_truthy in H. congruence.
Qed.

Lemma getProjectIdFromURL_nonempty (href id : string) :
  getProjectIdFromURL href = Some id -> Str.nonempty id = true.
Proof.
  intros H. apply getProjectIdFromURL_some in H as [H E2].
  apply isProjectPage_true in H as (id' & _ & E2' & Hne & _).
  rewrite E2 in E2'. injection E2' as <-. now apply nonempty_true.
Qed.

Lemma getProjectIdFromURL_none (href : string) :
  getProjectIdFromURL href = None <-> truthy (isProjectPage href) = false.
Proof.
  split.
  - intros H. destruct (truthy (isProjectPage href)) eqn:T; [|reflexivity].
    apply isProjectPage_truthy in T. pose proof T as T'.
    apply isProjectPage_true in T' as (id & _ & E2 & _).
    assert (getProjectIdFromURL href = Some id)
      by (apply getProjectIdFromURL_some; auto).
    congruence.
  - intros H. unfold getProjectIdFromURL. now rewrite H.
Qed.

(** C8.  For a path made of the segments [segs], the page classifier
    returns [true] exactly when the first segment is the literal
    "projects", a second (non-empty) segment exists and that segment is not
    the literal "history"; the project identifier is then that second
    segment, verbatim. *)
Theorem classifier_rule (href : string) (segs : list string) :
  Url.pathname href = String "/" (Str.join "/" segs) ->
  Forall segment segs ->
  (isProjectPage href = VBool true <->
   exists id rest,
     segs = "projects" :: id :: rest /\ id <> EmptyString /\ id <> "history")
  /\ (forall id rest,
        segs = "projects" :: id :: rest -> id <> EmptyString -> id <> "history" ->
        getProjectIdFromURL href = Some id).
Proof.
  intros Hpath Hsegs.
  assert (Hparts := parts_of_path segs Hsegs). rewrite <- Hpath in Hparts.
  assert (Hiff : isProjectPage href = VBool true <->
                 exists id rest, segs = "projects" :: id :: rest
                                 /\ id <> EmptyString /\ id <> "history").
  { rewrite isProjectPage_true, Hparts. split.
    - intros (id & E1 & E2 & Hne & Hh).
      destruct segs as [|g [|g' rest]]; simpl in E1, E2.
      + discriminate.
      + discriminate.
      + injection E1 as ->. injection E2 as ->. eauto.
    - intros (id & rest & -> & Hne & Hh). exists id. simpl. auto. }
  split; [exact Hiff|].
  intros id rest -> Hne Hh. apply getProjectIdFromURL_some.
  split; [apply Hiff; eauto|]. rewrite Hparts. reflexivity.
Qed.

(** The rule of C8 on the path [/projects/6793e8cbf8009ede610736a7/tasks]. *)
Lemma classifier_rule_witness :
  let href := "https://app.outlier.ai/projects/6793e8cbf8009ede610736a7/tasks?pageLoadId=1" in
  isProjectPage href = VBool true
  /\ getProjectIdFromURL href = Some "6793e8cbf8009ede610736a7".
Proof.
  intros href.
  destruct (classifier_rule href ["projects"; "6793e8cbf8009ede610736a7"; "tasks"])
    as [Hiff Hid].
  - reflexivity.
  - repeat constructor.
  - split.
    + apply Hiff. exists "6793e8cbf8009ede610736a7", ["tasks"].
      repeat split; discriminate.
    + apply (Hid "6793e8cbf8009ede610736a7" ["tasks"]);
        [reflexivity | discriminate | discriminate].
Defined.

(* ===================================================================== *)
(** ** The overlay renderer                                               *)
(* ===================================================================== *)

Section Elements.

Variable id : string.

Lemma find_none_filter (els : list element) :
  find (has_id id) els = None <-> filter (has_id id) els = [].
Proof.
  induction els as [|e els IH]; simpl; [tauto|].
  destruct (has_id id e); [split; intros; discriminate | exact IH].
Qed.

Lemma filter_remove_first (els : list element) :
  List.length (filter (has_id id) (remove_first id els))
  = pred (List.length (filter (has_id id) els)).
Proof.
  induction els as [|e els IH]; simpl; [reflexivity|].
  destruct (has_id id e) eqn:E; simpl; [reflexivity|].
  now rewrite E.
Qed.

Lemma filter_set_first_value (text : string) (els : list element) :
  List.length (filter (has_id id) (set_first_value id text els))
  = List.length (filter (has_id id) els).
Proof.
  induction els as [|e els IH]; simpl; [reflexivity|].
  destruct (has_id id e) eqn:E; simpl.
  - unfold has_id in *. simpl. now rewrite E.
  - now rewrite E.
Qed.

Lemma find_set_first_value (text : string) (els : list element) (e : element) :
  find (has_id id) els = Some e ->
  find (has_id id) (set_first_value id text els) = Some (mkElement (el_id e) text).
Proof.
  induction els as [|x els IH]; simpl; [intros; discriminate|].
  destruct (has_id id x) eqn:E; simpl.
  - intros [= ->]. unfold has_id in *. simpl. now rewrite E.
  - now rewrite E.
Qed.

Lemma set_first_value_twice (text : string) (els : list element) :
  set_first_value id text (set_first_value id text els)
  = set_first_value id text els.
Proof.
  induction els as [|x els IH]; simpl; [reflexivity|].
  destruct (has_id id x) eqn:E; simpl.
  - unfold has_id in *. simpl. now rewrite E.
  - now rewrite E, IH.
Qed.

Lemma find_appended (old text : string) (els : list element) :
  find (has_id id) els = None ->
  find (has_id id) (els ++ [mkElement id old]) = Some (mkElement id old)
  /\ set_first_value id text (els ++ [mkElement id old])
     = els ++ [mkElement id text].
Proof.
  induction els as [|x els IH]; simpl.
  - intros _. unfold has_id. simpl. now rewrite String.eqb_refl.
  - destruct (has_id id x) eqn:E; [intros; discriminate|].
    intros H. destruct (IH H) as [-> ->]. auto.
Qed.

Lemma filter_appended (text : string) (els : list element) :
  filter (has_id id) (els ++ [mkElement id text])
  = filter (has_id id) els ++ [mkElement id text].
Proof.
  rewrite filter_app. simpl. unfold has_id at 2. simpl.
  now rewrite String.eqb_refl.
Qed.

End Elements.

Lemma foreign_remove_first (els : list element) :
  filter foreign (remove_first overlay_id els) = filter foreign els.
Proof.
  induction els as [|e els IH]; simpl; [reflexivity|].
  unfold foreign at 2. destruct (has_id overlay_id e) eqn:E; simpl; [reflexivity|].
  unfold foreign at 1. rewrite E. simpl. now rewrite IH.
Qed.

Lemma foreign_set_first_value (text : string) (els : list element) :
  filter foreign (set_first_value overlay_id text els) = filter foreign els.
Proof.
  induction els as [|e els IH]; simpl; [reflexivity|].
  unfold foreign at 2. destruct (has_id overlay_id e) eqn:E; simpl.
  - unfold foreign, has_id in *. simpl. now rewrite E.
  - unfold foreign at 1. rewrite E. simpl. now rewrite IH.
Qed.

Lemma getElementById_none (b : option (list element)) :
  getElementById overlay_id b = None <-> overlays b = [].
Proof.
  destruct b as [els|]; simpl; [apply find_none_filter | tauto].
Qed.

(** The text of the overlay depends on the store alone. *)
Lemma textbox_text_set_body (b : option (list element)) (s : state) :
  textbox_text (set_body b s) = textbox_text s.
Proof. reflexivity. Qed.

Lemma write_text_cases (s : state) :
  (exists text, textbox_text s = Ok text
                /\ write_text s
                   = (Ok tt, set_body (option_map (set_first_value overlay_id text)
                                                  (body s)) s))
  \/ (exists e, textbox_text s = Throw e /\ write_text s = (Throw e, s)).
Proof.
  unfold write_text. destruct (textbox_text s) as [text|e]; [left | right]; eauto.
Qed.

Arguments textbox_text : simpl never.
Arguments write_text : simpl never.

(** The renderer writes the body and nothing else. *)
Lemma updateTextbox_writes_body (s : state) :
  exists b, snd (updateTextbox s) = set_body b s.
Proof.
  assert (W : forall s0, exists b, snd (write_text s0) = set_body b s0).
  { intros s0. destruct (write_text_cases s0) as [(t & _ & ->) | (e & _ & ->)];
      cbn [snd]; eauto.
    exists (body s0). now destruct s0. }
  unfold updateTextbox.
  destruct (negb (truthy (isProjectPage (href s))));
    destruct (getElementById overlay_id (body s)); cbn [snd]; eauto.
  - exists (body s). now destruct s.
  - destruct (body s) as [els|] eqn:E; cbn [snd].
    + match goal with |- context [write_text ?x] => destruct (W x) as [b ->] end.
      exists b. reflexivity.
    + exists None. destruct s; simpl in *; now subst.
Qed.

(** With a body to append to and a store that can be shown, the renderer
    does not throw. *)
Lemma updateTextbox_ok (s : state) (text : string) :
  body s <> None -> textbox_text s = Ok text -> fst (updateTextbox s) = Ok tt.
Proof.
  unfold updateTextbox, write_text. intros Hb Ht.
  destruct (negb (truthy (isProjectPage (href s))));
    destruct (getElementById overlay_id (body s)); cbn [fst]; try reflexivity.
  - now rewrite Ht.
  - destruct (body s); [|congruence].
    rewrite textbox_text_set_body, Ht. reflexivity.
Qed.

(** What the renderer leaves on the page, whether or not it throws. *)
Lemma updateTextbox_count (s : state) :
  overlay_count s <= 1 ->
  overlay_count (snd (updateTextbox s)) <= 1
  /\ (truthy (isProjectPage (href s)) = false ->
      overlay_count (snd (updateTextbox s)) = 0)
  /\ (truthy (isProjectPage (href s)) = true -> body s <> None ->
      overlay_count (snd (updateTextbox s)) = 1).
Proof.
  assert (W : forall s0, overlay_count (snd (write_text s0)) = overlay_count s0).
  { intros s0. unfold overlay_count.
    destruct (write_text_cases s0) as [(t & _ & ->) | (e & _ & ->)];
      cbn [snd]; [|reflexivity].
    destruct (body s0) as [els|]; cbn; [|reflexivity].
    apply filter_set_first_value. }
  unfold updateTextbox. intros Hle.
  destruct (truthy (isProjectPage (href s))) eqn:T; cbn [negb];
    destruct (getElementById overlay_id (body s)) as [e|] eqn:G.
  - (* refresh *)
    rewrite W. unfold overlay_count in *.
    destruct (body s) as [els|] eqn:B; [|discriminate].
    assert (filter (has_id overlay_id) els <> [])
      by (intros F; apply find_none_filter in F; simpl in G; congruence).
    cbn in *. destruct (filter (has_id overlay_id) els); [congruence|].
    simpl in *. repeat split; intros; try lia; discriminate.
  - (* create *)
    destruct (body s) as [els|] eqn:B.
    + rewrite W. unfold overlay_count. cbn.
      rewrite filter_appended, length_app.
      apply find_none_filter in G. rewrite G. cbn.
      repeat split; intros; try lia; discriminate.
    + cbn [snd]. unfold overlay_count. rewrite B. cbn.
      repeat split; intros; try lia; try discriminate. congruence.
  - (* remove *)
    unfold overlay_count in *.
    destruct (body s) as [els|] eqn:B; [|discriminate].
    cbn. rewrite filter_remove_first. cbn in Hle.
    repeat split; intros; try lia; discriminate.
  - (* nothing to remove *)
    apply getElementById_none in G. cbn [snd]. unfold overlay_count. rewrite G. cbn.
    repeat split; intros; try lia; discriminate.
Qed.

(** With the overlay present at most once, a second call right after the
    first returns the same outcome and leaves the same page. *)
Lemma updateTextbox_twice (s : state) :
  overlay_count s <= 1 ->
  updateTextbox (snd (updateTextbox s)) = updateTextbox s
  /\ overlay_count (snd (updateTextbox s)) <= 1.
Proof.
  intros Hle. split; [|now apply updateTextbox_count].
  unfold updateTextbox, overlay_count in *.
  destruct (truthy (isProjectPage (href s))) eqn:T; cbn [negb];
    destruct (getElementById overlay_id (body s)) as [e|] eqn:G.
  - destruct (body s) as [els|] eqn:B; [|discriminate]. cbn in G.
    destruct (write_text_cases s) as [(t & Ht & W) | (x & Ht & W)];
      rewrite W; cbn [snd href body set_body getElementById option_map];
      rewrite ?B, T; cbn [negb option_map getElementById].
    + rewrite (find_set_first_value _ _ _ _ G).
      unfold write_text. rewrite textbox_text_set_body, Ht.
      cbn [body set_body option_map]. rewrite set_first_value_twice.
      reflexivity.
    + rewrite G. exact W.
  - destruct (body s) as [els|] eqn:B.
    + cbn in G.
      set (s0 := set_body (Some (els ++ [mkElement overlay_id EmptyString])) s).
      destruct (find_appended overlay_id EmptyString EmptyString els G) as [F _].
      destruct (write_text_cases s0) as [(t & Ht & W) | (x & Ht & W)];
        rewrite W; cbn [snd href body set_body getElementById option_map s0];
        rewrite T; cbn [negb].
      * destruct (find_appended overlay_id EmptyString t els G) as [_ S1].
        destruct (find_appended overlay_id t t els G) as [F2 S2].
        rewrite S1, F2.
        unfold write_text. rewrite !textbox_text_set_body, Ht.
        cbn [body set_body option_map]. rewrite S2. reflexivity.
      * rewrite F. exact W.
    + cbn [snd]. rewrite T. cbn [negb]. rewrite B. reflexivity.
  - destruct (body s) as [els|] eqn:B; [|discriminate].
    cbn [snd option_map href body set_body getElementById].
    rewrite T. cbn [negb].
    assert (F : find (has_id overlay_id) (remove_first overlay_id els) = None).
    { apply find_none_filter. apply length_zero_iff_nil.
      rewrite filter_remove_first. cbn in Hle. lia. }
    rewrite F. reflexivity.
  - cbn [snd]. rewrite T. cbn [negb]. now rewrite G.
Qed.

Lemma updateTextbox_console (s : state) :
  console (snd (updateTextbox s)) = console s.
Proof. destruct (updateTextbox_writes_body s) as [b ->]. reflexivity. Qed.

Lemma textbox_text_store (s s' : state) :
  store s = store s' -> textbox_text s = textbox_text s'.
Proof.
  unfold store, textbox_text. intros [= -> ->]. reflexivity.
Qed.

(** What the renderer has done when it throws: nothing could be
    appended, or the text could not be computed. *)
Lemma updateTextbox_throws (s s1 : state) (e : error) :
  updateTextbox s = (Throw e, s1) ->
  body s = None \/ textbox_text s = Throw e.
Proof.
  unfold updateTextbox.
  destruct (negb (truthy (isProjectPage (href s))));
    destruct (getElementById overlay_id (body s)); try discriminate.
  - destruct (write_text_cases s) as [(t & _ & ->) | (x & Ht & ->)];
      [discriminate|].
    intros [= <- _]. now right.
  - destruct (body s) as [els|]; [|now left].
    match goal with |- context [write_text ?x] =>
      destruct (write_text_cases x) as [(t & _ & ->) | (x0 & Ht & ->)] end;
      [discriminate|].
    intros [= <- _]. right. exact Ht.
Qed.

(** The text exists when both values can be converted. *)
Lemma textbox_text_printable (s : state) :
  printable (remainingTaskCount s) = true ->
  printable (emptyQueueReason s) = true ->
  exists text, textbox_text s = Ok text.
Proof.
  unfold printable, textbox_text.
  destruct (shown (remainingTaskCount s)); [|discriminate].
  destruct (shown (emptyQueueReason s)); [|discriminate]. eauto.
Qed.

(** The renderer leaves the elements of the page as they are. *)
Lemma updateTextbox_page (s : state) : page (snd (updateTextbox s)) = page s.
Proof.
  assert (W : forall s0, page (snd (write_text s0)) = page s0).
  { intros s0. unfold page.
    destruct (write_text_cases s0) as [(t & _ & ->) | (e & _ & ->)];
      cbn [snd]; [|reflexivity].
    destruct (body s0) as [els|]; cbn; [|reflexivity].
    now rewrite foreign_set_first_value. }
  unfold updateTextbox.
  destruct (negb (truthy (isProjectPage (href s))));
    destruct (getElementById overlay_id (body s)); cbn [snd]; try reflexivity.
  - unfold page. destruct (body s) as [els|]; cbn; [|reflexivity].
    now rewrite foreign_remove_first.
  - apply W.
  - destruct (body s) as [els|] eqn:B; cbn [snd]; [|reflexivity].
    rewrite W. unfold page. rewrite B. cbn.
    rewrite filter_app. cbn. now rewrite app_nil_r.
Qed.

(* ===================================================================== *)
(** ** What handlers leave alone                                          *)
(* ===================================================================== *)

Section Frames.

Variable R : state -> state -> Prop.
Hypothesis R_refl : forall s, R s s.
Hypothesis R_trans : forall s1 s2 s3, R s1 s2 -> R s2 s3 -> R s1 s3.

Lemma always_ret {A} (a : A) : always R (ret a).
Proof. intros s. apply R_refl. Qed.

Lemma always_lift {A} (r : result A) : always R (lift r).
Proof. intros s. apply R_refl. Qed.

Lemma always_reads {A} (f : state -> A) : always R (reads f).
Proof. intros s. apply R_refl. Qed.

Lemma always_modify (f : state -> state) :
  (forall s, R s (f s)) -> always R (modify f).
Proof. intros H s. apply H. Qed.

Lemma always_bind {A B} (c : M A) (k : A -> M B) :
  always R c -> (forall a, always R (k a)) -> always R (bind c k).
Proof.
  intros Hc Hk s. unfold bind. specialize (Hc s).
  destruct (c s) as [[a|e] s']; simpl in *; [|exact Hc].
  eapply R_trans; [exact Hc | apply Hk].
Qed.

Lemma always_try_catch {A} (c : M A) (h : error -> M A) :
  always R c -> (forall e, always R (h e)) -> always R (try_catch c h).
Proof.
  intros Hc Hh s. unfold try_catch. specialize (Hc s).
  destruct (c s) as [[a|e] s']; simpl in *; [exact Hc|].
  eapply R_trans; [exact Hc | apply Hh].
Qed.

End Frames.

Lemma quiet_refl (s : state) : quiet s s.
Proof. unfold quiet. repeat split; auto. Qed.

Lemma quiet_trans (s1 s2 s3 : state) : quiet s1 s2 -> quiet s2 s3 -> quiet s1 s3.
Proof. unfold quiet. intuition congruence. Qed.

Lemma quiet_updateTextbox : always quiet updateTextbox.
Proof.
  intros s. destruct (updateTextbox_writes_body s) as [b Hb].
  unfold quiet. rewrite Hb at 1 2 3 4. cbn.
  repeat split; [|apply updateTextbox_page]. intros H. now apply updateTextbox_count.
Qed.

Create HintDb quiet.

Ltac frame R_refl R_trans :=
  repeat first
    [ apply (always_ret _ R_refl)
    | apply (always_lift _ R_refl)
    | apply (always_reads _ R_refl)
    | apply (always_try_catch _ R_trans)
    | apply (always_bind _ R_trans)
    | match goal with
      | |- forall _, _ => intro
      | |- always _ (if ?b then _ else _) => destruct b
      | |- always _ (match ?x with _ => _ end) => destruct x
      end ].

Section Quiet.

Variable inherits : proto -> string -> bool.

Lemma quiet_console_error (label : string) (e : error) :
  always quiet (console_error label e).
Proof. apply always_modify. intros s. unfold quiet. cbn. repeat split; auto. Qed.

Lemma quiet_set_remainingTaskCount (v : value) :
  always quiet (modify (set_remainingTaskCount v)).
Proof. apply always_modify. intros s. unfold quiet. cbn. repeat split; auto. Qed.

Lemma quiet_set_emptyQueueReason (v : value) :
  always quiet (modify (set_emptyQueueReason v)).
Proof. apply always_modify. intros s. unfold quiet. cbn. repeat split; auto. Qed.

Hint Resolve quiet_updateTextbox quiet_console_error
  quiet_set_remainingTaskCount quiet_set_emptyQueueReason : quiet.

Ltac quiet_tac := frame quiet_refl quiet_trans; auto with quiet.

Lemma quiet_match_record (pid : string) (items : list value) :
  always quiet (match_record inherits pid items).
Proof. unfold match_record. quiet_tac. Qed.

Lemma quiet_resolve_reason (reasons : value) (pid : string) :
  always quiet (resolve_reason inherits reasons pid).
Proof. unfold resolve_reason. quiet_tac. Qed.

Hint Resolve quiet_match_record quiet_resolve_reason : quiet.

Lemma quiet_on_bulk (data : value) : always quiet (on_bulk inherits data).
Proof. unfold on_bulk, current_project. quiet_tac. Qed.

Lemma quiet_on_user (data : value) : always quiet (on_user inherits data).
Proof. unfold on_user, current_project. quiet_tac. Qed.

Lemma quiet_on_detail (data : value) : always quiet (on_detail inherits data).
Proof. unfold on_detail, current_project. quiet_tac. Qed.

Hint Resolve quiet_on_bulk quiet_on_user quiet_on_detail : quiet.

Lemma quiet_observe_response (r : response) :
  always quiet (observe_response inherits r).
Proof. unfold observe_response, inspect_copy. quiet_tac. Qed.

Lemma quiet_window_fetch (o : settled) (s : state) :
  quiet s (snd (window_fetch inherits o s)).
Proof.
  unfold window_fetch. destruct o as [r|e]; [|apply quiet_refl].
  pose proof (quiet_observe_response r s) as H.
  destruct (observe_response inherits r s) as [[r'|e] s']; exact H.
Qed.

Lemma quiet_on_load (x : xhr) : always quiet (on_load inherits x).
Proof. unfold on_load, inspect_text. quiet_tac. Qed.

Lemma quiet_poll_settled (pid : string) (o : settled) :
  always quiet (poll_settled inherits pid o).
Proof. unfold poll_settled. quiet_tac. Qed.

End Quiet.

(* ===================================================================== *)
(** ** The reconciliation tick                                            *)
(* ===================================================================== *)

Lemma sends_only_refl (s : state) : sends_only s s.
Proof. unfold sends_only. repeat split. Qed.

Lemma sends_only_trans (s1 s2 s3 : state) :
  sends_only s1 s2 -> sends_only s2 s3 -> sends_only s1 s3.
Proof. unfold sends_only. intuition congruence. Qed.

Lemma pollForMissingValues_sends_only :
  always sends_only pollForMissingValues.
Proof.
  unfold pollForMissingValues, current_project.
  frame sends_only_refl sends_only_trans.
Qed.

(** While the page is not a project page nothing is sent. *)
Lemma pollForMissingValues_elsewhere (s : state) :
  truthy (isProjectPage (href s)) = false ->
  pollForMissingValues s = (Ok tt, s).
Proof.
  intros H. unfold pollForMissingValues, bind, reads. now rewrite H.
Qed.

Arguments pollForMissingValues : simpl never.
Arguments updateTextbox : simpl never.
Arguments isProjectPage : simpl never.
Arguments getProjectIdFromURL : simpl never.

(** The tick records the location it saw. *)
Lemma tick_records_location (s : state) :
  href (snd (tick s)) = href s /\ lastUrl (snd (tick s)) = href s
  /\ cookie (snd (tick s)) = cookie s.
Proof.
  unfold tick, bind, reads, modify, ret.
  destruct (String.eqb_spec (href s) (lastUrl s)) as [E|E]; cbn [negb].
  - destruct (truthy (isProjectPage (href s))) eqn:T;
      destruct (getElementById overlay_id (body s)) eqn:G; cbn [andb].
    + destruct (is_null (remainingTaskCount s)).
      * destruct (pollForMissingValues_sends_only s) as (H1 & H2 & H3 & _).
        rewrite H1, H2, H3. auto.
      * cbn. auto.
    + pose proof (quiet_updateTextbox s) as (Q1 & Q2 & Q3 & _).
      destruct (updateTextbox s) as [[[]|e] s1]; cbn in *; [|intuition congruence].
      destruct (is_null (remainingTaskCount s1)); cbn; [|intuition congruence].
      destruct (pollForMissingValues_sends_only s1) as (H1 & H2 & H3 & _).
      rewrite H1, H2, H3. intuition congruence.
    + cbn. auto.
    + cbn. auto.
  - destruct (truthy (isProjectPage (href s))) eqn:T.
    + match goal with |- context [updateTextbox ?x] => set (s0 := x) end.
      pose proof (quiet_updateTextbox s0) as (Q1 & Q2 & Q3 & _).
      destruct (updateTextbox s0) as [[[]|e] s1]; cbn in *; [|auto].
      destruct (is_null (remainingTaskCount s1)); cbn; [|auto].
      destruct (pollForMissingValues_sends_only s1) as (H1 & H2 & H3 & _).
      rewrite H1, H2, H3. auto.
    + cbn. destruct (getElementById overlay_id (body s)); cbn; auto.
Qed.

(** The second half of the tick, the fallback, only sends. *)
Lemma tick_reconciles (s : state) : sends_only (reconciled s) (snd (tick s)).
Proof.
  unfold tick, reconciled, bind, reads, modify, ret.
  cbn [body set_lastUrl].
  destruct (negb (String.eqb (href s) (lastUrl s))).
  - destruct (truthy (isProjectPage (href s))) eqn:T; cbn [andb].
    + match goal with |- context [updateTextbox ?x] => generalize x; intros s0 end.
      destruct (updateTextbox s0) as [[[]|e] s1]; cbn [snd];
        [|apply sends_only_refl].
      destruct (is_null (remainingTaskCount s1));
        [apply pollForMissingValues_sends_only | apply sends_only_refl].
    + cbn [body set_lastUrl].
      destruct (getElementById overlay_id (body s)); apply sends_only_refl.
  - destruct (getElementById overlay_id (body s)) eqn:G;
      destruct (truthy (isProjectPage (href s))) eqn:T; cbn [andb];
      try apply sends_only_refl.
    + destruct (is_null (remainingTaskCount s));
        [apply pollForMissingValues_sends_only | apply sends_only_refl].
    + destruct (updateTextbox s) as [[[]|e] s1]; cbn [snd];
        [|apply sends_only_refl].
      destruct (is_null (remainingTaskCount s1));
        [apply pollForMissingValues_sends_only | apply sends_only_refl].
Qed.

Lemma updateTextbox_store (s : state) : store (snd (updateTextbox s)) = store s.
Proof. destruct (updateTextbox_writes_body s) as [b ->]. reflexivity. Qed.

(** When the location holds a project identifier that differs from the
    one of the location recorded by the previous tick (another project, or
    none), the tick leaves both scalars at [null]. *)
Lemma tick_resets_store (s : state) (p : string) :
  getProjectIdFromURL (href s) = Some p ->
  getProjectIdFromURL (lastUrl s) <> Some p ->
  remainingTaskCount (snd (tick s)) = VNull
  /\ emptyQueueReason (snd (tick s)) = VNull.
Proof.
  intros Hnow Hlast.
  destruct (tick_reconciles s) as (_ & _ & _ & _ & Hstore & _).
  assert (Hgoal : store (snd (tick s)) = (VNull, VNull)).
  { rewrite Hstore. unfold reconciled.
    destruct (String.eqb_spec (href s) (lastUrl s)) as [E|E]; cbn [negb].
    - rewrite E in Hnow. contradiction.
    - apply getProjectIdFromURL_some in Hnow as [Hpage _].
      rewrite Hpage. cbn [truthy]. now rewrite updateTextbox_store. }
  unfold store in Hgoal. now injection Hgoal.
Qed.

(** What the tick leaves on the page. *)
Lemma tick_overlay (s : state) :
  overlay_count s <= 1 ->
  overlay_count (snd (tick s)) <= 1
  /\ (truthy (isProjectPage (href s)) = false ->
      href s <> lastUrl s \/ overlay_count s = 0 ->
      overlay_count (snd (tick s)) = 0)
  /\ (truthy (isProjectPage (href s)) = true -> body s <> None ->
      overlay_count (snd (tick s)) = 1).
Proof.
  intros Hle.
  destruct (tick_reconciles s) as (_ & _ & _ & Hbody & _).
  unfold overlay_count in *. rewrite Hbody. clear Hbody.
  unfold reconciled.
  destruct (String.eqb_spec (href s) (lastUrl s)) as [E|E]; cbn [negb].
  - destruct (getElementById overlay_id (body s)) as [e|] eqn:G.
    + assert (overlays (body s) <> [])
        by (intros F; apply getElementById_none in F; congruence).
      destruct (overlays (body s)); [congruence|]. cbn in *.
      repeat split; intros; try lia. intuition (try congruence; try lia).
    + apply getElementById_none in G.
      destruct (truthy (isProjectPage (href s))) eqn:T.
      * destruct (updateTextbox_count s) as (H1 & _ & H3);
          [unfold overlay_count; rewrite G; cbn; lia|].
        unfold overlay_count in *. repeat split; intros; auto; discriminate.
      * rewrite G. cbn. repeat split; intros; auto; discriminate.
  - destruct (truthy (isProjectPage (href s))) eqn:T.
    + match goal with |- context [updateTextbox ?x] => set (s0 := x) end.
      destruct (updateTextbox_count s0) as (H1 & _ & H3); [exact Hle|].
      unfold overlay_count in *. repeat split; intros; auto; discriminate.
    + destruct (getElementById overlay_id (body s)) as [e|] eqn:G.
      * destruct (body s) as [els|]; [|discriminate]. cbn in *.
        rewrite filter_remove_first.
        repeat split; intros; try lia; discriminate.
      * apply getElementById_none in G. cbn. rewrite G. cbn.
        repeat split; intros; auto; discriminate.
Qed.

(* ===================================================================== *)
(** ** Reachable states                                                   *)
(* ===================================================================== *)

Lemma filter_foreign (els : list element) :
  filter (has_id overlay_id) (filter foreign els) = [].
Proof.
  induction els as [|e els IH]; simpl; [reflexivity|].
  unfold foreign at 1. destruct (has_id overlay_id e) eqn:E; simpl; [exact IH|].
  now rewrite E.
Qed.

Lemma filter_overlays (b : option (list element)) :
  filter (has_id overlay_id) (overlays b) = overlays b.
Proof.
  destruct b as [els|]; simpl; [|reflexivity].
  induction els as [|e els IH]; simpl; [reflexivity|].
  destruct (has_id overlay_id e) eqn:E; simpl; [|exact IH].
  now rewrite E, IH.
Qed.

Section Reachable.

Variable inherits : proto -> string -> bool.

(** No event duplicates the overlay. *)
Lemma step_overlay_count (s : state) (ev : event) :
  overlay_count s <= 1 -> overlay_count (step inherits s ev) <= 1.
Proof.
  intros Hle. destruct ev as [u|c|els keep| |o|x|i o]; cbn [step].
  - exact Hle.
  - exact Hle.
  - unfold overlay_count in *. cbn.
    rewrite filter_app, filter_foreign. cbn.
    destruct keep; [now rewrite filter_overlays | cbn; lia].
  - now apply tick_overlay.
  - now apply (quiet_window_fetch inherits o s).
  - now apply (quiet_on_load inherits x s).
  - destruct (nth_error (inflight s) i) as [p|]; [|exact Hle].
    match goal with |- context [window_fetch inherits o ?x] => set (s0 := x) end.
    pose proof (quiet_window_fetch inherits o s0) as Q.
    destruct (window_fetch inherits o s0) as [o' s1]. cbn [snd] in *.
    apply (quiet_poll_settled inherits (poll_projectId p) o' s1).
    now apply Q.
Qed.

Lemma run_overlay_count (evs : list event) (s : state) :
  overlay_count s <= 1 -> overlay_count (run inherits s evs) <= 1.
Proof.
  revert s. induction evs as [|ev evs IH]; intros s H; [exact H|].
  cbn. apply IH. now apply step_overlay_count.
Qed.

Lemma reachable_overlay_count (u c : string) (evs : list event) :
  overlay_count (run inherits (initial u c) evs) <= 1.
Proof. apply run_overlay_count. cbn. lia. Qed.

(** C9.  The renderer is idempotent.  On every page the script can have
    reached, for every value of the State Store and every location:
    calling [updateTextbox] a second time right after the first returns
    the same outcome and leaves the same page as the first call did, so
    there is no duplicate overlay element and the displayed text is the
    same. *)
Theorem updateTextbox_idempotent
    (u c : string) (evs : list event) (here : string) (count reason : value) :
  let s := set_href here
             (set_remainingTaskCount count
                (set_emptyQueueReason reason (run inherits (initial u c) evs))) in
  updateTextbox (snd (updateTextbox s)) = updateTextbox s
  /\ overlay_count (snd (updateTextbox s)) <= 1.
Proof.
  intros s. apply updateTextbox_twice.
  exact (reachable_overlay_count u c evs).
Qed.

(** The part of the overlay invariant the tick does ensure.  In every
    state the script can reach, after a reconciliation tick: on a path
    that is not a project path no overlay element exists, provided the
    tick saw the location change or no overlay existed before it; on a
    project path exactly one overlay element exists, provided the document
    has a body. *)
Theorem overlay_after_tick (u c : string) (evs : list event) :
  let s := run inherits (initial u c) evs in
  let s' := step inherits s Tick in
  (truthy (isProjectPage (href s')) = false ->
   href s <> lastUrl s \/ overlay_count s = 0 ->
   overlay_count s' = 0)
  /\ (truthy (isProjectPage (href s')) = true ->
      body s <> None ->
      overlay_count s' = 1).
Proof.
  intros s s'. subst s'. cbn [step].
  destruct (tick_records_location s) as (Hhref & _).
  rewrite Hhref.
  destruct (tick_overlay s (reachable_overlay_count u c evs)) as (_ & H0 & H1).
  split; assumption.
Qed.

End Reachable.

Section Navigation.

Variable inherits : proto -> string -> bool.

(** Arrivals leave the location and the recorded location alone. *)
Lemma step_arrival (s : state) (ev : event) :
  arrival ev = true ->
  href (step inherits s ev) = href s /\ lastUrl (step inherits s ev) = lastUrl s.
Proof.
  destruct ev as [u|c|els keep| |o|x|i o]; cbn [arrival step]; intros H;
    try discriminate; try (split; reflexivity).
  - destruct (quiet_window_fetch inherits o s) as (H1 & _ & H3 & _). auto.
  - destruct (quiet_on_load inherits x s) as (H1 & _ & H3 & _). auto.
  - destruct (nth_error (inflight s) i) as [p|]; [|auto].
    match goal with |- context [window_fetch inherits o ?x] => set (s0 := x) end.
    destruct (quiet_window_fetch inherits o s0) as (H1 & _ & H3 & _).
    destruct (window_fetch inherits o s0) as [o' s1]. cbn [snd] in *.
    destruct (quiet_poll_settled inherits (poll_projectId p) o' s1) as (K1 & _ & K3 & _).
    subst s0. cbn in *. split; congruence.
Qed.

Lemma run_arrivals (evs : list event) (s : state) :
  forallb arrival evs = true ->
  href (run inherits s evs) = href s /\ lastUrl (run inherits s evs) = lastUrl s.
Proof.
  revert s. induction evs as [|ev evs IH]; intros s H; [auto|].
  cbn in H. apply andb_true_iff in H as [Hev Hevs].
  cbn [run fold_left]. destruct (IH (step inherits s ev) Hevs) as [H1 H2].
  destruct (step_arrival s ev Hev) as [K1 K2].
  unfold run in *. split; congruence.
Qed.

(** What the reset does ensure.  When the application navigates to a
    location whose project identifier [p] differs from the one of the
    location the previous tick recorded (another project, or none), the
    next reconciliation tick leaves both Remaining Task Count and Empty
    Queue Reason at [null], whatever they held and whatever responses
    arrived between the navigation and the tick. *)
Theorem tick_after_navigation
    (s : state) (u p : string) (arrivals : list event) :
  getProjectIdFromURL u = Some p ->
  getProjectIdFromURL (lastUrl s) <> Some p ->
  forallb arrival arrivals = true ->
  let s' := step inherits (run inherits (step inherits s (Navigate u)) arrivals) Tick in
  remainingTaskCount s' = VNull /\ emptyQueueReason s' = VNull.
Proof.
  intros Hu Hlast Harr s'. subst s'. cbn [step].
  destruct (run_arrivals arrivals (set_href u s) Harr) as [H1 H2].
  apply (tick_resets_store _ p).
  - now rewrite H1.
  - now rewrite H2.
Qed.

End Navigation.

(** C3 at two inputs where the script breaks it.  The reset compares
    the location with the one the previous tick recorded, every 500 ms.
    A visit to project P1 that starts and ends between two ticks on
    project P2 is never seen: the count and the reason that arrived for P1
    stay in the store and in the overlay on the page of P2.  And the reset
    does not come before the new data: a reason that arrives for P2 after
    the navigation and before the tick is erased by that tick. *)
Lemma reset_is_missed_or_late :
  let P1 := "https://app.outlier.ai/projects/P1" in
  let P2 := "https://app.outlier.ai/projects/P2" in
  let count_of p n :=
    FetchSettled (Fulfilled (fresh bulk_url
      (Ok (VArr [VObj [("projectId", VStr p); ("count", VNum (int n))]])))) in
  let reason_of p r := user_response (VObj [(p, VObj [("4", VStr r)])]) in
  let s := run standard_host (initial P2 EmptyString)
             [HostRender [] true; Tick;
              Navigate P1; count_of "P1" 5%Z; reason_of "P1" "A";
              Navigate P2; Tick] in
  let t0 := run standard_host (initial P1 EmptyString)
              [HostRender [] true; Tick; Navigate P2; reason_of "P2" "B"] in
  let t := step standard_host t0 Tick in
  (getProjectIdFromURL (href s) = Some "P2"
   /\ store s = (VNum (int 5), VStr "A")
   /\ overlays (body s)
      = [mkElement overlay_id ("Remaining Tasks: 5" ++ newline ++ "EQ Reason: A")])
  /\ (getProjectIdFromURL (href t0) = Some "P2"
      /\ emptyQueueReason t0 = VStr "B"
      /\ emptyQueueReason t = VNull).
Proof. vm_compute. repeat split. Qed.

(** A visit to project P1 from the home page, once the body exists. *)
Lemma overlay_after_tick_witness :
  let evs := [HostRender [mkElement "root" ""] true;
              Navigate "https://app.outlier.ai/projects/P1"] in
  let s := run standard_host (initial "https://app.outlier.ai/home" "") evs in
  body s <> None /\ overlay_count (step standard_host s Tick) = 1.
Proof.
  intros evs s.
  assert (Hb : body s <> None) by (vm_compute; intros H; discriminate H).
  split; [exact Hb|].
  apply (overlay_after_tick standard_host "https://app.outlier.ai/home" "" evs);
    [reflexivity | exact Hb].
Defined.

(** C4 at two inputs where the script breaks it.  An overlay created by
    an observed response while the user was briefly on a project page
    survives a tick that sees the location it had already recorded: one
    overlay element on a path that is not a project path.  And on a
    project page a tick that fires while the document has no body yet
    throws in [appendChild] and leaves no overlay at all. *)
Lemma overlay_invariant_fails :
  let home := "https://app.outlier.ai/home" in
  let project := "https://app.outlier.ai/projects/P1" in
  let user := fresh "https://app.outlier.ai/internal/logged_in_user"
                (Ok (VObj [("lastEmptyQueueEvent",
                            VObj [("emptyQueueReasons", VObj [])])])) in
  let s := run standard_host (initial home "")
             [HostRender [] true;
              Tick;
              Navigate project;
              FetchSettled (Fulfilled user);
              Navigate home;
              Tick] in
  let t := run standard_host (initial project "") [Tick] in
  (truthy (isProjectPage (href s)) = false /\ overlay_count s = 1)
  /\ (truthy (isProjectPage (href t)) = true /\ overlay_count t = 0).
Proof. vm_compute. repeat split. Qed.

(* ===================================================================== *)
(** ** The interceptors, step by step                                     *)
(* ===================================================================== *)

Arguments current_project : simpl never.
Arguments console_error : simpl never.

Lemma includes_nonempty (t s : string) :
  Str.nonempty t = true -> Str.includes t s = true -> Str.nonempty s = true.
Proof.
  destruct s; [|reflexivity]. destruct t; simpl; intros; discriminate.
Qed.

Lemma current_project_some (s : state) (p : string) :
  getProjectIdFromURL (href s) = Some p -> current_project s = (Ok (Some p), s).
Proof.
  intros H. unfold current_project, reads. rewrite H.
  now rewrite (getProjectIdFromURL_nonempty _ _ H).
Qed.

Lemma current_project_none (s : state) :
  truthy (isProjectPage (href s)) = false -> current_project s = (Ok None, s).
Proof.
  intros H. apply getProjectIdFromURL_none in H.
  unfold current_project, reads. now rewrite H.
Qed.

(** Catching and logging turns every outcome into a normal one and
    leaves the store as the guarded computation left it. *)
Lemma logged (label : string) (c : M unit) (s : state) :
  fst (try_catch c (console_error label) s) = Ok tt
  /\ store (snd (try_catch c (console_error label) s)) = store (snd (c s))
  /\ body (snd (try_catch c (console_error label) s)) = body (snd (c s))
  /\ console (snd (try_catch c (console_error label) s))
     = match fst (c s) with
       | Ok _ => console (snd (c s))
       | Throw e => console (snd (c s)) ++ [(label, e)]
       end.
Proof.
  unfold try_catch. destruct (c s) as [[[]|e] s1]; cbn; auto.
Qed.

Ltac store_of_logged :=
  match goal with
  | |- context [try_catch ?c (console_error ?l) ?s] =>
      let H := fresh "H" in
      destruct (logged l c s) as (_ & H & _); rewrite H; clear H
  end.

Section Interceptors.

Variable inherits : proto -> string -> bool.

Lemma branch_recognised (kind url : string) :
  recognised url = true <-> branch inherits kind url <> None.
Proof.
  unfold recognised, branch.
  destruct (Str.includes Pattern.bulk_path url); cbn; [split; congruence|].
  destruct (Pattern.logged_in_user url); cbn; [split; congruence|].
  destruct (Pattern.project_detail url); cbn; split; congruence.
Qed.

(** Reading the copy of an unread response: of the two objects the call
    leaves, the response itself is unread and its copy is used. *)
Lemma inspect_copy_fresh (label : string) (handler : value -> M unit)
    (url : string) (decoded : result value) :
  inspect_copy label handler 0 [fresh url decoded]
  = bind (try_catch (bind (lift decoded) handler) (console_error label))
         (fun _ => ret [fresh url decoded; mkResponse url decoded true]).
Proof. reflexivity. Qed.

Lemma then_return {A} (label : string) (c : M unit) (a : A) (s : state) :
  bind (try_catch c (console_error label)) (fun _ => ret a) s
  = (Ok a, snd (try_catch c (console_error label) s)).
Proof.
  unfold bind. pose proof (logged label c s) as [H _].
  destruct (try_catch c (console_error label) s) as [[[]|e] s1];
    cbn in H |- *; [reflexivity | discriminate].
Qed.

(** The callback of the wrapped [fetch] on an unread response. *)
Lemma observe_response_fresh (url : string) (decoded : result value) (s : state) :
  observe_response inherits (fresh url decoded) s
  = match branch inherits "fetch" url with
    | Some (label, handler) =>
        (Ok [fresh url decoded; mkResponse url decoded true],
         snd (try_catch (bind (lift decoded) handler) (console_error label) s))
    | None => (Ok [fresh url decoded], s)
    end.
Proof.
  unfold observe_response, branch.
  change (resp_url (fresh url decoded)) with url.
  destruct (Str.includes Pattern.bulk_path url);
    [|destruct (Pattern.logged_in_user url);
      [|destruct (Pattern.project_detail url)]];
    try reflexivity;
    now rewrite inspect_copy_fresh, then_return.
Qed.

(** The wrapped [fetch] on an unread response. *)
Lemma window_fetch_fresh (url : string) (decoded : result value) (s : state) :
  window_fetch inherits (Fulfilled (fresh url decoded)) s
  = (Fulfilled (fresh url decoded),
     match branch inherits "fetch" url with
     | Some (label, handler) =>
         snd (try_catch (bind (lift decoded) handler) (console_error label) s)
     | None => s
     end).
Proof.
  unfold window_fetch. rewrite observe_response_fresh.
  destruct (branch inherits "fetch" url) as [[label handler]|]; reflexivity.
Qed.

(** The wrapped [fetch] on a response whose body was read before: [clone]
    throws before anything is inspected. *)
Lemma window_fetch_used (url : string) (decoded : result value) (s : state) :
  snd (window_fetch inherits (Fulfilled (mkResponse url decoded true)) s) = s.
Proof.
  unfold window_fetch, observe_response, inspect_copy. cbn.
  destruct (Str.includes Pattern.bulk_path url); [reflexivity|].
  destruct (Pattern.logged_in_user url); [reflexivity|].
  destruct (Pattern.project_detail url); reflexivity.
Qed.

(** The [load] listener of a request opened with a string. *)
Lemma on_load_branch (url : string) (decoded : result value) (s : state) :
  on_load inherits (mkXhr (VStr url) decoded) s
  = match branch inherits "XHR" url with
    | Some (label, handler) =>
        try_catch (bind (lift decoded) handler) (console_error label) s
    | None => (Ok tt, s)
    end.
Proof.
  unfold on_load, branch, bind, lift.
  cbn [_url xhr_json truthy Js.includes to_string].
  destruct (Str.nonempty url) eqn:N.
  - destruct (Str.includes Pattern.bulk_path url);
      [|destruct (Pattern.logged_in_user url);
        [|destruct (Pattern.project_detail url)]];
      reflexivity.
  - apply nonempty_false in N. rewrite N. reflexivity.
Qed.

(** The [load] listener, whatever was recorded: it stops at once, with or
    without an exception, or it is the guarded handler of one of the
    three branches. *)
Lemma on_load_cases (x : xhr) :
  (exists r, forall s, on_load inherits x s = (r, s))
  \/ (exists url label handler,
        branch inherits "XHR" url = Some (label, handler)
        /\ forall s, on_load inherits x s
                     = try_catch (bind (lift (xhr_json x)) handler)
                                 (console_error label) s).
Proof.
  unfold on_load, bind, lift.
  destruct (truthy (_url x)); [|left; eexists; reflexivity].
  destruct (Js.includes (_url x) Pattern.bulk_path) as [[|]|e]; [| |left; eexists; reflexivity].
  - right. exists Pattern.bulk_path. do 2 eexists. split; [reflexivity|].
    reflexivity.
  - destruct (to_string (_url x)) as [text|e]; [|left; eexists; reflexivity].
    destruct (Pattern.logged_in_user text).
    + right. exists Pattern.user_path. do 2 eexists. split; [reflexivity|].
      reflexivity.
    + destruct (Pattern.project_detail text); [|left; eexists; reflexivity].
      right. exists (Pattern.detail_prefix ++ "x")%string. do 2 eexists.
      split; [reflexivity|]. reflexivity.
Qed.

End Interceptors.

(* ===================================================================== *)
(** ** The record-matching rule                                           *)
(* ===================================================================== *)

Section Records.

Variable inherits : proto -> string -> bool.

Lemma strict_eq_inherited (p : proto) (k pid : string) :
  strict_eq_string (inherited inherits p k) pid = false.
Proof. unfold inherited. now destruct (inherits p k). Qed.

(** On an array of records [find] returns the first record for [pid]. *)
Lemma find_project_records (pid : string) (records : list record) :
  find_project inherits pid (map VObj records)
  = Ok (match find (is_for pid) records with
        | Some r => VObj r
        | None => VUndefined
        end).
Proof.
  induction records as [|r records IH]; cbn [map find_project find]; [reflexivity|].
  unfold get, is_for.
  destruct (own "projectId" r) as [v|].
  - destruct (strict_eq_string v pid); [reflexivity | exact IH].
  - rewrite strict_eq_inherited. exact IH.
Qed.

(** The rule shared by the interceptors and the fallback's continuation. *)
Lemma match_record_count (pid : string) (records : list record) (s : state) :
  inherits ObjectProto "count" = false ->
  store (snd (match_record inherits pid (map VObj records) s))
  = (match count_for pid records with
     | Some c => c
     | None => remainingTaskCount s
     end, emptyQueueReason s).
Proof.
  intros Hcount. unfold match_record, bind, lift, count_for.
  rewrite find_project_records.
  destruct (find (is_for pid) records) as [r|]; cbn [truthy]; [|reflexivity].
  unfold get. destruct (own "count" r) as [c|].
  - destruct (is_undefined c); cbn [negb]; [reflexivity|].
    unfold modify. now rewrite updateTextbox_store.
  - unfold inherited. rewrite Hcount. reflexivity.
Qed.

(** X17.  What the record-matching rule does ensure.  For a bulk
    remaining-tasks body that is a sequence of records, observed through
    [fetch] or through [XMLHttpRequest] while the location holds the
    project identifier [p]: Remaining Task Count becomes the [count] of
    the first record whose [projectId] is [p] when there is such a record
    and its [count] is defined, and keeps its value otherwise; the other
    records and Empty Queue Reason play no part.  The continuation of a
    fallback request applies the same rule with the identifier [q] it
    captured when the request was sent, wherever the page is by then. *)
Theorem bulk_record_rule
    (s : state) (p q url : string) (records : list record) :
  inherits ObjectProto "count" = false ->
  getProjectIdFromURL (href s) = Some p ->
  Str.includes Pattern.bulk_path url = true ->
  let data := Ok (VArr (map VObj records)) in
  let rule pid :=
    (match count_for pid records with
     | Some c => c
     | None => remainingTaskCount s
     end, emptyQueueReason s) in
  store (snd (window_fetch inherits (Fulfilled (fresh url data)) s)) = rule p
  /\ store (snd (on_load inherits (mkXhr (VStr url) data) s)) = rule p
  /\ store (snd (poll_settled inherits q (Fulfilled (fresh url data)) s)) = rule q.
Proof.
  intros Hcount Hid Hurl data rule.
  assert (Hbulk : on_bulk inherits (VArr (map VObj records)) s
                  = match_record inherits p (map VObj records) s).
  { unfold on_bulk, bind. now rewrite (current_project_some s p Hid). }
  repeat split.
  - rewrite window_fetch_fresh. unfold branch. rewrite Hurl. cbn [snd].
    store_of_logged.
    change (bind (lift data) (on_bulk inherits) s)
      with (on_bulk inherits (VArr (map VObj records)) s).
    rewrite Hbulk. exact (match_record_count p records s Hcount).
  - rewrite on_load_branch. unfold branch. rewrite Hurl.
    store_of_logged.
    change (bind (lift data) (on_bulk inherits) s)
      with (on_bulk inherits (VArr (map VObj records)) s).
    rewrite Hbulk. exact (match_record_count p records s Hcount).
  - unfold poll_settled.
    store_of_logged. exact (match_record_count q records s Hcount).
Qed.

End Records.

(** The rule on the body [{projectId: P1, count: 5}, {projectId: P2,
    count: 9}] while the current project is P1: the count becomes 5. *)
Lemma bulk_record_rule_witness :
  let s := mkState "https://app.outlier.ai/projects/P1" "" (Some [])
                   VNull VNull "https://app.outlier.ai/projects/P1" [] [] in
  let records := [[("projectId", VStr "P1"); ("count", VNum (int 5))];
                  [("projectId", VStr "P2"); ("count", VNum (int 9))]] in
  let data := Ok (VArr (map VObj records)) in
  store (snd (window_fetch standard_host (Fulfilled (fresh bulk_url data)) s))
  = (VNum (int 5), VNull)
  /\ store (snd (on_load standard_host (mkXhr (VStr bulk_url) data) s))
     = (VNum (int 5), VNull)
  /\ store (snd (poll_settled standard_host "P2" (Fulfilled (fresh bulk_url data)) s))
     = (VNum (int 9), VNull).
Proof.
  intros s records data.
  apply (bulk_record_rule standard_host s "P1" "P2" bulk_url records);
    reflexivity.
Defined.

(** C2 at an input where the script breaks it.  The fallback request sent
    on project P1 is still in flight when the user moves to project P2,
    where the next tick sends the request for P2.  The answer for P2 sets
    the count to 9.  When the answer for P1 arrives, the interceptor, which
    reads the location, finds no record for P2 and does nothing; but the
    continuation of the request matches on the identifier it captured and
    stores the count of the record of P1: a record for another project
    than the current one changes Remaining Task Count, and the overlay of
    P2 shows 5 from then on. *)
Lemma fallback_stores_count_of_other_project :
  let P1 := "https://app.outlier.ai/projects/P1" in
  let P2 := "https://app.outlier.ai/projects/P2" in
  let records p n := [[("projectId", VStr p); ("count", VNum (int n))]] in
  let answer p n := Fulfilled (fresh bulk_url (Ok (VArr (map VObj (records p n))))) in
  let s := run standard_host (initial P1 "_csrf=t0k")
             [HostRender [] true; Tick; Navigate P2; Tick] in
  let s1 := step standard_host s (PollSettled 1 (answer "P2" 9%Z)) in
  let s2 := step standard_host s1 (PollSettled 0 (answer "P1" 5%Z)) in
  map poll_projectId (inflight s) = ["P1"; "P2"]
  /\ getProjectIdFromURL (href s2) = Some "P2"
  /\ remainingTaskCount s1 = VNum (int 9)
  /\ count_for "P2" (records "P1" 5%Z) = None
  /\ remainingTaskCount s2 = VNum (int 5)
  /\ overlays (body s2)
     = [mkElement overlay_id ("Remaining Tasks: 5" ++ newline ++ "EQ Reason: N/A")].
Proof. vm_compute. repeat split. Qed.

(* ===================================================================== *)
(** ** The empty-queue reason                                             *)
(* ===================================================================== *)

Lemma own_map {A} (f : A -> value) (k : string) (m : list (string * A)) :
  own k (map (fun kv => (fst kv, f (snd kv))) m) = option_map f (lookup k m).
Proof.
  induction m as [|[k' a] m IH]; cbn [map own lookup fst snd]; [reflexivity|].
  rewrite IH. destruct (lookup k m); cbn [option_map]; [reflexivity|].
  now destruct (String.eqb k' k).
Qed.

Section Reasons.

Variable inherits : proto -> string -> bool.
Hypothesis no_numbered : no_numbered_builtin inherits.

Lemma inherited_numbered (p : proto) :
  inherited inherits p "-1" = VUndefined /\ inherited inherits p "4" = VUndefined.
Proof.
  unfold inherited. destruct (no_numbered p) as [-> ->]. auto.
Qed.

(** Reading a sub-key of an entry of the map. *)
Lemma get_sub (sub : list (string * string)) (k : string) :
  inherited inherits ObjectProto k = VUndefined ->
  get inherits (json_of_sub sub) k
  = Ok (match lookup k sub with Some r => VStr r | None => VUndefined end).
Proof.
  intros H. unfold get, json_of_sub. rewrite (own_map VStr).
  destruct (lookup k sub); cbn [option_map]; [reflexivity | now rewrite H].
Qed.

(** The assignment computes the reason the specification describes. *)
Lemma resolve_reason_spec (m : reasons_map) (pid : string) (s : state) :
  store (snd (resolve_reason inherits (json_of_reasons m) pid s))
  = (remainingTaskCount s, VStr (reason_for m pid)).
Proof.
  destruct (inherited_numbered ObjectProto) as [O1 O4].
  destruct (inherited_numbered FunctionProto) as [F1 F4].
  unfold resolve_reason, reason_for, bind, lift, modify.
  unfold get at 1. unfold json_of_reasons. rewrite (own_map json_of_sub).
  destruct (lookup pid m) as [sub|]; cbn [option_map].
  - cbn [truthy json_of_sub].
    fold (json_of_sub sub). rewrite (get_sub sub "-1" O1), (get_sub sub "4" O4).
    unfold usable.
    destruct (lookup "-1" sub) as [r1|]; cbn [truthy].
    + destruct (Str.nonempty r1); [now rewrite updateTextbox_store|].
      destruct (lookup "4" sub) as [r4|]; cbn [truthy].
      * destruct (Str.nonempty r4); now rewrite updateTextbox_store.
      * now rewrite updateTextbox_store.
    + destruct (lookup "4" sub) as [r4|]; cbn [truthy].
      * destruct (Str.nonempty r4); now rewrite updateTextbox_store.
      * now rewrite updateTextbox_store.
  - assert (E : inherited inherits ObjectProto pid = VBuiltin
                \/ inherited inherits ObjectProto pid = VUndefined)
      by (unfold inherited; destruct (inherits ObjectProto pid); auto).
    destruct E as [-> | ->]; cbn [truthy].
    + cbn [get]. rewrite F1, F4. cbn [truthy]. now rewrite updateTextbox_store.
    + now rewrite updateTextbox_store.
Qed.

Lemma on_user_spec (data : value) (m : reasons_map) (p : string) (s : state) :
  carries data (json_of_reasons m) ->
  getProjectIdFromURL (href s) = Some p ->
  store (snd (on_user inherits data s))
  = (remainingTaskCount s, VStr (reason_for m p)).
Proof.
  intros (fields & event_fields & -> & Hevent & Hreasons) Hid.
  unfold on_user, bind, lift. cbn [truthy get].
  rewrite Hevent. cbn [truthy get]. rewrite Hreasons. cbn [truthy json_of_reasons].
  rewrite (current_project_some s p Hid).
  apply resolve_reason_spec.
Qed.

Lemma on_detail_spec (first data : value) (rest : list value)
    (m : reasons_map) (p : string) (s : state) :
  carries data (json_of_reasons m) ->
  getProjectIdFromURL (href s) = Some p ->
  store (snd (on_detail inherits (VArr (first :: data :: rest)) s))
  = (remainingTaskCount s, VStr (reason_for m p)).
Proof.
  intros (fields & event_fields & -> & Hevent & Hreasons) Hid.
  unfold on_detail, bind, lift. rewrite (current_project_some s p Hid).
  cbn [truthy get]. rewrite Hevent. cbn [truthy get]. rewrite Hreasons.
  cbn [truthy json_of_reasons].
  apply resolve_reason_spec.
Qed.

(** C1, as the script implements it.  While the location holds the
    project identifier [p], for a body of the current-user endpoint that
    carries [lastEmptyQueueEvent.emptyQueueReasons], and for a
    project-detail body whose element 1 carries it, observed through
    [fetch] or [XMLHttpRequest]: Empty Queue Reason becomes the value at
    sub-key "-1" of the entry of [p] when that value is a non-empty
    string, otherwise the value at sub-key "4" when that is non-empty,
    otherwise the placeholder "N/A"; it becomes "N/A" as well when [p] is
    not a key of the map. Remaining Task Count keeps its value. *)
Theorem reason_from_response
    (s : state) (p url : string) (m : reasons_map)
    (data first : value) (rest : list value) :
  carries data (json_of_reasons m) ->
  getProjectIdFromURL (href s) = Some p ->
  Str.includes Pattern.bulk_path url = false ->
  let expected := (remainingTaskCount s, VStr (reason_for m p)) in
  (Pattern.logged_in_user url = true ->
   store (snd (window_fetch inherits (Fulfilled (fresh url (Ok data))) s)) = expected
   /\ store (snd (on_load inherits (mkXhr (VStr url) (Ok data)) s)) = expected)
  /\ (Pattern.logged_in_user url = false ->
      Pattern.project_detail url = true ->
      let body := Ok (VArr (first :: data :: rest)) in
      store (snd (window_fetch inherits (Fulfilled (fresh url body)) s)) = expected
      /\ store (snd (on_load inherits (mkXhr (VStr url) body) s)) = expected).
Proof.
  intros Hdata Hid Hbulk expected. split.
  - intros Huser.
    rewrite window_fetch_fresh, on_load_branch. unfold branch.
    cbn [_url xhr_json snd]. rewrite Hbulk, Huser.
    split; store_of_logged; apply (on_user_spec data m p s Hdata Hid).
  - intros Huser Hdetail body.
    rewrite window_fetch_fresh, on_load_branch. unfold branch.
    cbn [_url xhr_json snd]. rewrite Hbulk, Huser, Hdetail.
    split; store_of_logged; apply (on_detail_spec first data rest m p s Hdata Hid).
Qed.

End Reasons.

Lemma standard_host_unnumbered : no_numbered_builtin standard_host.
Proof. intros p. split; reflexivity. Qed.

(** C1 on the map [{P1: {-1: A, 4: B}}]: the reason is A. *)
Lemma reason_from_response_witness :
  let s := mkState "https://app.outlier.ai/projects/P1" "" (Some [])
                   VNull VNull "https://app.outlier.ai/projects/P1" [] [] in
  let m := [("P1", [("-1", "A"); ("4", "B")])] in
  let data := VObj [("id", VStr "u1");
                    ("lastEmptyQueueEvent",
                     VObj [("emptyQueueReasons", json_of_reasons m)])] in
  store (snd (window_fetch standard_host
                (Fulfilled (fresh "https://app.outlier.ai/internal/logged_in_user"
                                  (Ok data))) s))
  = (VNull, VStr "A").
Proof.
  intros s m data.
  refine (proj1 (proj1 (reason_from_response standard_host standard_host_unnumbered
                          s "P1" "https://app.outlier.ai/internal/logged_in_user"
                          m data VNull [] _ _ _) _)).
  - exists [("id", VStr "u1");
            ("lastEmptyQueueEvent", VObj [("emptyQueueReasons", json_of_reasons m)])],
           [("emptyQueueReasons", json_of_reasons m)].
    repeat split.
  - reflexivity.
  - reflexivity.
  - reflexivity.
Defined.

(** The claim C1 fails as stated: with [{P1: {-1: "", 4: B}}] the sub-key
    "-1" is present, yet the stored reason is the value at sub-key "4",
    not the (empty) value at "-1". *)
Lemma present_but_empty_reason_is_skipped :
  let s := mkState "https://app.outlier.ai/projects/P1" "" (Some [])
                   VNull VNull "https://app.outlier.ai/projects/P1" [] [] in
  let sub := [("-1", VStr ""); ("4", VStr "B")] in
  let data := VObj [("lastEmptyQueueEvent",
                     VObj [("emptyQueueReasons", VObj [("P1", VObj sub)])])] in
  let s' := snd (window_fetch standard_host
                   (Fulfilled (fresh "https://app.outlier.ai/internal/logged_in_user"
                                     (Ok data))) s) in
  own "-1" sub = Some (VStr "")
  /\ emptyQueueReason s' = VStr "B"
  /\ emptyQueueReason s' <> VStr "".
Proof. vm_compute. repeat split. intros H. discriminate H. Qed.

(* ===================================================================== *)
(** ** Pages that are not project pages                                   *)
(* ===================================================================== *)

Section Elsewhere.

Variable inherits : proto -> string -> bool.

(** Without a current identifier the three handlers leave the whole
    state as it is, and [on_user] either completes or throws at once. *)
Lemma handlers_elsewhere_none (s : state) (data : value) :
  current_project s = (Ok None, s) ->
  snd (on_bulk inherits data s) = s
  /\ ((fst (on_user inherits data s) = Ok tt
       /\ console (snd (on_user inherits data s)) = console s)
      \/ exists e, on_user inherits data s = (Throw e, s))
  /\ snd (on_detail inherits data s) = s.
Proof.
  intros Hnone. repeat split.
  - unfold on_bulk, bind. destruct data; try reflexivity. now rewrite Hnone.
  - unfold on_user, bind, lift.
    destruct (truthy data); [|left; auto].
    destruct (get inherits data "lastEmptyQueueEvent") as [event|e]; [|right; eauto].
    destruct (truthy event); [|left; auto].
    destruct (get inherits event "emptyQueueReasons") as [reasons|e]; [|right; eauto].
    destruct (truthy reasons); [|left; auto].
    rewrite Hnone. left; auto.
  - unfold on_detail, bind. now rewrite Hnone.
Qed.

Lemma handlers_elsewhere (s : state) (data : value) :
  truthy (isProjectPage (href s)) = false ->
  snd (on_bulk inherits data s) = s
  /\ snd (on_user inherits data s) = s
  /\ snd (on_detail inherits data s) = s.
Proof.
  intros H. pose proof (current_project_none s H) as Hnone.
  destruct (handlers_elsewhere_none s data Hnone) as (H1 & H2 & H3).
  repeat split; auto.
  destruct H2 as [[Hok _] | [e He]]; [|now rewrite He].
  unfold on_user, bind, lift in *.
  destruct (truthy data); [|reflexivity].
  destruct (get inherits data "lastEmptyQueueEvent") as [event|e]; [|reflexivity].
  destruct (truthy event); [|reflexivity].
  destruct (get inherits event "emptyQueueReasons") as [reasons|e]; [|reflexivity].
  destruct (truthy reasons); [|reflexivity].
  now rewrite Hnone.
Qed.

Lemma branch_elsewhere (kind url : string) (decoded : result value) (s : state) :
  truthy (isProjectPage (href s)) = false ->
  match branch inherits kind url with
  | Some (label, handler) =>
      store (snd (try_catch (bind (lift decoded) handler) (console_error label) s))
      = store s
  | None => True
  end.
Proof.
  intros H. destruct (branch inherits kind url) as [[label handler]|] eqn:B; [|exact I].
  store_of_logged.
  assert (Hh : forall data, snd (handler data s) = s).
  { intros data. destruct (handlers_elsewhere s data H) as (H1 & H2 & H3).
    unfold branch in B.
    destruct (Str.includes Pattern.bulk_path url); [now injection B as _ <-|].
    destruct (Pattern.logged_in_user url); [now injection B as _ <-|].
    destruct (Pattern.project_detail url); [now injection B as _ <-|].
    discriminate. }
  unfold bind, lift. destruct decoded as [data|e]; [now rewrite Hh | reflexivity].
Qed.

Lemma window_fetch_elsewhere (o : settled) (s : state) :
  truthy (isProjectPage (href s)) = false ->
  store (snd (window_fetch inherits o s)) = store s.
Proof.
  intros H. destruct o as [[url decoded [|]]|e]; [| |reflexivity].
  - now rewrite window_fetch_used.
  - change (mkResponse url decoded false) with (fresh url decoded).
    rewrite window_fetch_fresh. cbn [snd].
    pose proof (branch_elsewhere "fetch" url decoded s H) as Hb.
    destruct (branch inherits "fetch" url) as [[label handler]|]; [exact Hb | reflexivity].
Qed.

Lemma on_load_elsewhere (x : xhr) (s : state) :
  truthy (isProjectPage (href s)) = false ->
  store (snd (on_load inherits x s)) = store s.
Proof.
  intros H.
  destruct (on_load_cases inherits x) as [[r E] | (url & label & handler & B & E)];
    rewrite E; [reflexivity|].
  pose proof (branch_elsewhere "XHR" url (xhr_json x) s H) as Hb.
  now rewrite B in Hb.
Qed.

(** The gating the script does ensure.  [getProjectIdFromURL] returns a
    non-null, non-empty identifier exactly when [isProjectPage] returns
    [true], and that identifier is the part of the path at index 2.
    While the page is not a project page, neither interceptor updates the
    State Store, the tick does not either, and the fallback request is
    not sent. *)
Theorem identifier_gates_updates :
  (forall href,
      (exists id, getProjectIdFromURL href = Some id /\ id <> EmptyString)
      <-> isProjectPage href = VBool true)
  /\ (forall href id,
         getProjectIdFromURL href = Some id ->
         nth_error (Str.split "/" (Url.pathname href)) 2 = Some id)
  /\ (forall s,
         truthy (isProjectPage (href s)) = false ->
         (forall o, store (snd (window_fetch inherits o s)) = store s)
         /\ (forall x, store (snd (on_load inherits x s)) = store s)
         /\ pollForMissingValues s = (Ok tt, s)
         /\ store (snd (tick s)) = store s
         /\ inflight (snd (tick s)) = inflight s).
Proof.
  split; [|split].
  - intros href. split.
    + intros (id & H & _). now apply getProjectIdFromURL_some in H.
    + intros H. pose proof H as H'.
      apply isProjectPage_true in H' as (id & _ & E2 & Hne & _).
      exists id. split; [|exact Hne]. apply getProjectIdFromURL_some. auto.
  - intros href id H. now apply getProjectIdFromURL_some in H.
  - intros s H. repeat split.
    + intros o. now apply window_fetch_elsewhere.
    + intros x. now apply on_load_elsewhere.
    + now apply pollForMissingValues_elsewhere.
    + destruct (tick_reconciles s) as (_ & _ & _ & _ & -> & _).
      unfold reconciled. rewrite H.
      destruct (negb (String.eqb (href s) (lastUrl s)));
        destruct (getElementById overlay_id (body s)); reflexivity.
    + unfold tick, bind, reads, modify, ret. rewrite H. cbn [andb].
      destruct (negb (String.eqb (href s) (lastUrl s))); cbn [body set_lastUrl];
        destruct (getElementById overlay_id (body s)); reflexivity.
Qed.

End Elsewhere.

(** On the home page an observed bulk response that names a project
    changes nothing. *)
Lemma identifier_gates_updates_witness :
  let s := mkState "https://app.outlier.ai/home" "" (Some [])
                   (VNum (int 5)) (VStr "A") "https://app.outlier.ai/home" [] [] in
  let o := Fulfilled (fresh bulk_url
             (Ok (VArr [VObj [("projectId", VStr "P1"); ("count", VNum (int 7))]]))) in
  store (snd (window_fetch standard_host o s)) = store s.
Proof.
  intros s o.
  destruct (identifier_gates_updates standard_host) as (_ & _ & H).
  destruct (H s) as (Hfetch & _); [reflexivity|].
  apply Hfetch.
Defined.

(** C10 at an input where the script breaks it: the continuation of a
    fallback request sent on project P1 matches against the identifier it
    captured, without reading the location again as the interceptors do,
    and updates Remaining Task Count after the user has moved to a page
    that is not a project page. *)
Lemma stale_fallback_updates_elsewhere :
  let s := run standard_host (initial "https://app.outlier.ai/projects/P1" "")
             [HostRender [] true; Tick; Navigate "https://app.outlier.ai/home"] in
  let o := Fulfilled (fresh bulk_url
             (Ok (VArr [VObj [("projectId", VStr "P1"); ("count", VNum (int 5))]]))) in
  let s' := step standard_host s (PollSettled 0 o) in
  truthy (isProjectPage (href s)) = false
  /\ getProjectIdFromURL (href s) = None
  /\ remainingTaskCount s = VNull
  /\ remainingTaskCount s' = VNum (int 5).
Proof. vm_compute. repeat split. Qed.

(* ===================================================================== *)
(** ** What the page sees of its own requests                             *)
(* ===================================================================== *)

(** The conversions throw nothing but a TypeError. *)
Lemma to_string_throws : forall (v : value) (e : error),
  to_string v = Throw e -> e = TypeError.
Proof.
  fix IH 1. intros v e. destruct v as [| |b|n|t|items|props|]; cbn;
    try discriminate.
  - destruct b; discriminate.
  - revert e.
    refine ((fix inner (xs : list value) : forall e, _ xs = Throw e -> e = TypeError
             := _) items).
    intros e. destruct xs as [|x rest]; [discriminate|].
    assert (Hx : forall t, match x with
                           | VUndefined | VNull => Ok EmptyString
                           | _ => to_string x
                           end = Throw t -> t = TypeError).
    { intros t. pose proof (IH x t) as K.
      destruct x; try discriminate; exact K. }
    destruct (match x with
              | VUndefined | VNull => Ok EmptyString
              | _ => to_string x
              end) as [t|t] eqn:X.
    + pose proof (inner rest) as J.
      destruct rest as [|y rest]; [discriminate|].
      match goal with
      | |- match ?j with _ => _ end = _ -> _ =>
          destruct j as [u|u]; [discriminate|]
      end.
      intros [= <-]. now apply J.
    + intros [= <-]. now apply Hx.
  - destruct (own "toString" props); congruence.
Qed.

Section Transparency.

Variable inherits : proto -> string -> bool.

(** The [load] listener ends normally or with a TypeError, and with a
    string recorded it ends normally. *)
Lemma on_load_outcome (x : xhr) (s : state) :
  fst (on_load inherits x s) = Ok tt
  \/ fst (on_load inherits x s) = Throw TypeError.
Proof.
  unfold on_load, inspect_text, bind, lift.
  destruct (truthy (_url x)); [|now left].
  destruct (Js.includes (_url x) Pattern.bulk_path) as [[|]|e] eqn:I.
  - left. apply logged.
  - destruct (to_string (_url x)) as [text|e] eqn:T.
    + destruct (Pattern.logged_in_user text); [left; apply logged|].
      destruct (Pattern.project_detail text); [left; apply logged | now left].
    + right. cbn. now rewrite (to_string_throws _ _ T).
  - right. cbn. destruct (_url x); cbn in I; congruence.
Qed.

Lemma on_load_completes (url : string) (decoded : result value) (s : state) :
  fst (on_load inherits (mkXhr (VStr url) decoded) s) = Ok tt.
Proof.
  rewrite on_load_branch.
  destruct (branch inherits "XHR" url) as [[label handler]|]; [|reflexivity].
  apply logged.
Qed.

(** C6.  The promise the wrapped [fetch] hands to its caller settles as
    the original one does.  A rejection is passed on untouched.  A
    response is passed on as the object that was delivered, its body still
    unread: for a recognised URL the callback leaves two objects, the
    response and a copy of it, and the one whose body was read is the
    copy.  Neither the wrapped [fetch] nor the [load] listener added to
    every [XMLHttpRequest] changes an element of the page other than the
    overlay.  The listener takes whatever the wrapped [open] recorded: it
    ends normally when that is a string, and in every case it ends
    normally or with a TypeError, which the browser reports without
    keeping the event from the page's own listeners. *)
Theorem interception_is_transparent (s : state) :
  (forall e, window_fetch inherits (Rejected e) s = (Rejected e, s))
  /\ (forall url decoded,
         fst (window_fetch inherits (Fulfilled (fresh url decoded)) s)
         = Fulfilled (fresh url decoded)
         /\ fst (observe_response inherits (fresh url decoded) s)
            = Ok (if recognised url
                  then [fresh url decoded; mkResponse url decoded true]
                  else [fresh url decoded]))
  /\ (forall o, page (snd (window_fetch inherits o s)) = page s)
  /\ (forall x,
         page (snd (on_load inherits x s)) = page s
         /\ (fst (on_load inherits x s) = Ok tt
             \/ fst (on_load inherits x s) = Throw TypeError)
         /\ (forall url, _url x = VStr url -> fst (on_load inherits x s) = Ok tt)).
Proof.
  split; [reflexivity|]. split; [|split].
  - intros url decoded. split; [now rewrite window_fetch_fresh|].
    rewrite observe_response_fresh.
    pose proof (branch_recognised inherits "fetch" url) as R.
    destruct (branch inherits "fetch" url) as [[label handler]|]; cbn [fst].
    + rewrite (proj2 R); [reflexivity | discriminate].
    + destruct (recognised url); [|reflexivity].
      now destruct (proj1 R eq_refl).
  - intros o. apply (quiet_window_fetch inherits o s).
  - intros x. split; [apply (quiet_on_load inherits x s)|].
    split; [apply on_load_outcome|].
    intros url E. destruct x as [u decoded]. cbn in E. subst u.
    apply on_load_completes.
Qed.

End Transparency.

(** A request opened with a [URL] object instead of a string: the
    listener calls [includes] on it outside every [try] and ends with a
    TypeError; the response, which would be inspected had the same address
    been given as a string, is not looked at. *)
Example url_object_stops_the_listener :
  let s := mkState "https://app.outlier.ai/projects/P1" "" (Some [])
                   VNull VNull "https://app.outlier.ai/projects/P1" [] [] in
  let reasons :=
    Ok (VObj [("lastEmptyQueueEvent",
               VObj [("emptyQueueReasons",
                      VObj [("P1", VObj [("4", VStr "B")])])])]) in
  on_load standard_host (mkXhr VBuiltin reasons) s = (Throw TypeError, s)
  /\ emptyQueueReason
       (snd (on_load standard_host
               (mkXhr (VStr "https://app.outlier.ai/internal/logged_in_user") reasons) s))
     = VStr "B".
Proof. split; reflexivity. Qed.


(* ===================================================================== *)
(** ** What a handler can do                                              *)
(* ===================================================================== *)

Lemma current_project_at (h : string) (s : state) :
  href s = h -> current_project s = (Ok (project_at h), s).
Proof. intros <-. reflexivity. Qed.

Section Actions.

Variable inherits : proto -> string -> bool.

(** The record-matching rule ends in one of three ways: it throws before
    writing, it does nothing, or it stores a count that is not
    [undefined] and refreshes. *)
Lemma match_record_acts (h pid : string) (items : list value) :
  exists a, admissible a /\ leaves_reason a
            /\ acts_as h (match_record inherits pid items) a.
Proof.
  unfold acts_as, match_record, bind, lift.
  destruct (find_project inherits pid items) as [projectData|e];
    [|exists (Raise e); cbn; auto].
  destruct (truthy projectData); [|exists Skip; cbn; auto].
  destruct (get inherits projectData "count") as [count|e];
    [|exists (Raise e); cbn; auto].
  destruct count; try (exists Skip; cbn; auto; fail);
    match goal with
    | |- context [set_remainingTaskCount ?v] =>
        exists (SetCount v); cbn; repeat split; auto; discriminate
    end.
Qed.

(** The assignment of the reason throws before writing or stores a
    truthy value and refreshes. *)
Lemma resolve_reason_acts (h : string) (reasons : value) (pid : string) :
  exists a, admissible a /\ leaves_count a
            /\ acts_as h (resolve_reason inherits reasons pid) a.
Proof.
  unfold acts_as, resolve_reason, bind, lift, modify.
  destruct (get inherits reasons pid) as [entry|e];
    [|exists (Raise e); cbn; auto].
  destruct (truthy entry);
    [|exists (SetReason (VStr "N/A")); cbn; auto].
  destruct (get inherits entry "-1") as [first|e];
    [|exists (Raise e); cbn; auto].
  destruct (truthy first) eqn:T1; [exists (SetReason first); cbn; auto|].
  destruct (get inherits entry "4") as [second|e];
    [|exists (Raise e); cbn; auto].
  destruct (truthy second) eqn:T4;
    [exists (SetReason second) | exists (SetReason (VStr "N/A"))]; cbn; auto.
Qed.

Lemma on_bulk_acts (h : string) (data : value) :
  exists a, admissible a /\ leaves_reason a /\ acts_as h (on_bulk inherits data) a.
Proof.
  unfold on_bulk. destruct data; try (exists Skip; cbn; unfold acts_as; auto; fail).
  destruct (project_at h) as [p|] eqn:P.
  - destruct (match_record_acts h p items) as (a & Ha & Hr & Hacts).
    exists a. repeat split; auto. intros s Hs. unfold bind.
    rewrite (current_project_at h s Hs), P. now apply Hacts.
  - exists Skip. repeat split; cbn; auto. intros s Hs. unfold bind.
    now rewrite (current_project_at h s Hs), P.
Qed.

(** The part common to the two handlers of the reason. *)
Lemma reasons_of_acts (h : string) (holder : value) (o : option string) :
  exists a, admissible a /\ leaves_count a
    /\ acts_as h
         (event <- lift (get inherits holder "lastEmptyQueueEvent") ;;
          if truthy event then
            reasons <- lift (get inherits event "emptyQueueReasons") ;;
            if truthy reasons then
              match o with
              | Some pid => resolve_reason inherits reasons pid
              | None => ret tt
              end
            else ret tt
          else ret tt) a.
Proof.
  unfold acts_as, bind at 1, lift at 1.
  destruct (get inherits holder "lastEmptyQueueEvent") as [event|e];
    [|exists (Raise e); cbn; auto].
  destruct (truthy event); [|exists Skip; cbn; auto].
  unfold bind at 1, lift at 1.
  destruct (get inherits event "emptyQueueReasons") as [reasons|e];
    [|exists (Raise e); cbn; auto].
  destruct (truthy reasons); [|exists Skip; cbn; auto].
  destruct o as [pid|]; [apply resolve_reason_acts | exists Skip; cbn; auto].
Qed.

Lemma on_user_acts (h : string) (data : value) :
  exists a, admissible a /\ leaves_count a /\ acts_as h (on_user inherits data) a.
Proof.
  destruct (reasons_of_acts h data (project_at h)) as (a & Ha & Hc & Hacts).
  unfold on_user. destruct (truthy data); [|exists Skip; cbn; unfold acts_as; auto].
  exists a. repeat split; auto. intros s Hs. rewrite <- (Hacts s Hs).
  unfold bind, lift.
  destruct (get inherits data "lastEmptyQueueEvent") as [event|e]; [|reflexivity].
  destruct (truthy event); [|reflexivity].
  destruct (get inherits event "emptyQueueReasons") as [reasons|e]; [|reflexivity].
  destruct (truthy reasons); [|reflexivity].
  now rewrite (current_project_at h s Hs).
Qed.

Lemma on_detail_acts (h : string) (data : value) :
  exists a, admissible a /\ leaves_count a /\ acts_as h (on_detail inherits data) a.
Proof.
  assert (Hskip : forall c : option string -> M unit,
             (forall o, c o = ret tt) ->
             exists a, admissible a /\ leaves_count a
                       /\ acts_as h (bind current_project c) a).
  { intros c Hc. exists Skip. repeat split; cbn; auto. intros s Hs. unfold bind.
    now rewrite (current_project_at h s Hs), Hc. }
  unfold on_detail.
  destruct data as [| | | | |[|first [|second rest]]| |];
    try (apply Hskip; intros [p|]; reflexivity).
  destruct (project_at h) as [p|] eqn:P.
  - destruct (reasons_of_acts h second (Some p)) as (a & Ha & Hc & Hacts).
    exists a. repeat split; auto. intros s Hs. rewrite <- (Hacts s Hs).
    unfold bind at 1. now rewrite (current_project_at h s Hs), P.
  - exists Skip. repeat split; cbn; auto. intros s Hs. unfold bind.
    now rewrite (current_project_at h s Hs), P.
Qed.

(** A recognised URL sends the decoded body to a handler that acts on
    the scalar of its endpoint only. *)
Lemma branch_acts (h kind url : string) (decoded : result value) :
  match branch inherits kind url with
  | Some (label, handler) =>
      exists a, admissible a
        /\ (Str.includes Pattern.bulk_path url = true -> leaves_reason a)
        /\ (Str.includes Pattern.bulk_path url = false -> leaves_count a)
        /\ acts_as h (bind (lift decoded) handler) a
  | None => True
  end.
Proof.
  assert (Hraise : forall (handler : value -> M unit) e,
             acts_as h (bind (lift (Throw e)) handler) (Raise e))
    by (intros handler e s _; reflexivity).
  unfold branch.
  destruct (Str.includes Pattern.bulk_path url).
  - destruct decoded as [data|e].
    + destruct (on_bulk_acts h data) as (a & Ha & Hr & Hacts).
      exists a. repeat split; auto. intros; discriminate.
    + exists (Raise e). cbn. repeat split; auto.
  - destruct (Pattern.logged_in_user url).
    + destruct decoded as [data|e].
      * destruct (on_user_acts h data) as (a & Ha & Hc & Hacts).
        exists a. repeat split; auto. intros; discriminate.
      * exists (Raise e). cbn. repeat split; auto.
    + destruct (Pattern.project_detail url); [|exact I].
      destruct decoded as [data|e].
      * destruct (on_detail_acts h data) as (a & Ha & Hc & Hacts).
        exists a. repeat split; auto. intros; discriminate.
      * exists (Raise e). cbn. repeat split; auto.
Qed.

End Actions.

(** What an action leaves in the store. *)
Lemma perform_store (a : action) (s : state) :
  store (snd (perform a s))
  = match a with
    | SetCount v => (v, emptyQueueReason s)
    | SetReason v => (remainingTaskCount s, v)
    | _ => store s
    end.
Proof.
  destruct a; cbn [perform]; try reflexivity;
    unfold bind, modify; now rewrite updateTextbox_store.
Qed.

(* ===================================================================== *)
(** ** Bodies that do not parse, and bodies of another shape              *)
(* ===================================================================== *)

(** A guarded action logs nothing, or logs one error; and then the page
    and the store are as before, unless it is the renderer that threw. *)
Lemma perform_guarded (label : string) (a : action) (s : state) :
  guarded label s (snd (try_catch (perform a) (console_error label) s)).
Proof.
  unfold guarded, try_catch. destruct a as [|e|v|v]; cbn [perform].
  - now left.
  - right. exists e. split; [reflexivity|]. now left.
  - unfold bind, modify.
    set (s0 := set_remainingTaskCount v s).
    pose proof (updateTextbox_console s0) as C.
    pose proof (updateTextbox_store s0) as St.
    destruct (updateTextbox s0) as [[[]|e] s'] eqn:U; cbn [snd] in *.
    + left. exact C.
    + right. exists e. unfold console_error, modify. cbn [snd console set_console].
      rewrite C. split; [reflexivity|]. right.
      destruct (updateTextbox_throws _ _ _ U) as [B | T]; [now left | right].
      rewrite <- T. now apply textbox_text_store.
  - unfold bind, modify.
    set (s0 := set_emptyQueueReason v s).
    pose proof (updateTextbox_console s0) as C.
    pose proof (updateTextbox_store s0) as St.
    destruct (updateTextbox s0) as [[[]|e] s'] eqn:U; cbn [snd] in *.
    + left. exact C.
    + right. exists e. unfold console_error, modify. cbn [snd console set_console].
      rewrite C. split; [reflexivity|]. right.
      destruct (updateTextbox_throws _ _ _ U) as [B | T]; [now left | right].
      rewrite <- T. now apply textbox_text_store.
Qed.

Section Failures.

Variable inherits : proto -> string -> bool.

(** What a guarded branch does with a body that parsed. *)
Lemma branch_parsed (kind url : string) (v : value) (s : state) :
  match branch inherits kind url with
  | Some (label, handler) =>
      guarded label s
        (snd (try_catch (bind (lift (Ok v)) handler) (console_error label) s))
  | None => True
  end.
Proof.
  pose proof (branch_acts inherits (href s) kind url (Ok v)) as H.
  destruct (branch inherits kind url) as [[label handler]|]; [|exact I].
  destruct H as (a & _ & _ & _ & Hacts).
  pose proof (perform_guarded label a s) as P.
  unfold try_catch in *. now rewrite (Hacts s eq_refl).
Qed.

(** What a guarded branch does with a body that did not parse. *)
Lemma branch_unparsed (kind url : string) (e : error) (s : state) :
  recognised url = true ->
  exists label handler,
    branch inherits kind url = Some (label, handler)
    /\ try_catch (bind (lift (Throw e)) handler) (console_error label) s
       = (Ok tt, set_console (console s ++ [(label, e)]) s).
Proof.
  intros H. apply (branch_recognised inherits kind) in H.
  destruct (branch inherits kind url) as [[label handler]|]; [|congruence].
  exists label, handler. split; reflexivity.
Qed.

(** A bulk body whose first record is [null], and a project-detail body
    whose element 1 is [null], on a project page: the handler reads a
    property of [null]. *)
Lemma branch_reads_null (kind url : string) (p : string) (first : value)
    (rest : list value) (s : state) :
  recognised url = true ->
  Pattern.logged_in_user url = false \/ Str.includes Pattern.bulk_path url = true ->
  getProjectIdFromURL (href s) = Some p ->
  let data :=
    if Str.includes Pattern.bulk_path url then VArr (VNull :: rest)
    else VArr (first :: VNull :: rest) in
  exists label handler,
    branch inherits kind url = Some (label, handler)
    /\ try_catch (bind (lift (Ok data)) handler) (console_error label) s
       = (Ok tt, set_console (console s ++ [(label, TypeError)]) s).
Proof.
  intros Hurl Hnot Hid data. subst data. unfold recognised, branch in *.
  destruct (Str.includes Pattern.bulk_path url).
  - do 2 eexists. split; [reflexivity|].
    unfold try_catch, bind, lift, on_bulk. unfold bind.
    rewrite (current_project_some s p Hid). reflexivity.
  - destruct Hnot as [Hu | Hu]; [|discriminate]. rewrite Hu in *.
    cbn in Hurl. rewrite Hurl.
    do 2 eexists. split; [reflexivity|].
    unfold try_catch, bind, lift, on_detail. unfold bind.
    rewrite (current_project_some s p Hid). reflexivity.
Qed.

(** C5, as the script implements it.  For a response on one of the three
    recognised URLs, observed through [fetch] or through a request opened
    with that URL as a string.  When the body fails to parse, the
    interceptor logs that error, completes normally and changes nothing
    else, so the State Store keeps its values.  Whatever the body, the
    caller of [fetch] receives the response as delivered and the [load]
    listener completes.  When the body parses, nothing is logged or one
    error is; and when one is, the page and the State Store are as they
    were, unless it was the renderer that threw, after the assignment (no
    document body yet, or a stored value that cannot be converted to a
    string).  On a project page a bulk body whose first record is [null]
    and a project-detail body whose element 1 is [null] make the handler
    read a property of [null]: that TypeError is logged and nothing else
    changes. *)
Theorem unparsable_body_is_logged (s : state) (url : string) :
  recognised url = true ->
  (forall e, exists label_fetch label_xhr,
      window_fetch inherits (Fulfilled (fresh url (Throw e))) s
      = (Fulfilled (fresh url (Throw e)),
         set_console (console s ++ [(label_fetch, e)]) s)
      /\ on_load inherits (mkXhr (VStr url) (Throw e)) s
         = (Ok tt, set_console (console s ++ [(label_xhr, e)]) s))
  /\ (forall decoded,
         fst (window_fetch inherits (Fulfilled (fresh url decoded)) s)
         = Fulfilled (fresh url decoded)
         /\ fst (on_load inherits (mkXhr (VStr url) decoded) s) = Ok tt)
  /\ (forall v, exists label_fetch label_xhr,
         guarded label_fetch s
           (snd (window_fetch inherits (Fulfilled (fresh url (Ok v))) s))
         /\ guarded label_xhr s
              (snd (on_load inherits (mkXhr (VStr url) (Ok v)) s)))
  /\ (forall p first rest,
         Pattern.logged_in_user url = false
         \/ Str.includes Pattern.bulk_path url = true ->
         getProjectIdFromURL (href s) = Some p ->
         let data :=
           if Str.includes Pattern.bulk_path url then VArr (VNull :: rest)
           else VArr (first :: VNull :: rest) in
         exists label_fetch label_xhr,
           snd (window_fetch inherits (Fulfilled (fresh url (Ok data))) s)
           = set_console (console s ++ [(label_fetch, TypeError)]) s
           /\ snd (on_load inherits (mkXhr (VStr url) (Ok data)) s)
              = set_console (console s ++ [(label_xhr, TypeError)]) s).
Proof.
  intros Hurl. split; [|split; [|split]].
  - intros e.
    destruct (branch_unparsed "fetch" url e s Hurl) as (l1 & h1 & B1 & E1).
    destruct (branch_unparsed "XHR" url e s Hurl) as (l2 & h2 & B2 & E2).
    exists l1, l2. rewrite window_fetch_fresh, on_load_branch.
    rewrite B1, B2, E1, E2. split; reflexivity.
  - intros decoded. split; [now rewrite window_fetch_fresh | apply on_load_completes].
  - intros v.
    rewrite window_fetch_fresh, on_load_branch. cbn [snd].
    pose proof (branch_parsed "fetch" url v s) as H1.
    pose proof (branch_parsed "XHR" url v s) as H2.
    pose proof (proj1 (branch_recognised inherits "fetch" url) Hurl) as R1.
    pose proof (proj1 (branch_recognised inherits "XHR" url) Hurl) as R2.
    destruct (branch inherits "fetch" url) as [[l1 h1]|]; [|congruence].
    destruct (branch inherits "XHR" url) as [[l2 h2]|]; [|congruence].
    exists l1, l2. split; assumption.
  - intros p first rest Hnot Hid data.
    destruct (branch_reads_null "fetch" url p first rest s Hurl Hnot Hid)
      as (l1 & h1 & B1 & E1).
    destruct (branch_reads_null "XHR" url p first rest s Hurl Hnot Hid)
      as (l2 & h2 & B2 & E2).
    exists l1, l2. rewrite window_fetch_fresh, on_load_branch.
    cbv zeta in E1, E2. fold data in E1, E2.
    rewrite B1, B2, E1, E2. split; reflexivity.
Qed.

End Failures.

(** C5 on a current-user response whose text is not JSON. *)
Lemma unparsable_body_is_logged_witness :
  let s := mkState "https://app.outlier.ai/projects/P1" "" (Some [])
                   (VNum (int 5)) (VStr "A") "https://app.outlier.ai/projects/P1" [] [] in
  let url := "https://app.outlier.ai/internal/logged_in_user?pageLoadId=7" in
  recognised url = true
  /\ exists label_fetch label_xhr,
       window_fetch standard_host (Fulfilled (fresh url (Throw SyntaxError))) s
       = (Fulfilled (fresh url (Throw SyntaxError)),
          set_console (console s ++ [(label_fetch, SyntaxError)]) s)
       /\ on_load standard_host (mkXhr (VStr url) (Throw SyntaxError)) s
          = (Ok tt, set_console (console s ++ [(label_xhr, SyntaxError)]) s).
Proof.
  intros s url.
  assert (H : recognised url = true) by reflexivity.
  split; [exact H|].
  destruct (unparsable_body_is_logged standard_host s url H) as (Hfail & _).
  exact (Hfail SyntaxError).
Defined.

(** The claim C5 fails as stated for bodies of another shape.  On project
    P1 with reason A stored: the body [{}] of the current-user endpoint is
    ignored without any log entry; and a body whose [emptyQueueReasons] is
    the number 7 instead of a map overwrites the stored reason with the
    placeholder, again without any log entry. *)
Lemma shape_mismatch_is_silent :
  let s := mkState "https://app.outlier.ai/projects/P1" "" (Some [])
                   (VNum (int 5)) (VStr "A") "https://app.outlier.ai/projects/P1" [] [] in
  let url := "https://app.outlier.ai/internal/logged_in_user" in
  let empty := Ok (VObj []) in
  let wrong := Ok (VObj [("lastEmptyQueueEvent",
                          VObj [("emptyQueueReasons", VNum (int 7))])]) in
  let s1 := snd (window_fetch standard_host (Fulfilled (fresh url empty)) s) in
  let s2 := snd (window_fetch standard_host (Fulfilled (fresh url wrong)) s) in
  console s1 = console s
  /\ console s2 = console s
  /\ store s2 = (VNum (int 5), VStr "N/A")
  /\ store s2 <> store s.
Proof. vm_compute. repeat split. intros H. discriminate H. Qed.

(* ===================================================================== *)
(** ** The credential extractor                                           *)
(* ===================================================================== *)

Lemma join_tail (e : string) (es : list string) :
  Str.join "; " (e :: es) = (e ++ tail_of es)%string.
Proof.
  revert e. induction es as [|e' es IH]; intros e.
  - cbn. induction e as [|c e IHe]; cbn; congruence.
  - change (Str.join "; " (e :: e' :: es))
      with (e ++ String ";" (String " " (Str.join "; " (e' :: es))))%string.
    now rewrite IH.
Qed.

Lemma tail_of_ends (es : list string) : ends_entry (tail_of es).
Proof. destruct es; [left | right]; cbn; eauto. Qed.

Lemma cookie_entry_cons (c : ascii) (e : string) :
  cookie_entry (String c e) ->
  Ascii.eqb c ";" = false /\ Ascii.eqb c " " = false /\ cookie_entry e.
Proof.
  unfold cookie_entry, cookie_char. cbn. intros H.
  apply andb_true_iff in H as [Hc He].
  apply negb_true_iff, orb_false_iff in Hc as [H1 H2]. auto.
Qed.

(** The name is matched inside the entry, never across its end. *)
Lemma starts_with_entry (p e tail : string) :
  Str.all Cookie.not_semicolon p = true -> ends_entry tail ->
  Str.starts_with p (e ++ tail) = Str.starts_with p e.
Proof.
  intros Hp Htail. revert e.
  induction p as [|a p IH]; intros e; [now destruct e|].
  cbn in Hp. apply andb_true_iff in Hp as [Ha Hp].
  destruct e as [|c e]; cbn.
  - destruct Htail as [-> | [t ->]]; cbn; [reflexivity|].
    unfold Cookie.not_semicolon in Ha. apply negb_true_iff in Ha.
    now rewrite Ha.
  - now rewrite (IH Hp).
Qed.

Lemma drop_entry (n : nat) (e tail : string) :
  n <= String.length e ->
  Str.drop n (e ++ tail) = (Str.drop n e ++ tail)%string.
Proof.
  revert e. induction n as [|n IH]; intros e H; [reflexivity|].
  destruct e as [|c e]; cbn in *; [lia|]. apply IH. lia.
Qed.

Lemma starts_with_length (p e : string) :
  Str.starts_with p e = true -> String.length p <= String.length e.
Proof.
  revert e. induction p as [|a p IH]; intros e H; cbn; [lia|].
  destruct e as [|c e]; cbn in *; [discriminate|].
  apply andb_true_iff in H as [_ H]. specialize (IH e H). lia.
Qed.

Lemma cookie_entry_drop (n : nat) (e : string) :
  cookie_entry e -> cookie_entry (Str.drop n e).
Proof.
  revert e. induction n as [|n IH]; intros e H; [exact H|].
  destruct e as [|c e]; [exact H|].
  cbn. apply IH. now apply cookie_entry_cons in H.
Qed.

Lemma take_value (e tail : string) :
  cookie_entry e -> ends_entry tail ->
  Str.take_while Cookie.not_semicolon (e ++ tail) = e.
Proof.
  intros He Htail. induction e as [|c e IH]; cbn.
  - destruct Htail as [-> | [t ->]]; reflexivity.
  - apply cookie_entry_cons in He as (H1 & _ & He).
    unfold Cookie.not_semicolon at 1. rewrite H1. cbn. now rewrite (IH He).
Qed.

(** At the start of an entry the pattern yields the entry's value. *)
Lemma csrf_here_entry (e tail : string) :
  cookie_entry e -> ends_entry tail ->
  Cookie.csrf_here (e ++ tail) = csrf_value e.
Proof.
  intros He Htail. unfold Cookie.csrf_here, csrf_value.
  rewrite (starts_with_entry "_csrf=" e tail eq_refl Htail).
  destruct (Str.starts_with "_csrf=" e) eqn:S; [|reflexivity].
  apply starts_with_length in S.
  rewrite (drop_entry 6 e tail S).
  now rewrite (take_value _ _ (cookie_entry_drop 6 e He) Htail).
Qed.

(** Inside an entry there is no space to match after. *)
Lemma csrf_match_skip (e tail : string) :
  cookie_entry e ->
  Cookie.csrf_match false (e ++ tail) = Cookie.csrf_match false tail.
Proof.
  intros He. induction e as [|c e IH]; [reflexivity|].
  apply cookie_entry_cons in He as (_ & H2 & He).
  cbn. rewrite H2. exact (IH He).
Qed.

Lemma csrf_match_tail (es : list string) :
  Forall cookie_entry es ->
  Cookie.csrf_match false (tail_of es) = first_csrf es.
Proof.
  induction es as [|e es IH]; intros H; [reflexivity|].
  inversion H as [|? ? He Hes]; subst.
  cbn [tail_of first_csrf Cookie.csrf_match].
  change (Ascii.eqb ";" " ") with false. cbv iota.
  change (Ascii.eqb " " " ") with true. cbv iota.
  rewrite (csrf_here_entry e (tail_of es) He (tail_of_ends es)).
  destruct (csrf_value e); [reflexivity|].
  rewrite (csrf_match_skip e _ He). exact (IH Hes).
Qed.

Lemma csrf_match_found (s v : string) :
  Cookie.csrf_here s = Some v -> Cookie.csrf_match true s = Some v.
Proof.
  intros H. destruct s as [|c s].
  - cbn in H. discriminate.
  - cbn [Cookie.csrf_match]. now rewrite H.
Qed.

Lemma csrf_match_start (s : string) :
  Cookie.csrf_here s = None ->
  Cookie.csrf_match true s = Cookie.csrf_match false s.
Proof.
  intros H. destruct s as [|c s]; [reflexivity|].
  cbn [Cookie.csrf_match]. now rewrite H.
Qed.

(** The pattern finds the first entry named [_csrf] with a value. *)
Lemma csrf_match_entries (entries : list string) :
  Forall cookie_entry entries ->
  Cookie.csrf_match true (Str.join "; " entries) = first_csrf entries.
Proof.
  intros H. destruct entries as [|e es]; [reflexivity|].
  inversion H as [|? ? He Hes]; subst.
  rewrite join_tail.
  pose proof (csrf_here_entry e (tail_of es) He (tail_of_ends es)) as Hhere.
  cbn [first_csrf]. destruct (csrf_value e) as [v|] eqn:V.
  - now apply csrf_match_found.
  - rewrite (csrf_match_start _ Hhere), (csrf_match_skip e _ He).
    now apply csrf_match_tail.
Qed.

(** A value without escapes decodes to itself. *)
Lemma decode_plain (v : string) :
  Str.all not_percent v = true -> Cookie.decodeURIComponent v = Ok v.
Proof.
  intros H. unfold Cookie.decodeURIComponent.
  assert (E : exists items, Cookie.unescape v = Some items
                            /\ Cookie.utf8 0 128 191 items = Some v).
  { induction v as [|c v IH]; [exists []; auto|].
    cbn in H. apply andb_true_iff in H as [Hc Hv].
    destruct (IH Hv) as (items & Hu & Hd).
    exists (Cookie.Lit c :: items). cbn.
    unfold not_percent in Hc. apply negb_true_iff in Hc.
    rewrite Hc, Hu. cbn. now rewrite Hd. }
  destruct E as (items & -> & ->). reflexivity.
Qed.

(** C7, as the script implements it.  The extractor is a function of the
    cookie string alone.  On a cookie string made of entries separated by
    a semicolon and a space: when no entry named _csrf has a non-empty
    value it returns the empty string; otherwise it applies
    [decodeURIComponent] to the value of the first such entry, which is
    that value itself when it holds no escape, and may throw on a
    malformed one. *)
Theorem getCsrfToken_on_entries (entries : list string) :
  Forall cookie_entry entries ->
  getCsrfToken (Str.join "; " entries)
  = match first_csrf entries with
    | None => Ok EmptyString
    | Some v => Cookie.decodeURIComponent v
    end
  /\ (forall v, first_csrf entries = Some v ->
                Str.all not_percent v = true ->
                getCsrfToken (Str.join "; " entries) = Ok v).
Proof.
  intros H. unfold getCsrfToken. rewrite (csrf_match_entries entries H).
  split; [reflexivity|].
  intros v -> Hv. now apply decode_plain.
Qed.

(** C7 on three cookies. *)
Lemma getCsrfToken_on_entries_witness :
  getCsrfToken "theme=dark; _csrf=Zx9%2Bq%3D; sid=42" = Ok "Zx9+q=".
Proof.
  refine (eq_trans
            (proj1 (getCsrfToken_on_entries ["theme=dark"; "_csrf=Zx9%2Bq%3D"; "sid=42"] _))
            _).
  - repeat constructor.
  - reflexivity.
Defined.

(** The claim C7 fails as stated, in two ways.  A [_csrf] cookie whose
    value is not well-formed percent-encoding makes the extractor throw;
    and when no cookie is named [_csrf] but the value of another cookie
    holds a space followed by that name, the extractor returns what
    follows instead of the empty string. *)
Lemma getCsrfToken_fails :
  getCsrfToken "theme=dark; _csrf=100%; sid=42" = Throw URIError
  /\ getCsrfToken "note=see _csrf=zz; sid=42" = Ok "zz".
Proof. split; reflexivity. Qed.

(* ===================================================================== *)
(** ** Concrete runs                                                      *)
(* ===================================================================== *)

(** The first tick shows the overlay and sends the fallback request with
    the token of the cookie. *)
Example first_tick :
  overlays (body on_P1)
  = [mkElement overlay_id ("Remaining Tasks: N/A" ++ newline ++ "EQ Reason: N/A")]
  /\ inflight on_P1
     = [mkPoll "P1" (mkRequest bulk_url "POST" "t0k" ["P1"])].
Proof. vm_compute. split; reflexivity. Qed.

(** With only sub-key 4 the reason is its value. *)
Example reason_from_sub_key_4 :
  emptyQueueReason
    (step standard_host on_P1 (user_response (VObj [("P1", VObj [("4", VStr "B")])])))
  = VStr "B".
Proof. reflexivity. Qed.

(** Without an entry for the project the reason is the placeholder, also
    when the identifier happens to name a built-in property. *)
Example reason_without_entry :
  emptyQueueReason
    (step standard_host on_P1 (user_response (VObj [("P2", VObj [("4", VStr "B")])])))
  = VStr "N/A"
  /\ emptyQueueReason
       (step standard_host
          (set_href "https://app.outlier.ai/projects/constructor" on_P1)
          (user_response (VObj [])))
     = VStr "N/A".
Proof. split; reflexivity. Qed.

(** The answer to the fallback request fills in the count and the
    overlay shows it. *)
Example fallback_answer :
  let answer := Fulfilled (fresh bulk_url
                  (Ok (VArr [VObj [("projectId", VStr "P1"); ("count", VNum (int 5))];
                             VObj [("projectId", VStr "P2"); ("count", VNum (int 9))]]))) in
  let s := step standard_host on_P1 (PollSettled 0 answer) in
  remainingTaskCount s = VNum (int 5)
  /\ inflight s = []
  /\ overlays (body s)
     = [mkElement overlay_id ("Remaining Tasks: 5" ++ newline ++ "EQ Reason: N/A")].
Proof. vm_compute. repeat split. Qed.

(* ===================================================================== *)
(** ** Further properties: addresses                                      *)
(* ===================================================================== *)

Lemma drop_while_host (h rest : string) :
  url_host h ->
  (rest = EmptyString \/ exists c r, rest = String c r /\ Url.in_authority c = false) ->
  Str.drop_while Url.in_authority (h ++ rest) = rest.
Proof.
  unfold url_host. intros Hh Hrest.
  induction h as [|a h IH]; cbn.
  - destruct Hrest as [-> | (c & r & -> & Hc)]; [reflexivity|].
    cbn. now rewrite Hc.
  - cbn in Hh. apply andb_true_iff in Hh as [Ha Hh]. rewrite Ha. now apply IH.
Qed.

Lemma take_while_path (p t : string) :
  Str.all Url.in_path p = true -> url_suffix t ->
  Str.take_while Url.in_path (p ++ t) = p.
Proof.
  intros Hp Ht. induction p as [|a p IH]; cbn.
  - destruct Ht as [-> | (c & r & -> & Hc)]; [reflexivity|].
    cbn. now rewrite Hc.
  - cbn in Hp. apply andb_true_iff in Hp as [Ha Hp]. rewrite Ha.
    now rewrite (IH Hp).
Qed.

(** The path of an address is what stands between the host and the
    query or fragment. *)
Lemma pathname_of_address (h p t : string) :
  url_host h -> url_path p -> url_suffix t ->
  Url.pathname ("https://" ++ h ++ p ++ t)
  = if Str.nonempty p then p else "/".
Proof.
  intros Hh [Hp Hshape] Ht. unfold Url.pathname.
  change (Url.after_scheme ("https://" ++ h ++ p ++ t)) with (h ++ p ++ t)%string.
  rewrite drop_while_host; [now rewrite take_while_path|exact Hh|].
  destruct Hshape as [-> | [r ->]].
  - destruct Ht as [-> | (c & r & -> & Hc)]; [now left|].
    right. exists c, r. split; [reflexivity|].
    unfold Url.in_path, Url.in_authority in *.
    apply negb_false_iff in Hc. apply negb_false_iff.
    apply orb_true_iff in Hc as [H|H]; rewrite H; now rewrite ?orb_true_r.
  - right. cbn. eauto.
Qed.

(** X1.  The page classifier and [getProjectIdFromURL] look at the path
    only: a query string or a fragment appended to an address changes
    neither answer. *)
Theorem classification_ignores_query (h p t : string) :
  url_host h -> url_path p -> url_suffix t ->
  isProjectPage ("https://" ++ h ++ p ++ t) = isProjectPage ("https://" ++ h ++ p)
  /\ getProjectIdFromURL ("https://" ++ h ++ p ++ t)
     = getProjectIdFromURL ("https://" ++ h ++ p).
Proof.
  intros Hh Hp Ht.
  assert (E : Url.pathname ("https://" ++ h ++ p ++ t)
              = Url.pathname ("https://" ++ h ++ p)).
  { rewrite (pathname_of_address h p t Hh Hp Ht).
    pose proof (pathname_of_address h p EmptyString Hh Hp (or_introl eq_refl)) as E0.
    replace (p ++ EmptyString)%string with p in E0; [now rewrite E0|].
    clear. induction p as [|a p IH]; cbn; congruence. }
  unfold getProjectIdFromURL, isProjectPage. now rewrite E.
Qed.

Lemma classification_ignores_query_witness :
  isProjectPage "https://app.outlier.ai/projects/P1?pageLoadId=77#top" = VBool true
  /\ getProjectIdFromURL "https://app.outlier.ai/projects/P1?pageLoadId=77#top"
     = Some "P1".
Proof.
  destruct (classification_ignores_query "app.outlier.ai" "/projects/P1"
              "?pageLoadId=77#top") as [H1 H2].
  - reflexivity.
  - split; [reflexivity | right; eexists; reflexivity].
  - right. do 2 eexists. split; reflexivity.
  - split; [exact H1 | exact H2].
Defined.

(* ===================================================================== *)
(** ** Further properties: the timer                                      *)
(* ===================================================================== *)

(** X2.  What a tick does to the State Store: it clears both values
    exactly when the address differs from the recorded one and the new
    page is a project page (also when the project is the same and only the
    rest of the address changed); in every other case it leaves both
    values as they are. *)
Theorem tick_store (s : state) :
  store (snd (tick s))
  = if negb (String.eqb (href s) (lastUrl s)) && truthy (isProjectPage (href s))
    then (VNull, VNull)
    else store s.
Proof.
  destruct (tick_reconciles s) as (_ & _ & _ & _ & -> & _).
  unfold reconciled.
  destruct (negb (String.eqb (href s) (lastUrl s))); cbn [andb].
  - destruct (truthy (isProjectPage (href s))).
    + now rewrite updateTextbox_store.
    + destruct (getElementById overlay_id (body s)); reflexivity.
  - destruct (getElementById overlay_id (body s)); [reflexivity|].
    destruct (truthy (isProjectPage (href s)));
      [now rewrite updateTextbox_store | reflexivity].
Qed.

(** X3.  In the steady state the timer does nothing: when the address is
    the recorded one, the count is known, and the overlay is in place if
    the page is a project page, a tick completes and leaves the whole
    state as it is. *)
Theorem tick_steady (s : state) :
  href s = lastUrl s ->
  is_null (remainingTaskCount s) = false ->
  (truthy (isProjectPage (href s)) = true ->
   getElementById overlay_id (body s) <> None) ->
  tick s = (Ok tt, s).
Proof.
  intros Hhref Hcount Hoverlay.
  unfold tick, bind, reads, ret.
  rewrite Hhref, String.eqb_refl. cbn [negb]. rewrite <- Hhref.
  destruct (truthy (isProjectPage (href s))) eqn:T; cbn [andb].
  - destruct (getElementById overlay_id (body s)); [|now destruct Hoverlay].
    now rewrite Hcount.
  - now destruct (getElementById overlay_id (body s)).
Qed.

Lemma tick_steady_witness :
  let s := mkState "https://app.outlier.ai/projects/P1" ""
                   (Some [mkElement overlay_id "shown"])
                   (VNum (int 5)) VNull "https://app.outlier.ai/projects/P1" [] [] in
  tick s = (Ok tt, s).
Proof.
  intros s. apply (tick_steady s).
  - reflexivity.
  - reflexivity.
  - intros _. vm_compute. intros H. discriminate H.
Defined.

(** On a project page with a body, once the first half of the tick has
    left the count unknown, the tick ends with the fallback. *)
Lemma tick_then_poll (s : state) :
  truthy (isProjectPage (href s)) = true ->
  body s <> None ->
  printable (emptyQueueReason s) = true ->
  is_null (remainingTaskCount (reconciled s)) = true ->
  tick s = pollForMissingValues (reconciled s).
Proof.
  intros T Hb Hp Hnull. unfold reconciled in *.
  unfold tick, bind, reads, modify, ret. rewrite T in *. cbn [andb].
  destruct (negb (String.eqb (href s) (lastUrl s))).
  - match goal with |- context [updateTextbox ?x] => set (s0 := x) in * end.
    destruct (textbox_text_printable s0 eq_refl eq_refl) as [text Ht].
    assert (Hok : fst (updateTextbox s0) = Ok tt)
      by (apply (updateTextbox_ok s0 text); [exact Hb | exact Ht]).
    destruct (updateTextbox s0) as [[[]|e] s1]; cbn in Hok, Hnull |- *;
      [|discriminate].
    now rewrite Hnull.
  - cbn [body set_lastUrl].
    destruct (getElementById overlay_id (body s)).
    + now rewrite Hnull.
    + assert (Hc : is_null (remainingTaskCount s) = true).
      { pose proof (updateTextbox_store s) as E. unfold store in E.
        injection E as E1 _. now rewrite <- E1. }
      destruct (textbox_text_printable s) as [text Ht]; [|exact Hp|].
      { destruct (remainingTaskCount s); try discriminate. reflexivity. }
      assert (Hok : fst (updateTextbox s) = Ok tt)
        by (apply (updateTextbox_ok s text); [exact Hb | exact Ht]).
      destruct (updateTextbox s) as [[[]|e] s1]; cbn in Hok, Hnull |- *;
        [|discriminate].
      now rewrite Hnull.
Qed.

Lemma updateTextbox_keeps_body (s : state) :
  body s <> None -> body (snd (updateTextbox s)) <> None.
Proof.
  assert (W : forall s0, body s0 <> None -> body (snd (write_text s0)) <> None).
  { intros s0 H.
    destruct (write_text_cases s0) as [(t & _ & ->) | (e & _ & ->)];
      cbn [snd]; [|exact H].
    cbn. destruct (body s0); cbn; congruence. }
  intros Hb. unfold updateTextbox.
  destruct (negb (truthy (isProjectPage (href s))));
    destruct (getElementById overlay_id (body s)); cbn [snd]; auto.
  - cbn. destruct (body s); cbn; congruence.
  - destruct (body s) as [els|] eqn:B; [|congruence]. apply W. cbn. discriminate.
Qed.

Lemma reconciled_frame (s : state) :
  href (reconciled s) = href s /\ cookie (reconciled s) = cookie s
  /\ inflight (reconciled s) = inflight s
  /\ (body s <> None -> body (reconciled s) <> None).
Proof.
  assert (U : forall s0, href (snd (updateTextbox s0)) = href s0
                         /\ cookie (snd (updateTextbox s0)) = cookie s0
                         /\ inflight (snd (updateTextbox s0)) = inflight s0
                         /\ (body s0 <> None -> body (snd (updateTextbox s0)) <> None)).
  { intros s0. destruct (quiet_updateTextbox s0) as (Q1 & Q2 & _ & Q4 & _).
    repeat split; auto. apply updateTextbox_keeps_body. }
  unfold reconciled.
  destruct (negb (String.eqb (href s) (lastUrl s)));
    destruct (truthy (isProjectPage (href s)));
    destruct (getElementById overlay_id (body s));
    try (match goal with |- context [updateTextbox ?x] => exact (U x) end);
    try (repeat split; auto; fail).
  repeat split. cbn. destruct (body s); cbn; congruence.
Qed.

Lemma reconciled_store (s : state) :
  store (reconciled s)
  = if negb (String.eqb (href s) (lastUrl s)) && truthy (isProjectPage (href s))
    then (VNull, VNull)
    else store s.
Proof.
  unfold reconciled.
  destruct (negb (String.eqb (href s) (lastUrl s))); cbn [andb].
  - destruct (truthy (isProjectPage (href s))).
    + now rewrite updateTextbox_store.
    + destruct (getElementById overlay_id (body s)); reflexivity.
  - destruct (getElementById overlay_id (body s)); [reflexivity|].
    destruct (truthy (isProjectPage (href s)));
      [now rewrite updateTextbox_store | reflexivity].
Qed.

(** On a project page the renderer leaves an overlay whenever there is a
    body to hold it. *)
Lemma updateTextbox_present (s : state) :
  truthy (isProjectPage (href s)) = true -> body s <> None ->
  getElementById overlay_id (body (snd (updateTextbox s))) <> None.
Proof.
  assert (W : forall s0, getElementById overlay_id (body s0) <> None ->
                         getElementById overlay_id (body (snd (write_text s0))) <> None).
  { intros s0 H.
    destruct (write_text_cases s0) as [(t & _ & ->) | (e & _ & ->)];
      cbn [snd]; [|exact H].
    destruct (body s0) as [els|]; cbn in *; [|exact H].
    destruct (find (has_id overlay_id) els) as [e|] eqn:G; [|congruence].
    now rewrite (find_set_first_value _ _ _ _ G). }
  intros T Hb. unfold updateTextbox. rewrite T. cbn [negb].
  destruct (getElementById overlay_id (body s)) as [e|] eqn:G.
  - apply W. congruence.
  - destruct (body s) as [els|] eqn:B; [|congruence]. apply W. cbn.
    cbn in G.
    destruct (find_appended overlay_id EmptyString EmptyString els G) as [-> _].
    discriminate.
Qed.

Lemma reconciled_present (s : state) :
  truthy (isProjectPage (href s)) = true -> body s <> None ->
  getElementById overlay_id (body (reconciled s)) <> None.
Proof.
  intros T Hb. unfold reconciled. rewrite T.
  destruct (negb (String.eqb (href s) (lastUrl s))).
  - now apply updateTextbox_present.
  - destruct (getElementById overlay_id (body s)) eqn:G;
      [congruence | now apply updateTextbox_present].
Qed.


(** What the fallback sends. *)
Lemma pollForMissingValues_sends (s : state) (p : string) :
  getProjectIdFromURL (href s) = Some p ->
  remainingTaskCount s = VNull ->
  pollForMissingValues s
  = match getCsrfToken (cookie s) with
    | Ok t => (Ok tt, set_inflight (inflight s ++ [fallback p t]) s)
    | Throw e => (Throw e, s)
    end.
Proof.
  intros Hid Hnull. pose proof Hid as Hpage.
  apply getProjectIdFromURL_some in Hpage as [Hpage _].
  unfold pollForMissingValues, bind, reads. rewrite Hpage. cbn [truthy negb].
  rewrite (current_project_some s p Hid), Hnull. cbn [is_null].
  unfold lift, modify. destruct (getCsrfToken (cookie s)); reflexivity.
Qed.

(** A tick on a project page where the count is unknown. *)
Lemma tick_sends (s : state) (p : string) :
  getProjectIdFromURL (href s) = Some p ->
  body s <> None ->
  remainingTaskCount s = VNull ->
  printable (emptyQueueReason s) = true ->
  tick s
  = match getCsrfToken (cookie s) with
    | Ok t => (Ok tt, set_inflight (inflight s ++ [fallback p t]) (reconciled s))
    | Throw e => (Throw e, reconciled s)
    end.
Proof.
  intros Hid Hb Hnull Hp. pose proof Hid as Hpage.
  apply getProjectIdFromURL_some in Hpage as [Hpage _].
  assert (T : truthy (isProjectPage (href s)) = true) by now rewrite Hpage.
  destruct (reconciled_frame s) as (Rh & Rc & Ri & _).
  assert (Rn : remainingTaskCount (reconciled s) = VNull).
  { pose proof (reconciled_store s) as E. unfold store in E.
    destruct (negb (String.eqb (href s) (lastUrl s)) && truthy (isProjectPage (href s)));
      injection E as E1 _; congruence. }
  rewrite (tick_then_poll s T Hb Hp); [|now rewrite Rn].
  rewrite (pollForMissingValues_sends (reconciled s) p); [|congruence|exact Rn].
  now rewrite Rc, Ri.
Qed.

Section Polling.

Variable inherits : proto -> string -> bool.

(** X4.  The fallback is not throttled: on a project page with a body,
    while the count is unknown, the stored reason can be shown and the
    [_csrf] cookie can be decoded, every tick sends one more request,
    whether or not the earlier ones have been answered.  Each of them is a
    POST to the bulk endpoint carrying the token and the one project
    identifier. *)
Theorem every_tick_sends
    (s : state) (p t : string) (n : nat) :
  getProjectIdFromURL (href s) = Some p ->
  body s <> None ->
  remainingTaskCount s = VNull ->
  printable (emptyQueueReason s) = true ->
  getCsrfToken (cookie s) = Ok t ->
  inflight (run inherits s (repeat Tick n)) = inflight s ++ repeat (fallback p t) n.
Proof.
  revert s. induction n as [|n IH]; intros s Hid Hb Hnull Hp Htoken.
  - cbn. now rewrite app_nil_r.
  - cbn [repeat run fold_left step].
    pose proof (tick_sends s p Hid Hb Hnull Hp) as E. rewrite Htoken in E.
    rewrite E. cbn [snd].
    destruct (reconciled_frame s) as (Rh & Rc & Ri & Rb).
    pose proof (reconciled_store s) as Rs. unfold store in Rs.
    fold (run inherits (set_inflight (inflight s ++ [fallback p t]) (reconciled s))
              (repeat Tick n)).
    rewrite IH;
      cbn [href body cookie remainingTaskCount emptyQueueReason inflight set_inflight].
    + now rewrite <- app_assoc.
    + now rewrite Rh.
    + now apply Rb.
    + destruct (negb (String.eqb (href s) (lastUrl s)) && truthy (isProjectPage (href s)));
        injection Rs as E1 _; congruence.
    + destruct (negb (String.eqb (href s) (lastUrl s)) && truthy (isProjectPage (href s)));
        injection Rs as _ E2; rewrite E2; [reflexivity | exact Hp].
    + now rewrite Rc.
Qed.

End Polling.

Lemma every_tick_sends_witness :
  let s := mkState "https://app.outlier.ai/projects/P1" "sid=1; _csrf=t0k"
                   (Some []) VNull VNull "https://app.outlier.ai/home" [] [] in
  inflight (run standard_host s [Tick; Tick; Tick])
  = [fallback "P1" "t0k"; fallback "P1" "t0k"; fallback "P1" "t0k"].
Proof.
  intros s.
  apply (every_tick_sends standard_host s "P1" "t0k" 3).
  - reflexivity.
  - vm_compute. intros H. discriminate H.
  - reflexivity.
  - reflexivity.
  - reflexivity.
Defined.

(** Without a reason that can be shown, X4 and X5 do not hold.  On
    project P1 a current-user response stores, as the reason, an object
    with a key [toString]; the page then rebuilds its body without the
    overlay.  The next tick creates the overlay again, throws while it
    computes the text and ends there: the overlay is empty and the
    fallback is not sent, although the count is unknown. *)
Example tick_stops_at_a_reason_without_text :
  let odd := VObj [("toString", VNull)] in
  let s := run standard_host (initial "https://app.outlier.ai/projects/P1" "_csrf=t0k")
             [HostRender [] true;
              user_response (VObj [("P1", VObj [("-1", odd)])]);
              HostRender [] false] in
  store s = (VNull, odd)
  /\ printable (emptyQueueReason s) = false
  /\ tick s = (Throw TypeError,
               set_body (Some [mkElement overlay_id EmptyString]) s)
  /\ inflight (snd (tick s)) = [].
Proof. vm_compute. repeat split. Qed.

(** X5.  When the [_csrf] cookie cannot be decoded, a tick on a project
    page where the count is unknown and the stored reason can be shown
    still puts the overlay in place, but ends with the exception of
    [getCsrfToken] and sends nothing. *)
Theorem tick_with_undecodable_cookie (s : state) (p : string) (e : error) :
  getProjectIdFromURL (href s) = Some p ->
  body s <> None ->
  remainingTaskCount s = VNull ->
  printable (emptyQueueReason s) = true ->
  getCsrfToken (cookie s) = Throw e ->
  fst (tick s) = Throw e
  /\ inflight (snd (tick s)) = inflight s
  /\ getElementById overlay_id (body (snd (tick s))) <> None.
Proof.
  intros Hid Hb Hnull Hp Htoken.
  pose proof (tick_sends s p Hid Hb Hnull Hp) as E. rewrite Htoken in E.
  rewrite E. cbn [fst snd].
  destruct (reconciled_frame s) as (_ & _ & Ri & _).
  repeat split; [exact Ri|].
  apply reconciled_present; [|exact Hb].
  apply getProjectIdFromURL_some in Hid as [Hpage _]. now rewrite Hpage.
Qed.

Lemma tick_with_undecodable_cookie_witness :
  let s := mkState "https://app.outlier.ai/projects/P1" "sid=1; _csrf=100%"
                   (Some []) VNull VNull "https://app.outlier.ai/home" [] [] in
  fst (tick s) = Throw URIError
  /\ inflight (snd (tick s)) = []
  /\ getElementById overlay_id (body (snd (tick s))) <> None.
Proof.
  intros s.
  apply (tick_with_undecodable_cookie s "P1" URIError).
  - reflexivity.
  - vm_compute. intros H. discriminate H.
  - reflexivity.
  - reflexivity.
  - reflexivity.
Defined.


(* ===================================================================== *)
(** ** Further properties: one scalar per endpoint                        *)
(* ===================================================================== *)

Section Scalars.

Variable inherits : proto -> string -> bool.

Lemma branch_store (kind url : string) (decoded : result value) (s : state) :
  match branch inherits kind url with
  | Some (label, handler) =>
      let s' := snd (try_catch (bind (lift decoded) handler) (console_error label) s) in
      (Str.includes Pattern.bulk_path url = true ->
       emptyQueueReason s' = emptyQueueReason s)
      /\ (Str.includes Pattern.bulk_path url = false ->
          remainingTaskCount s' = remainingTaskCount s)
  | None => True
  end.
Proof.
  pose proof (branch_acts inherits (href s) kind url decoded) as H.
  destruct (branch inherits kind url) as [[label handler]|]; [|exact I].
  destruct H as (a & _ & Hr & Hc & Hacts). cbv zeta.
  assert (E : store (snd (try_catch (bind (lift decoded) handler)
                                    (console_error label) s))
              = store (snd (perform a s))).
  { store_of_logged. now rewrite (Hacts s eq_refl). }
  rewrite perform_store in E. unfold store in E.
  split; intros Hurl.
  - specialize (Hr Hurl). destruct a; cbn in Hr; try contradiction;
      now injection E.
  - specialize (Hc Hurl). destruct a; cbn in Hc; try contradiction;
      now injection E.
Qed.

(** X7.  An observed response is only ever used for the value of its own
    endpoint, whatever its body: a response from a URL that contains the
    bulk path never changes Empty Queue Reason, a response from any other
    URL never changes Remaining Task Count, and a response from a URL that
    none of the three patterns recognises changes nothing at all.  This
    holds for the wrapped [fetch] and for the [load] listener of a request
    opened with the URL as a string. *)
Theorem responses_touch_their_scalar
    (s : state) (url : string) (decoded : result value) :
  let s1 := snd (window_fetch inherits (Fulfilled (fresh url decoded)) s) in
  let s2 := snd (on_load inherits (mkXhr (VStr url) decoded) s) in
  (Str.includes Pattern.bulk_path url = true ->
   emptyQueueReason s1 = emptyQueueReason s
   /\ emptyQueueReason s2 = emptyQueueReason s)
  /\ (Str.includes Pattern.bulk_path url = false ->
      remainingTaskCount s1 = remainingTaskCount s
      /\ remainingTaskCount s2 = remainingTaskCount s)
  /\ (recognised url = false -> s1 = s /\ s2 = s).
Proof.
  intros s1 s2. subst s1 s2.
  rewrite window_fetch_fresh, on_load_branch. cbn [snd _url xhr_json].
  pose proof (branch_store "fetch" url decoded s) as F.
  pose proof (branch_store "XHR" url decoded s) as X.
  pose proof (branch_recognised inherits "fetch" url) as RF.
  pose proof (branch_recognised inherits "XHR" url) as RX.
  destruct (branch inherits "fetch" url) as [[lf hf]|];
    destruct (branch inherits "XHR" url) as [[lx hx]|]; cbv zeta in *.
  - destruct F as [F1 F2], X as [X1 X2].
    split; [|split].
    + intros Hurl. split; auto.
    + intros Hurl. split; auto.
    + intros Hn. assert (recognised url = true) by (apply RF; discriminate).
      congruence.
  - exfalso. apply (proj1 RX); [apply RF; discriminate | reflexivity].
  - exfalso. apply (proj1 RF); [apply RX; discriminate | reflexivity].
  - repeat split; reflexivity.
Qed.

End Scalars.

Lemma responses_touch_their_scalar_witness :
  let s := mkState "https://app.outlier.ai/projects/P1" EmptyString (Some [])
                   (VNum (int 3)) (VStr "A") "https://app.outlier.ai/projects/P1" [] [] in
  let counts := Ok (VArr [VObj [("projectId", VStr "P1"); ("count", VNum (int 5))]]) in
  let reasons :=
    Ok (VObj [("lastEmptyQueueEvent",
               VObj [("emptyQueueReasons",
                      VObj [("P1", VObj [("4", VStr "B")])])])]) in
  let user_url := "https://app.outlier.ai/internal/logged_in_user" in
  let other_url := "https://app.outlier.ai/internal/experiments" in
  (emptyQueueReason
     (snd (window_fetch standard_host (Fulfilled (fresh bulk_url counts)) s))
   = VStr "A"
   /\ emptyQueueReason (snd (on_load standard_host (mkXhr (VStr bulk_url) counts) s))
      = VStr "A")
  /\ (remainingTaskCount
        (snd (window_fetch standard_host (Fulfilled (fresh user_url reasons)) s))
      = VNum (int 3)
      /\ remainingTaskCount (snd (on_load standard_host (mkXhr (VStr user_url) reasons) s))
         = VNum (int 3))
  /\ (snd (window_fetch standard_host (Fulfilled (fresh other_url reasons)) s) = s
      /\ snd (on_load standard_host (mkXhr (VStr other_url) reasons) s) = s).
Proof.
  intros s counts reasons user_url other_url.
  split; [|split].
  - apply (responses_touch_their_scalar standard_host s bulk_url counts).
    reflexivity.
  - apply (responses_touch_their_scalar standard_host s user_url reasons).
    reflexivity.
  - apply (responses_touch_their_scalar standard_host s other_url reasons).
    reflexivity.
Defined.

(* ===================================================================== *)
(** ** Further properties: the overlay shows the store                    *)
(* ===================================================================== *)

Lemma set_first_value_shows (id text : string) (els : list element) :
  List.length (filter (has_id id) els) <= 1 ->
  Forall (fun e => el_value e = text)
         (filter (has_id id) (set_first_value id text els)).
Proof.
  induction els as [|e els IH]; cbn; intros H; [constructor|].
  destruct (has_id id e) eqn:E; cbn in *.
  - unfold has_id in *. cbn. rewrite E. constructor; [reflexivity|].
    destruct (filter (fun e0 => String.eqb (el_id e0) id) els); [constructor|].
    cbn in H. lia.
  - rewrite E. now apply IH.
Qed.

(** After the renderer every overlay shows the store, when the store
    can be shown. *)
Lemma updateTextbox_shows (s : state) :
  overlay_count s <= 1 -> shows_store (snd (updateTextbox s)).
Proof.
  intros Hle text. rewrite (textbox_text_store _ s (updateTextbox_store s)).
  intros Ht.
  unfold updateTextbox, overlay_count in *.
  destruct (negb (truthy (isProjectPage (href s))));
    destruct (getElementById overlay_id (body s)) as [e|] eqn:G.
  - destruct (body s) as [els|]; [|discriminate]. cbn in *.
    assert (E : filter (has_id overlay_id) (remove_first overlay_id els) = []).
    { apply length_zero_iff_nil. rewrite filter_remove_first. lia. }
    rewrite E. constructor.
  - cbn. apply getElementById_none in G. rewrite G. constructor.
  - unfold write_text. rewrite Ht. cbn [snd].
    destruct (body s) as [els|]; [|discriminate]. cbn in *.
    now apply set_first_value_shows.
  - destruct (body s) as [els|] eqn:B; cbn [snd].
    + unfold write_text. rewrite textbox_text_set_body, Ht. cbn.
      cbn in G.
      destruct (find_appended overlay_id EmptyString text els G) as [_ ->].
      rewrite filter_appended. apply find_none_filter in G.
      rewrite G. cbn. repeat constructor.
    + rewrite B. constructor.
Qed.

Lemma sound_same_view (s s' : state) :
  body s' = body s -> store s' = store s -> sound s -> sound s'.
Proof.
  intros Hb Hs (H1 & H2 & H3). unfold sound, overlay_count, shows_store,
    store_admissible in *.
  rewrite Hb, (textbox_text_store s' s Hs). unfold store in Hs.
  injection Hs as -> ->. auto.
Qed.

Lemma updateTextbox_sound (s : state) :
  overlay_count s <= 1 -> store_admissible s -> sound (snd (updateTextbox s)).
Proof.
  intros Hle Hs. repeat split.
  - now apply updateTextbox_count.
  - now apply updateTextbox_shows.
  - pose proof (updateTextbox_store s) as E. unfold store in E.
    injection E as E1 E2. rewrite E1. apply Hs.
  - pose proof (updateTextbox_store s) as E. unfold store in E.
    injection E as E1 E2. rewrite E2. apply Hs.
Qed.

(** An admissible action, guarded and logged, keeps a state sound. *)
Lemma perform_sound (label : string) (a : action) (s : state) :
  admissible a -> sound s ->
  sound (snd (try_catch (perform a) (console_error label) s)).
Proof.
  intros Ha Hs.
  destruct (logged label (perform a) s) as (_ & Hstore & Hbody & _).
  apply (sound_same_view (snd (perform a s))); [exact Hbody | exact Hstore |].
  destruct Hs as (H1 & H2 & H3 & H4).
  destruct a; cbn [perform]; try (repeat split; assumption).
  - unfold bind, modify. apply updateTextbox_sound; [exact H1|].
    split; [exact Ha | exact H4].
  - unfold bind, modify. apply updateTextbox_sound; [exact H1|].
    split; [exact H3 | right; exact Ha].
Qed.

Section Sound.

Variable inherits : proto -> string -> bool.

Lemma window_fetch_sound (o : settled) (s : state) :
  sound s -> sound (snd (window_fetch inherits o s)).
Proof.
  intros Hs. destruct o as [[url decoded [|]]|e]; [| |exact Hs].
  - unfold window_fetch, observe_response, inspect_copy, bind, lift. cbn.
    destruct (Str.includes Pattern.bulk_path url); [exact Hs|].
    destruct (Pattern.logged_in_user url); [exact Hs|].
    destruct (Pattern.project_detail url); exact Hs.
  - change (mkResponse url decoded false) with (fresh url decoded).
    rewrite window_fetch_fresh. cbn [snd].
    pose proof (branch_acts inherits (href s) "fetch" url decoded) as H.
    destruct (branch inherits "fetch" url) as [[label handler]|]; [|exact Hs].
    destruct H as (a & Ha & _ & _ & Hacts).
    pose proof (perform_sound label a s Ha Hs) as P.
    unfold try_catch in *. now rewrite (Hacts s eq_refl).
Qed.

(** At a given address the listener leaves the state one guarded action
    leaves. *)
Lemma on_load_acts (h : string) (x : xhr) :
  exists label a,
    admissible a
    /\ forall s, href s = h ->
                 snd (on_load inherits x s)
                 = snd (try_catch (perform a) (console_error label) s).
Proof.
  destruct (on_load_cases inherits x) as [[r E] | (url & label & handler & B & E)].
  - exists EmptyString, Skip. split; [exact I|].
    intros s _. now rewrite E.
  - pose proof (branch_acts inherits h "XHR" url (xhr_json x)) as H.
    rewrite B in H. destruct H as (a & Ha & _ & _ & Hacts).
    exists label, a. split; [exact Ha|].
    intros s Hs. rewrite E. unfold try_catch. now rewrite (Hacts s Hs).
Qed.

Lemma on_load_sound (x : xhr) (s : state) :
  sound s -> sound (snd (on_load inherits x s)).
Proof.
  intros Hs. destruct (on_load_acts (href s) x) as (label & a & Ha & E).
  rewrite (E s eq_refl). now apply perform_sound.
Qed.

Lemma poll_settled_sound (pid : string) (o : settled) (s : state) :
  sound s -> sound (snd (poll_settled inherits pid o s)).
Proof.
  intros Hs. unfold poll_settled.
  assert (H : exists a, admissible a /\
              acts_as (href s)
                (match o with
                 | Rejected e => lift (Throw e)
                 | Fulfilled r =>
                     data <- lift (fst (json 0 [r])) ;;
                     match data with
                     | VArr items => match_record inherits pid items
                     | _ => ret tt
                     end
                 end) a).
  { destruct o as [r|e]; [|exists (Raise e); split; [exact I | intros ? _; reflexivity]].
    unfold bind, lift.
    destruct (fst (json 0 [r])) as [data|e];
      [|exists (Raise e); split; [exact I | intros ? _; reflexivity]].
    destruct data as [| | | | |items| |];
      try (exists Skip; split; [exact I | intros ? _; reflexivity]).
    destruct (match_record_acts inherits (href s) pid items) as (a & Ha & _ & Hacts).
    exists a. auto. }
  destruct H as (a & Ha & Hacts).
  pose proof (perform_sound "Polling bulk-remaining-tasks error:" a s Ha Hs) as P.
  unfold try_catch in *. now rewrite (Hacts s eq_refl).
Qed.

Lemma reconciled_sound (s : state) : sound s -> sound (reconciled s).
Proof.
  intros Hs. pose proof Hs as (H1 & H2 & H3 & H4). unfold reconciled.
  destruct (negb (String.eqb (href s) (lastUrl s))).
  - destruct (truthy (isProjectPage (href s))).
    + apply updateTextbox_sound; [exact H1|].
      split; cbn; [discriminate | now left].
    + destruct (getElementById overlay_id (body s)) eqn:G; [|exact Hs].
      destruct (body s) as [els|] eqn:B; [|discriminate].
      assert (E : filter (has_id overlay_id) (remove_first overlay_id els) = []).
      { apply length_zero_iff_nil. rewrite filter_remove_first.
        unfold overlay_count in H1. rewrite B in H1. cbn in H1. lia. }
      repeat split; unfold overlay_count, shows_store; cbn; rewrite ?E; cbn;
        auto; try constructor; try lia.
  - destruct (getElementById overlay_id (body s)); [exact Hs|].
    destruct (truthy (isProjectPage (href s))); [|exact Hs].
    apply updateTextbox_sound; [exact H1 | split; assumption].
Qed.

Lemma step_sound (s : state) (ev : event) :
  sound s -> sound (step inherits s ev).
Proof.
  intros Hs. destruct ev as [u|c|els keep| |o|x|i o]; cbn [step].
  - exact Hs.
  - exact Hs.
  - destruct Hs as (H1 & H2 & H3). repeat split; try apply H3.
    + unfold overlay_count in *. cbn. rewrite filter_app, filter_foreign. cbn.
      destruct keep; [now rewrite filter_overlays | cbn; lia].
    + unfold shows_store in *. cbn. rewrite filter_app, filter_foreign. cbn.
      destruct keep; [now rewrite filter_overlays | constructor].
  - destruct (tick_reconciles s) as (_ & _ & _ & Hb & Hst & _).
    apply (sound_same_view (reconciled s)); auto. now apply reconciled_sound.
  - now apply window_fetch_sound.
  - now apply on_load_sound.
  - destruct (nth_error (inflight s) i) as [p|]; [|exact Hs].
    match goal with |- context [window_fetch inherits o ?x] => set (s0 := x) end.
    assert (H0 : sound s0) by exact Hs.
    pose proof (window_fetch_sound o s0 H0) as H1.
    destruct (window_fetch inherits o s0) as [o' s1]. cbn [snd] in *.
    now apply poll_settled_sound.
Qed.

Lemma run_sound (evs : list event) (s : state) :
  sound s -> sound (run inherits s evs).
Proof.
  revert s. induction evs as [|ev evs IH]; intros s H; [exact H|].
  cbn. apply IH. now apply step_sound.
Qed.

Lemma initial_sound (u c : string) : sound (initial u c).
Proof.
  repeat split; cbn; auto; try constructor. discriminate.
Qed.

(** X8.  The overlay shows the store whenever the store can be shown: in
    every state the script can reach in which both Remaining Task Count
    and Empty Queue Reason can be converted to a text, every overlay
    element on the page displays exactly the two lines computed from
    them. *)
Theorem overlay_shows_store (u c : string) (evs : list event) (text : string) :
  let s := run inherits (initial u c) evs in
  textbox_text s = Ok text ->
  Forall (fun e => el_value e = text) (overlays (body s)).
Proof.
  intros s. apply (run_sound evs (initial u c) (initial_sound u c)).
Qed.

(** X9.  The store only ever holds what the guards let through: in every
    state the script can reach, Remaining Task Count is never
    [undefined], and Empty Queue Reason is [null] or a truthy value. *)
Theorem store_holds_guarded_values (u c : string) (evs : list event) :
  let s := run inherits (initial u c) evs in
  remainingTaskCount s <> VUndefined
  /\ (emptyQueueReason s = VNull \/ truthy (emptyQueueReason s) = true).
Proof. apply (run_sound evs (initial u c) (initial_sound u c)). Qed.

End Sound.

(** X8 after the answer to the fallback request on project P1. *)
Lemma overlay_shows_store_witness :
  let evs := [HostRender [mkElement "root" "page"] true; Tick;
              PollSettled 0 (Fulfilled (fresh bulk_url
                (Ok (VArr [VObj [("projectId", VStr "P1");
                                 ("count", VNum (int 5))]]))))] in
  let s := run standard_host
             (initial "https://app.outlier.ai/projects/P1" "_csrf=t0k") evs in
  let text := ("Remaining Tasks: 5" ++ newline ++ "EQ Reason: N/A")%string in
  textbox_text s = Ok text
  /\ Forall (fun e => el_value e = text) (overlays (body s)).
Proof.
  intros evs s text.
  assert (H : textbox_text s = Ok text) by reflexivity.
  split; [exact H|].
  exact (overlay_shows_store standard_host
           "https://app.outlier.ai/projects/P1" "_csrf=t0k" evs text H).
Defined.

(** When a stored value cannot be shown the overlay stays behind.  On
    project P1 a current-user response stores, as the reason, an object
    with a key [toString]: the renderer throws and the interceptor logs
    it.  The count that a bulk response brings afterwards is stored, but
    the renderer throws again, and the overlay goes on showing that the
    count is unknown. *)
Example overlay_stays_behind_a_reason_without_text :
  let odd := VObj [("toString", VNull)] in
  let s := run standard_host on_P1
             [user_response (VObj [("P1", VObj [("-1", odd)])]);
              FetchSettled (Fulfilled (fresh bulk_url
                (Ok (VArr [VObj [("projectId", VStr "P1");
                                 ("count", VNum (int 5))]]))))] in
  store s = (VNum (int 5), odd)
  /\ textbox_text s = Throw TypeError
  /\ overlays (body s)
     = [mkElement overlay_id ("Remaining Tasks: N/A" ++ newline ++ "EQ Reason: N/A")]
  /\ map snd (console s) = [TypeError; TypeError].
Proof. vm_compute. repeat split. Qed.

(* ===================================================================== *)
(** ** Further properties: a request that is used again                   *)
(* ===================================================================== *)

Lemma updateTextbox_view (s s' : state) :
  href s = href s' -> visible s = visible s' ->
  visible (snd (updateTextbox s)) = visible (snd (updateTextbox s')).
Proof.
  intros Hh Hv.
  assert (Hb : body s = body s') by exact (f_equal fst Hv).
  assert (Hs : store s = store s') by exact (f_equal snd Hv).
  assert (Ht : textbox_text s = textbox_text s') by now apply textbox_text_store.
  unfold visible. rewrite !updateTextbox_store, Hs. f_equal.
  unfold updateTextbox, write_text. rewrite Hh, Hb.
  destruct (negb (truthy (isProjectPage (href s'))));
    destruct (getElementById overlay_id (body s')); cbn [snd body set_body];
    try congruence.
  - rewrite Ht. destruct (textbox_text s'); cbn [snd body set_body]; congruence.
  - destruct (body s') eqn:B; cbn [snd body set_body]; [|congruence].
    rewrite !textbox_text_set_body, Ht.
    destruct (textbox_text s'); cbn [snd body set_body]; congruence.
Qed.

Lemma perform_view (a : action) (s s' : state) :
  href s = href s' -> visible s = visible s' ->
  visible (snd (perform a s)) = visible (snd (perform a s')).
Proof.
  intros Hh Hv.
  assert (Hb : body s = body s') by exact (f_equal fst Hv).
  assert (Hs : store s = store s') by exact (f_equal snd Hv).
  unfold store in Hs. injection Hs as Hc Hr.
  destruct a; cbn [perform]; try exact Hv;
    unfold bind, modify; apply updateTextbox_view; cbn; try exact Hh;
    unfold visible, store; cbn; congruence.
Qed.

Lemma perform_href (a : action) (s : state) : href (snd (perform a s)) = href s.
Proof.
  destruct a; cbn [perform]; try reflexivity; unfold bind, modify;
    match goal with |- context [updateTextbox ?x] =>
      destruct (quiet_updateTextbox x) as (H & _); exact H end.
Qed.

(** Performing an action a second time changes nothing one can see. *)
Lemma perform_settles (a : action) (s : state) :
  overlay_count s <= 1 ->
  visible (snd (perform a (snd (perform a s)))) = visible (snd (perform a s)).
Proof.
  intros Hle. destruct a; cbn [perform]; try reflexivity; unfold bind, modify.
  - set (s0 := set_remainingTaskCount v s).
    destruct (updateTextbox_twice s0 Hle) as [E _].
    rewrite <- E at 2.
    apply updateTextbox_view; [reflexivity|].
    pose proof (updateTextbox_store s0) as St. unfold store in St.
    injection St as St1 St2. cbn in St1, St2.
    unfold visible, store. cbn. congruence.
  - set (s0 := set_emptyQueueReason v s).
    destruct (updateTextbox_twice s0 Hle) as [E _].
    rewrite <- E at 2.
    apply updateTextbox_view; [reflexivity|].
    pose proof (updateTextbox_store s0) as St. unfold store in St.
    injection St as St1 St2. cbn in St1, St2.
    unfold visible, store. cbn. congruence.
Qed.

Lemma logged_view (label : string) (c : M unit) (s : state) :
  visible (snd (try_catch c (console_error label) s)) = visible (snd (c s)).
Proof.
  destruct (logged label c s) as (_ & Hs & Hb & _). unfold visible. congruence.
Qed.

Lemma logged_href (label : string) (a : action) (s : state) :
  href (snd (try_catch (perform a) (console_error label) s)) = href s.
Proof.
  pose proof (perform_href a s) as H. unfold try_catch.
  destruct (perform a s) as [[[]|e] s1]; cbn in *; exact H.
Qed.

Section Reuse.

Variable inherits : proto -> string -> bool.

Lemma each_listener_settled
    (h label : string) (a : action) (c : M unit) (k : nat) (s : state) :
  (forall s0, href s0 = h ->
              snd (c s0) = snd (try_catch (perform a) (console_error label) s0)) ->
  href s = h ->
  visible (snd (perform a s)) = visible s ->
  visible (snd (each_listener k c s)) = visible s.
Proof.
  intros Hc. revert s. induction k as [|k IH]; intros s Hs Hv; [reflexivity|].
  cbn [each_listener]. rewrite (Hc s Hs).
  set (s1 := snd (try_catch (perform a) (console_error label) s)).
  assert (V1 : visible s1 = visible s) by (unfold s1; now rewrite logged_view).
  assert (H1 : href s1 = h) by (unfold s1; now rewrite logged_href).
  rewrite IH; [exact V1 | exact H1 |].
  rewrite (perform_view a s1 s); congruence.
Qed.

(** X10.  Using one [XMLHttpRequest] again adds a [load] listener at each
    [send], so a single [load] runs the handler once per earlier [send].
    In every state the script can reach, the page and the State Store
    after all these runs are those after a single run for what the last
    [open] recorded, whatever that is. *)
Theorem reused_request_settles
    (u c : string) (evs : list event)
    (x : request_object) (method : string) (url : value) (decoded : result value) :
  let s := run inherits (initial u c) evs in
  let x' := XMLHttpRequest_send (XMLHttpRequest_open method url x) in
  load_listeners x' = S (load_listeners x)
  /\ visible (snd (fire_load inherits x' decoded s))
     = visible (snd (on_load inherits (mkXhr url decoded) s)).
Proof.
  intros s x'. split; [reflexivity|].
  unfold fire_load, x'. cbn [XMLHttpRequest_send XMLHttpRequest_open
    load_listeners recorded_url each_listener].
  destruct (on_load_acts inherits (href s) (mkXhr url decoded)) as (label & a & _ & Hc).
  set (s1 := snd (on_load inherits (mkXhr url decoded) s)).
  assert (E1 : s1 = snd (try_catch (perform a) (console_error label) s))
    by (unfold s1; now rewrite (Hc s eq_refl)).
  assert (V1 : visible s1 = visible (snd (perform a s)))
    by (rewrite E1; apply logged_view).
  assert (H1 : href s1 = href s) by (rewrite E1; apply logged_href).
  apply (each_listener_settled (href s) label a); [exact Hc | exact H1 |].
  rewrite (perform_view a s1 (snd (perform a s))).
  - rewrite perform_settles; [now rewrite V1|].
    apply (reachable_overlay_count inherits).
  - now rewrite H1, perform_href.
  - exact V1.
Qed.

End Reuse.

(* ===================================================================== *)
(** ** Further properties: the patterns of the interceptors               *)
(* ===================================================================== *)

Lemma starts_with_split (p s : string) :
  Str.starts_with p s = true -> s = (p ++ Str.drop (String.length p) s)%string.
Proof.
  revert s. induction p as [|a p IH]; intros s H; [reflexivity|].
  destruct s as [|c s]; cbn in *; [discriminate|].
  apply andb_true_iff in H as [Hc H]. apply Ascii.eqb_eq in Hc. subst c.
  now rewrite <- (IH s H).
Qed.

Lemma starts_with_app (p a b : string) :
  Str.starts_with p a = true -> Str.starts_with p (a ++ b) = true.
Proof.
  revert a. induction p as [|c p IH]; intros a H; [reflexivity|].
  destruct a as [|c' a]; cbn in *; [discriminate|].
  apply andb_true_iff in H as [Hc H]. rewrite Hc. now apply IH.
Qed.

Lemma take_drop_while (ok : ascii -> bool) (s : string) :
  s = (Str.take_while ok s ++ Str.drop_while ok s)%string
  /\ Str.all ok (Str.take_while ok s) = true.
Proof.
  induction s as [|c s [IH1 IH2]]; cbn; [auto|].
  destruct (ok c) eqn:E; cbn; [|auto].
  rewrite E, IH2. split; [now rewrite <- IH1 | reflexivity].
Qed.

Lemma all_app (ok : ascii -> bool) (a b : string) :
  Str.all ok (a ++ b) = Str.all ok a && Str.all ok b.
Proof.
  induction a as [|c a IH]; cbn; [reflexivity|]. now rewrite IH, andb_assoc.
Qed.

Lemma all_and (f g : ascii -> bool) (s : string) :
  Str.all f s = true -> Str.all g s = true ->
  Str.all (fun c => f c && g c) s = true.
Proof.
  induction s as [|c s IH]; cbn; [reflexivity|]. intros Hf Hg.
  apply andb_true_iff in Hf as [-> Hf]. apply andb_true_iff in Hg as [-> Hg].
  now rewrite IH.
Qed.

Lemma all_weaken (f g : ascii -> bool) (s : string) :
  (forall c, f c = true -> g c = true) ->
  Str.all f s = true -> Str.all g s = true.
Proof.
  intros H. induction s as [|c s IH]; cbn; [reflexivity|]. intros Hf.
  apply andb_true_iff in Hf as [Hc Hf]. now rewrite (H c Hc), IH.
Qed.

(** The address of a project page, given its identifier. *)
Lemma project_address (id t : string) :
  Str.all Pattern.in_segment id = true ->
  Str.all not_hash id = true ->
  id <> EmptyString -> id <> "history" ->
  url_suffix t ->
  isProjectPage (Pattern.detail_prefix ++ id ++ t) = VBool true
  /\ getProjectIdFromURL (Pattern.detail_prefix ++ id ++ t) = Some id.
Proof.
  intros Hseg Hhash Hne Hh Ht.
  assert (Hp : Str.all Url.in_path id = true).
  { apply (all_weaken (fun c => Pattern.in_segment c && not_hash c));
      [|now apply all_and].
    intros c H. apply andb_true_iff in H as [H1 H2].
    unfold Pattern.in_segment, not_hash, Url.in_path in *.
    apply negb_true_iff in H1, H2. apply orb_false_iff in H1 as [_ H1].
    now rewrite H1, H2. }
  assert (Hs : segment id).
  { apply (all_weaken Pattern.in_segment); [|exact Hseg].
    intros c H. unfold Pattern.in_segment, not_slash in *.
    apply negb_true_iff in H. apply orb_false_iff in H as [H _]. now rewrite H. }
  assert (E : Url.pathname (Pattern.detail_prefix ++ id ++ t)
              = String "/" (Str.join "/" ["projects"; id])).
  { change (Pattern.detail_prefix ++ id ++ t)%string
      with ("https://" ++ "app.outlier.ai" ++ ("/projects/" ++ id) ++ t)%string.
    rewrite pathname_of_address; [reflexivity | reflexivity | | exact Ht].
    split; [exact Hp | right; eexists; reflexivity]. }
  assert (Hparts : Str.split "/" (Url.pathname (Pattern.detail_prefix ++ id ++ t))
                   = [EmptyString; "projects"; id]).
  { rewrite E. apply (parts_of_path ["projects"; id]). repeat constructor. exact Hs. }
  assert (Hpage : isProjectPage (Pattern.detail_prefix ++ id ++ t) = VBool true).
  { apply isProjectPage_true. exists id. rewrite Hparts. repeat split; auto. }
  split; [exact Hpage|].
  apply getProjectIdFromURL_some. split; [exact Hpage|]. now rewrite Hparts.
Qed.

(** X11.  Every address the project-detail pattern accepts is, fragment
    aside, the address of a project page: it consists of the fixed
    prefix, an identifier that does not begin with "history", and at most
    a query string; the page classifier accepts it and
    [getProjectIdFromURL] returns that identifier. *)
Theorem detail_pattern_is_a_project_page (url : string) :
  Pattern.project_detail url = true ->
  Str.all not_hash url = true ->
  exists id rest,
    url = (Pattern.detail_prefix ++ id ++ rest)%string
    /\ Str.starts_with "history" id = false
    /\ Pattern.query_to_end rest = true
    /\ isProjectPage url = VBool true
    /\ getProjectIdFromURL url = Some id.
Proof.
  unfold Pattern.project_detail. intros H Hhash.
  apply andb_true_iff in H as [Hpre H].
  apply andb_true_iff in H as [H Hq]. apply andb_true_iff in H as [Hh Hne].
  apply negb_true_iff in Hh.
  set (r := Str.drop (String.length Pattern.detail_prefix) url) in *.
  assert (Eurl : url = (Pattern.detail_prefix ++ r)%string)
    by now apply starts_with_split.
  destruct (take_drop_while Pattern.in_segment r) as [Er Hseg].
  set (id := Str.take_while Pattern.in_segment r) in *.
  set (rest := Str.drop_while Pattern.in_segment r) in *.
  assert (Hid : Str.starts_with "history" id = false).
  { destruct (Str.starts_with "history" id) eqn:S; [|reflexivity].
    rewrite Er, (starts_with_app _ _ rest S) in Hh. discriminate. }
  assert (Hhash_id : Str.all not_hash id = true).
  { rewrite Eurl, Er, !all_app in Hhash.
    apply andb_true_iff in Hhash as [_ Hhash].
    now apply andb_true_iff in Hhash as [Hhash _]. }
  assert (Hsuffix : url_suffix rest).
  { unfold Pattern.query_to_end in Hq. destruct rest as [|c rest']; [now left|].
    right. exists c, rest'. split; [reflexivity|].
    apply andb_true_iff in Hq as [Hc _]. apply Ascii.eqb_eq in Hc. now subst c. }
  destruct (project_address id rest Hseg Hhash_id) as [Hpage Hget]; auto.
  - apply nonempty_true. exact Hne.
  - intros ->. discriminate Hid.
  - exists id, rest. rewrite Eurl, Er. repeat split; auto.
Qed.

Lemma detail_pattern_is_a_project_page_witness :
  exists id rest,
    "https://app.outlier.ai/projects/6793e8cb?pageLoadId=3"
    = (Pattern.detail_prefix ++ id ++ rest)%string
    /\ Str.starts_with "history" id = false
    /\ Pattern.query_to_end rest = true
    /\ isProjectPage "https://app.outlier.ai/projects/6793e8cb?pageLoadId=3" = VBool true
    /\ getProjectIdFromURL "https://app.outlier.ai/projects/6793e8cb?pageLoadId=3"
       = Some id.
Proof.
  apply (detail_pattern_is_a_project_page
           "https://app.outlier.ai/projects/6793e8cb?pageLoadId=3");
    reflexivity.
Defined.

(** X12.  The classifier and the project-detail pattern disagree on
    identifiers that begin with "history" without being it: the page
    /projects/history<more> is a project page, with that identifier, but
    no address of that shape is ever inspected as a project-detail
    response. *)
Theorem history_prefixed_project (more rest : string) :
  more <> EmptyString ->
  Str.all Pattern.in_segment more = true ->
  Str.all not_hash more = true ->
  let id := ("history" ++ more)%string in
  isProjectPage (Pattern.detail_prefix ++ id) = VBool true
  /\ getProjectIdFromURL (Pattern.detail_prefix ++ id) = Some id
  /\ Pattern.project_detail (Pattern.detail_prefix ++ id ++ rest) = false.
Proof.
  intros Hne Hseg Hhash id.
  destruct (project_address id EmptyString) as [Hpage Hget].
  - exact Hseg.
  - exact Hhash.
  - discriminate.
  - unfold id. intros H. injection H as H. now apply Hne.
  - now left.
  - replace (id ++ EmptyString)%string with id in Hpage, Hget.
    + repeat split; auto.
    + clear. induction id as [|c i IH]; cbn; congruence.
Qed.

Lemma history_prefixed_project_witness :
  isProjectPage "https://app.outlier.ai/projects/history2" = VBool true
  /\ getProjectIdFromURL "https://app.outlier.ai/projects/history2" = Some "history2"
  /\ Pattern.project_detail "https://app.outlier.ai/projects/history2?pageLoadId=3"
     = false.
Proof.
  apply (history_prefixed_project "2" "?pageLoadId=3"); [discriminate | reflexivity ..].
Defined.

Lemma logged_in_user_anywhere (pre t : string) :
  Pattern.logged_in_user t = true -> Pattern.logged_in_user (pre ++ t) = true.
Proof.
  intros H. induction pre as [|c pre IH]; [exact H|].
  cbn [append Pattern.logged_in_user]. rewrite IH. apply orb_true_r.
Qed.

(** X13.  The current-user pattern looks at the end of the address only:
    whatever precedes the path (any scheme, host or directory), an
    address ending in /internal/logged_in_user, alone or followed by a
    query string without line terminators (line feed, carriage return,
    U+2028, U+2029), matches it. *)
Theorem user_pattern_matches_any_origin (pre query : string) :
  Pattern.no_line_terminator query = true ->
  Pattern.logged_in_user (pre ++ Pattern.user_path) = true
  /\ Pattern.logged_in_user (pre ++ Pattern.user_path ++ String "?" query) = true.
Proof.
  intros Hq. split; apply logged_in_user_anywhere.
  - reflexivity.
  - unfold Pattern.user_path. cbn. now rewrite Hq.
Qed.

Lemma user_pattern_matches_any_origin_witness :
  Pattern.logged_in_user "https://elsewhere.example/v2/internal/logged_in_user?x=1"
  = true.
Proof.
  apply (user_pattern_matches_any_origin "https://elsewhere.example/v2" "x=1").
  reflexivity.
Defined.

(* ===================================================================== *)
(** ** Further properties: dragging                                       *)
(* ===================================================================== *)

Lemma last_first {A} (l : list A) (x a : A) : last (x :: l) a = last l x.
Proof.
  revert x a. induction l as [|y l IH]; intros x a; [reflexivity|].
  change (last (x :: y :: l) a) with (last (y :: l) a).
  now rewrite (IH y a), (IH y x).
Qed.

Section Dragging.

Variables margin_left margin_top : Z.

Local Open Scope Z_scope.

(** While the button is held, each move shifts the overlay by the
    pointer's displacement plus the margin the browser adds to the
    offsets. *)
Lemma moves_accumulate (path : list (Z * Z)) (d : drag) :
  tracking d = true ->
  let d' := pointer_run margin_left margin_top d (map move_to path) in
  tracking d' = true
  /\ (pos3 d', pos4 d') = last_point (pos3 d, pos4 d) path
  /\ style_left d'
     = style_left d + Z.of_nat (List.length path) * margin_left
       + (fst (last_point (pos3 d, pos4 d) path) - pos3 d)
  /\ style_top d'
     = style_top d + Z.of_nat (List.length path) * margin_top
       + (snd (last_point (pos3 d, pos4 d) path) - pos4 d).
Proof.
  revert d. induction path as [|[x y] path IH]; intros d Ht.
  - cbn. repeat split; auto; lia.
  - cbn [map pointer_run fold_left move_to fst snd pointer_step]. rewrite Ht.
    set (d1 := elementDrag x y (style_left d + margin_left)
                           (style_top d + margin_top) d).
    destruct (IH d1 Ht) as (T & P & L & U).
    unfold pointer_run in *. cbv zeta in *.
    assert (E : last_point (pos3 d, pos4 d) ((x, y) :: path)
                = last_point (x, y) path) by apply last_first.
    rewrite E. cbn [pos3 pos4 style_left style_top d1 elementDrag] in *.
    repeat split; auto.
    + rewrite L. cbn [List.length]. lia.
    + rewrite U. cbn [List.length]. lia.
Qed.

Lemma released_stays (ps : list pointer) (d : drag) :
  tracking d = false -> forallb elsewhere ps = true ->
  pointer_run margin_left margin_top d ps = d.
Proof.
  revert d. induction ps as [|p ps IH]; intros d Ht Hps; [reflexivity|].
  cbn in Hps. apply andb_true_iff in Hps as [Hp Hps].
  cbn [pointer_run fold_left]. destruct p; cbn in Hp |- *; try discriminate;
    rewrite Ht; now apply IH.
Qed.

(** X14.  A drag gesture.  After a press at [start], moves along [path]
    and a release, the overlay has been shifted by the displacement of the
    pointer from [start] to the end of the path, plus, for each move, the
    margin that separates the element's offset from its style position
    (nothing when the margin is zero); whatever the pointer does after the
    release, short of pressing the overlay again, the overlay stays
    there. *)
Theorem drag_gesture
    (d : drag) (start : Z * Z) (path : list (Z * Z)) (later : list pointer) :
  forallb elsewhere later = true ->
  let d' := pointer_run margin_left margin_top d
              (MouseDown (fst start) (snd start)
               :: map move_to path ++ MouseUp :: later) in
  tracking d' = false
  /\ style_left d'
     = style_left d + Z.of_nat (List.length path) * margin_left
       + (fst (last_point start path) - fst start)
  /\ style_top d'
     = style_top d + Z.of_nat (List.length path) * margin_top
       + (snd (last_point start path) - snd start).
Proof.
  intros Hlater d'. subst d'.
  unfold pointer_run. cbn [fold_left pointer_step]. rewrite fold_left_app.
  set (d0 := dragMouseDown (fst start) (snd start) d).
  destruct (moves_accumulate path d0 eq_refl) as (T & _ & L & U).
  unfold pointer_run in *. cbv zeta in *.
  set (d1 := fold_left (pointer_step margin_left margin_top) (map move_to path) d0) in *.
  cbn [fold_left pointer_step]. rewrite T.
  pose proof (released_stays later (closeDragElement d1) eq_refl Hlater) as R.
  unfold pointer_run in R. rewrite R.
  cbn [closeDragElement tracking style_left style_top].
  replace (pos3 d0, pos4 d0) with start in L, U by (now destruct start).
  cbn [d0 dragMouseDown style_left style_top pos3 pos4] in L, U.
  repeat split; assumption.
Qed.

End Dragging.

(** X14 on the new overlay, without margins: pressed at (100, 50), moved
    through two points to (130, 45), released, then the pointer moves on. *)
Lemma drag_gesture_witness :
  let d' := pointer_run 0 0 new_drag
              [MouseDown 100 50; MouseMove 110 60; MouseMove 130 45; MouseUp;
               MouseMove 500 500] in
  tracking d' = false
  /\ style_left d' = 40%Z
  /\ style_top d' = 5%Z.
Proof.
  intros d'.
  destruct (drag_gesture 0 0 new_drag (100, 50)%Z [(110, 60); (130, 45)]%Z
              [MouseMove 500 500] eq_refl) as (T & L & U).
  exact (conj T (conj L U)).
Defined.

(* ===================================================================== *)
(** ** Further properties: the fallback that fails, the two interceptors  *)
(* ===================================================================== *)

Section Siblings.

Variable inherits : proto -> string -> bool.

Lemma reconciled_console (s : state) : console (reconciled s) = console s.
Proof.
  unfold reconciled.
  destruct (negb (String.eqb (href s) (lastUrl s)));
    destruct (truthy (isProjectPage (href s)));
    rewrite ?updateTextbox_console;
    destruct (getElementById overlay_id (body s));
    rewrite ?updateTextbox_console; reflexivity.
Qed.

(** X15.  A fallback request that fails on the network is logged once,
    under the label of the poller, and changes nothing else; since the
    count is still unknown, the next tick on the project page (with a
    body, a stored reason that can be shown and a cookie that can be
    decoded) sends the same request again. *)
Theorem failed_fallback_is_retried
    (s : state) (i : nat) (p : poll) (e : error) (pid t : string) :
  nth_error (inflight s) i = Some p ->
  getProjectIdFromURL (href s) = Some pid ->
  body s <> None ->
  remainingTaskCount s = VNull ->
  printable (emptyQueueReason s) = true ->
  getCsrfToken (cookie s) = Ok t ->
  let s1 := step inherits s (PollSettled i (Rejected e)) in
  let s2 := step inherits s1 Tick in
  s1 = set_console (console s ++ [("Polling bulk-remaining-tasks error:", e)])
         (set_inflight (remove_nth i (inflight s)) s)
  /\ inflight s2 = remove_nth i (inflight s) ++ [fallback pid t]
  /\ console s2 = console s1.
Proof.
  intros H Hid Hb Hnull Hp Htoken s1 s2.
  assert (E1 : s1 = set_console (console s ++ [("Polling bulk-remaining-tasks error:", e)])
                      (set_inflight (remove_nth i (inflight s)) s))
    by (unfold s1; cbn [step]; now rewrite H).
  split; [exact E1|].
  assert (F : href s1 = href s /\ body s1 = body s
              /\ remainingTaskCount s1 = remainingTaskCount s
              /\ emptyQueueReason s1 = emptyQueueReason s
              /\ cookie s1 = cookie s
              /\ inflight s1 = remove_nth i (inflight s))
    by (rewrite E1; repeat split; reflexivity).
  destruct F as (Fh & Fb & Fn & Fr & Fc & Fi).
  pose proof (tick_sends s1 pid) as T.
  rewrite Fh, Fb, Fn, Fr, Fc, Fi in T.
  specialize (T Hid Hb Hnull Hp). rewrite Htoken in T.
  destruct (reconciled_frame s1) as (_ & _ & Ri & _).
  unfold s2. cbn [step].
  rewrite T in *. cbn [snd console inflight set_inflight] in *.
  split; [reflexivity|].
  apply reconciled_console.
Qed.

Lemma branch_same_handler (url : string) :
  match branch inherits "fetch" url, branch inherits "XHR" url with
  | Some (_, f), Some (_, g) => f = g
  | None, None => True
  | _, _ => False
  end.
Proof.
  unfold branch.
  destruct (Str.includes Pattern.bulk_path url); [reflexivity|].
  destruct (Pattern.logged_in_user url); [reflexivity|].
  destruct (Pattern.project_detail url); [reflexivity | exact I].
Qed.

(** X16.  The two interceptors agree: for the same address and the same
    body, the wrapped [fetch] and the [load] listener of an
    [XMLHttpRequest] opened with that address as a string leave the same
    page and the same State Store, and log the same errors (under their
    own labels). *)
Theorem interceptors_agree (s : state) (url : string) (decoded : result value) :
  let s1 := snd (window_fetch inherits (Fulfilled (fresh url decoded)) s) in
  let s2 := snd (on_load inherits (mkXhr (VStr url) decoded) s) in
  visible s1 = visible s2
  /\ map snd (console s1) = map snd (console s2).
Proof.
  intros s1 s2. subst s1 s2.
  rewrite window_fetch_fresh, on_load_branch. cbn [snd _url xhr_json].
  pose proof (branch_same_handler url) as H.
  destruct (branch inherits "fetch" url) as [[lf f]|];
    destruct (branch inherits "XHR" url) as [[lx g]|];
    try contradiction; [|split; reflexivity].
  subst g. split.
  - now rewrite !logged_view.
  - destruct (logged lf (bind (lift decoded) f) s) as (_ & _ & _ & ->).
    destruct (logged lx (bind (lift decoded) f) s) as (_ & _ & _ & ->).
    destruct (fst (bind (lift decoded) f s)); [reflexivity|].
    rewrite !map_app. reflexivity.
Qed.

End Siblings.

Lemma failed_fallback_is_retried_witness :
  let s := mkState "https://app.outlier.ai/projects/P1" "_csrf=t0k"
                   (Some [mkElement overlay_id "shown"]) VNull VNull
                   "https://app.outlier.ai/projects/P1" []
                   [fallback "P1" "t0k"] in
  let s1 := step standard_host s (PollSettled 0 (Rejected NetworkError)) in
  let s2 := step standard_host s1 Tick in
  s1 = set_console [("Polling bulk-remaining-tasks error:", NetworkError)]
         (set_inflight [] s)
  /\ inflight s2 = [fallback "P1" "t0k"]
  /\ console s2 = console s1.
Proof.
  intros s.
  apply (failed_fallback_is_retried standard_host s 0 (fallback "P1" "t0k")
           NetworkError "P1" "t0k").
  - reflexivity.
  - reflexivity.
  - vm_compute. intros H. discriminate H.
  - reflexivity.
  - reflexivity.
  - reflexivity.
Defined.
